(** * TALQS: document pipeline and persistence router

    A shallow embedding of the summarisation route ([chunkText],
    [summarizeChunks]), of the question-answering route ([POST],
    [saveQuestionAndAnswer], [generateExtractiveAnswer]), of the Firestore
    document operations ([saveDocument]) and of the unified data service
    ([dataService.chats.delete], [dataService.users.delete]).

    JavaScript strings are modelled as [string]: a character is one code
    unit in the range 0..255 (Latin-1), which covers every literal the
    source uses.  [.length] is [String.length]. *)

From Stdlib Require Import String Ascii List Arith Bool Lia ZArith.
From Stdlib Require Import Sorting.Permutation Sorting.Sorted.
Import ListNotations.

Local Open Scope string_scope.
Local Open Scope list_scope.
Local Open Scope nat_scope.

(** ** JavaScript string primitives used by the routes *)

Module Js.

(** [\s] restricted to code units below 256: TAB, LF, VT, FF, CR, SPACE and
    NO-BREAK SPACE.  [String.prototype.trim] strips the same set. *)
Definition isSpace (c : ascii) : bool :=
  let n := nat_of_ascii c in
  ((9 <=? n) && (n <=? 13)) || (n =? 32) || (n =? 160).

(** Puts [c] in front of the first piece of a split in progress. *)
Definition consHead (c : ascii) (pieces : list string) : list string :=
  match pieces with
  | p :: ps => String c p :: ps
  | [] => [String c ""]
  end.

(** [s.split(/[class]+/)]: the pieces between the maximal runs of
    separator characters.  [inRun] records that the previous character
    belonged to the separator run that is being skipped. *)
Fixpoint splitRuns (isSep : ascii -> bool) (inRun : bool) (s : string)
  : list string :=
  match s with
  | "" => [""]
  | String c s' =>
      if isSep c then
        if inRun then splitRuns isSep true s'
        else "" :: splitRuns isSep true s'
      else consHead c (splitRuns isSep false s')
  end.

(** [s.split(/\s+/)] *)
Definition splitWs (s : string) : list string := splitRuns isSpace false s.

(** [s.split(sep)] for a non-empty string separator: the text is scanned
    from the left, every occurrence of [sep] found closes the current
    piece and the scan resumes after it.  [skip] counts the characters of
    an occurrence that are still to be passed over. *)
Fixpoint splitFrom (sep : string) (skip : nat) (s : string) : list string :=
  match s with
  | "" => [""]
  | String c s' =>
      match skip with
      | S k => splitFrom sep k s'
      | O =>
          if prefix sep s then "" :: splitFrom sep (String.length sep - 1) s'
          else consHead c (splitFrom sep 0 s')
      end
  end.

Definition split (sep : string) (s : string) : list string :=
  splitFrom sep 0 s.

(** [pieces.join(sep)] *)
Definition join (sep : string) (pieces : list string) : string :=
  String.concat sep pieces.

Fixpoint trimStart (s : string) : string :=
  match s with
  | "" => ""
  | String c s' => if isSpace c then trimStart s' else s
  end.

Fixpoint trimEnd (s : string) : string :=
  match s with
  | "" => ""
  | String c s' =>
      let t := trimEnd s' in
      if isSpace c && (String.length t =? 0) then "" else String c t
  end.

(** [s.trim()] *)
Definition trim (s : string) : string := trimEnd (trimStart s).

(** [s.toLowerCase()] on Latin-1: A-Z and the accented capitals
    U+00C0-U+00DE (U+00D7, the multiplication sign, apart) move up by 32. *)
Definition lowerChar (c : ascii) : ascii :=
  let n := nat_of_ascii c in
  if ((65 <=? n) && (n <=? 90))
     || ((192 <=? n) && (n <=? 222) && negb (n =? 215))
  then ascii_of_nat (n + 32) else c.

Fixpoint toLowerCase (s : string) : string :=
  match s with
  | "" => ""
  | String c s' => String (lowerChar c) (toLowerCase s')
  end.

(** [s.includes(sub)] *)
Fixpoint includes (s sub : string) : bool :=
  prefix sub s
  || match s with
     | "" => false
     | String _ s' => includes s' sub
     end.

(** A text without an occurrence of the sentence delimiter [". "]. *)
Definition noSep (p : string) : Prop := includes p ". " = false.

End Js.

(** ** The summarisation route *)

Module Summarize.

Import Js.

(** [cleanText]: [text.trim().split(/\s+/).join(" ")] *)
Definition cleanText (text : string) : string :=
  join " " (splitWs (trim text)).

(** The loop state of [chunkText]. *)
Record ChunkState := mkChunkState {
  chunks : list string;
  currentChunk : list string;
  currentLength : nat
}.

(** [currentChunk.join(". ") + "."] *)
Definition render (group : list string) : string :=
  (join ". " group ++ ".")%string.

(** The length the loop charges for a sentence:
    [sentence.split(/\s+/).length]. *)
Definition sentenceLength (sentence : string) : nat :=
  List.length (splitWs sentence).

(** One iteration of [for (const sentence of sentences)]. *)
Definition chunkStep (maxChunkLength : nat) (st : ChunkState)
  (sentence : string) : ChunkState :=
  let n := sentenceLength sentence in
  let st1 :=
    if maxChunkLength <? currentLength st + n
    then mkChunkState (chunks st ++ [render (currentChunk st)]) [] 0
    else st in
  mkChunkState (chunks st1) (currentChunk st1 ++ [sentence])
               (currentLength st1 + n).

Definition chunkLoop (maxChunkLength : nat) (sentences : list string)
  (st : ChunkState) : ChunkState :=
  fold_left (chunkStep maxChunkLength) sentences st.

(** After the loop: [if (currentChunk.length > 0) chunks.push(...)], then
    [return chunks]. *)
Definition flush (st : ChunkState) : list string :=
  if 0 <? List.length (currentChunk st)
  then chunks st ++ [render (currentChunk st)]
  else chunks st.

(** [chunkText(text, maxChunkLength)]; the route calls it with the default
    limit of 1000. *)
Definition chunkText (text : string) (maxChunkLength : nat) : list string :=
  flush (chunkLoop maxChunkLength (split ". " text) (mkChunkState [] [] 0)).

(** The body of the [catch] branch of [summarizeChunks], for one chunk.
    [sentences[i]] is only read at indices below [sentences.length], so the
    default of [nth] is never returned. *)
Definition fallbackSummary (chunk : string) : string :=
  let sentences := split ". " chunk in
  if List.length sentences <=? 2 then chunk
  else
    let firstSentence := nth 0 sentences "" in
    let middleSentence := nth (List.length sentences / 2) sentences "" in
    (firstSentence ++ ". " ++ middleSentence ++ ".")%string.

(** [Promise.all(chunks.map(...))]: the summaries in chunk order when every
    request succeeds, a rejection as soon as one of them fails.  [remote]
    is the summarisation server: [None] stands for a response that is not
    ok, or a transport error. *)
Fixpoint promiseAll (remote : string -> option string) (cs : list string)
  : option (list string) :=
  match cs with
  | [] => Some []
  | c :: rest =>
      match remote c, promiseAll remote rest with
      | Some s, Some ss => Some (s :: ss)
      | _, _ => None
      end
  end.

(** [summarizeChunks]: one [try] around the whole batch. *)
Definition summarizeChunks (remote : string -> option string)
  (cs : list string) : list string :=
  match promiseAll remote cs with
  | Some summaries => summaries
  | None => map fallbackSummary cs
  end.

(** *** The groups of the loop, and readings of the specification *)

(** The sentence groups the loop of [chunkText] closes, the last one
    included, from a state with [cur] open and [len] charged. *)
Fixpoint groupsFrom (maxChunkLength : nat) (cur : list string) (len : nat)
  (sentences : list string) : list (list string) :=
  match sentences with
  | [] => if 0 <? List.length cur then [cur] else []
  | s :: rest =>
      let n := sentenceLength s in
      if maxChunkLength <? len + n
      then cur :: groupsFrom maxChunkLength [s] n rest
      else groupsFrom maxChunkLength (cur ++ [s]) (len + n) rest
  end.

(** Greedy packing in the specification's words: sentences join the open
    segment until the next one would take it over the limit, which starts
    a new segment; a segment always takes its first sentence, however
    long; the last segment is emitted as it stands. *)
Fixpoint pack (maxTokens : nat) (cur : list string) (len : nat)
  (sentences : list string) : list (list string) :=
  match sentences with
  | [] => match cur with [] => [] | _ :: _ => [cur] end
  | s :: rest =>
      let n := sentenceLength s in
      match cur with
      | [] => pack maxTokens [s] n rest
      | _ :: _ =>
          if maxTokens <? len + n
          then cur :: pack maxTokens [s] n rest
          else pack maxTokens (cur ++ [s]) (len + n) rest
      end
  end.

(** [chunk] of the specification. *)
Definition chunkSpec (text : string) (maxTokens : nat) : list string :=
  map render (pack maxTokens [] 0 (split ". " text)).

(** [seg.slice(0, -1)]: the text without its last character. *)
Fixpoint dropLast (s : string) : string :=
  match s with
  | "" => ""
  | String c s' =>
      match s' with
      | "" => ""
      | String _ _ => String c (dropLast s')
      end
  end.

(** The sentences of a segment: the full stop that [render] puts at the end
    taken off, the rest split on the delimiter. *)
Definition segmentSentences (segment : string) : list string :=
  split ". " (dropLast segment).

(** Failover chunk by chunk, in the specification's words: a chunk whose
    request fails gets the extractive summary, every other chunk keeps the
    summary the server gave. *)
Definition perChunkFailover (remote : string -> option string)
  (cs : list string) : list string :=
  map (fun c => match remote c with
                | Some s => s
                | None => fallbackSummary c
                end) cs.

(** A server that answers every chunk but one. *)
Definition flakyRemote (c : string) : option string :=
  if String.eqb c "Three. Four." then None else Some "REMOTE SUMMARY".

(** A text of [n] copies of a word, separated by single spaces. *)
Fixpoint wordsOf (w : string) (n : nat) : string :=
  match n with
  | 0 => ""
  | 1 => w
  | S m => (w ++ " " ++ wordsOf w m)%string
  end.

End Summarize.

(** ** The question-answering route *)

Module QA.

Import Js.

(** The separator the route puts between excerpts: two line feeds. *)
Definition blankLine : string :=
  String (ascii_of_nat 10) (String (ascii_of_nat 10) "").

(** The character class of [/[.!?]+/]. *)
Definition isTerminator (c : ascii) : bool :=
  let n := nat_of_ascii c in
  (n =? 46) || (n =? 33) || (n =? 63).

Definition stopWords : list string :=
  ["what"; "who"; "when"; "where"; "why"; "how"; "the"; "and"; "this";
   "that"].

(** [Array.prototype.includes] on an array of strings. *)
Definition arrayIncludes (l : list string) (w : string) : bool :=
  existsb (String.eqb w) l.

(** [documentContent.split(/[.!?]+/).filter(s => s.trim().length > 0)] *)
Definition docSentences (documentContent : string) : list string :=
  filter (fun s => 0 <? String.length (trim s))
         (splitRuns isTerminator false documentContent).

(** [question.toLowerCase().split(/\s+/).filter(w => w.length > 3 &&
    !stopWords.includes(w))] *)
Definition questionWords (question : string) : list string :=
  filter (fun w => (3 <? String.length w) && negb (arrayIncludes stopWords w))
         (splitWs (toLowerCase question)).

Record Scored := mkScored { sentence : string; score : nat }.

(** The callback of [sentences.map]: one point per question word that
    occurs in the lower-cased sentence. *)
Definition scoreSentence (words : list string) (s : string) : Scored :=
  let sentenceLower := toLowerCase s in
  mkScored s
    (fold_left (fun sc word => if includes sentenceLower word then sc + 1
                               else sc) words 0).

(** The comparator [(a, b) => b.score - a.score]. *)
Definition byScore (a b : Scored) : Z :=
  (Z.of_nat (score b) - Z.of_nat (score a))%Z.

(** [Array.prototype.sort] is stable: elements the comparator does not
    order keep their relative position.  With a consistent comparator the
    result is fixed by that, whatever algorithm the engine runs; it is
    computed here by insertion from the right. *)
Fixpoint insertSorted {A : Type} (cmp : A -> A -> Z) (x : A) (l : list A)
  : list A :=
  match l with
  | [] => [x]
  | y :: l' =>
      if (cmp x y <=? 0)%Z then x :: l else y :: insertSorted cmp x l'
  end.

Definition sort {A : Type} (cmp : A -> A -> Z) (l : list A) : list A :=
  fold_right (insertSorted cmp) [] l.

(** [.filter(Boolean)] on array slots that hold a string or [undefined]. *)
Definition filterBoolean (l : list (option string)) : list string :=
  flat_map (fun o => match o with
                     | Some s => if 0 <? String.length s then [s] else []
                     | None => []
                     end) l.

Definition noAnswerFraming : string :=
  ("I couldn't find a specific answer to this question in the document. "
   ++ "Here are some key excerpts that might be helpful:" ++ blankLine)%string.

Definition answerFraming : string :=
  ("Based on the document, I found this information that answers your "
   ++ "question:" ++ blankLine)%string.

(** [sentences.sort(...).slice(0, 3)], before the excerpts are trimmed. *)
Definition ranked (documentContent question : string) : list Scored :=
  sort byScore (map (scoreSentence (questionWords question))
                    (docSentences documentContent)).

(** [generateExtractiveAnswer].  In the first branch [sentences[i]] is
    [undefined] out of range; [sentences.length - 1] is only out of range
    for the empty array, where index 0 is out of range as well. *)
Definition generateExtractiveAnswer (documentContent question : string)
  : string :=
  let sentences := docSentences documentContent in
  let topSentences :=
    map (fun item => trim (sentence item))
        (firstn 3 (ranked documentContent question)) in
  if List.length topSentences =? 0 then
    (noAnswerFraming
     ++ join blankLine
          (map trim
             (filterBoolean
                [nth_error sentences 0;
                 nth_error sentences (List.length sentences / 2);
                 nth_error sentences (List.length sentences - 1)])))%string
  else (answerFraming ++ join blankLine topSentences)%string.

(** *** Requests, the services behind the route, responses *)

(** The JSON body of a request, with the decoded sources of the caller's
    identity that [getUserIdFromRequest] consults: the session, the e-mail
    of a well-formed bearer token, the [x-user-id] header and the e-mail of
    a well-formed [talqs_user] cookie.  A field that is absent is [None].
    The body has been read, and the fields that it has are strings, as
    the clients of the route send them. *)
Record Request := mkRequest {
  question : option string;
  documentContent : option string;
  documentName : option string;
  fingerprint : option string;
  documentFingerprint : option string;
  sessionEmail : option string;
  bearerEmail : option string;
  userIdHeader : option string;
  cookieEmail : option string
}.

(** What [findOne] on the [documents] collection gives. *)
Inductive FindResult :=
| FindThrows
| FindNothing
| FindDocument (content : option string).

Inductive Role := user | ai.

Record ChatMessage := mkChatMessage {
  msgUserId : string;
  msgRole : Role;
  msgContent : string;
  msgDocumentName : option string;
  msgFingerprint : option string
}.

Definition History := list ChatMessage.

(** The services a request meets.  [qaAnswer context question] and
    [qaBulk text] are the inference server, [None] when the response is not
    ok or the transport fails; an answer is in the format of the server,
    a string, or for [qaBulk] a list of pairs of a question and its
    answer.  [saveMessageOk] tells whether a write to the chat history
    goes through. *)
Record Env := mkEnv {
  findDocument : string -> FindResult;
  qaAnswer : string -> string -> option string;
  qaBulk : option string -> option (list (string * string));
  connectToDatabaseOk : bool;
  saveMessageOk : History -> ChatMessage -> bool
}.

Inductive Body :=
| ErrorBody (error : string)
| AnswerOnly (answer : string)
| AnswerBody (q answer : string) (name fp : option string)
             (note : option string)
| BulkBody (answers : list (string * string)) (name fp : option string).

Record Response := mkResponse { status : nat; body : Body }.

(** JavaScript truthiness of a value that is a string or [undefined]. *)
Definition truthy (v : option string) : bool :=
  match v with
  | Some s => 0 <? String.length s
  | None => false
  end.

(** [a || b] *)
Definition orElse (a b : option string) : option string :=
  if truthy a then a else b.

(** [getUserIdFromRequest] *)
Definition getUserIdFromRequest (req : Request) : string :=
  match orElse (sessionEmail req)
          (orElse (bearerEmail req)
             (orElse (userIdHeader req) (cookieEmail req))) with
  | Some s => if 0 <? String.length s then s else "anonymous@talqs.com"
  | None => "anonymous@talqs.com"
  end.

(** Modelled from the spec: [saveMessage] of [@/lib/models/ChatHistory],
    which is not among the sources.  A ChatHistory is an append-only
    ordered sequence of messages: a successful call appends the message,
    a failing one throws and stores nothing. *)
Definition saveMessage (env : Env) (m : ChatMessage) (h : History)
  : option History :=
  if saveMessageOk env h m then Some (h ++ [m]) else None.

(** [saveQuestionAndAnswer]: every failure is caught and logged. *)
Definition saveQuestionAndAnswer (env : Env) (req : Request)
  (q answer : string) (name fp : option string) (isFallback : bool)
  (h : History) : History :=
  if negb (connectToDatabaseOk env) then h
  else
    let userId := getUserIdFromRequest req in
    match saveMessage env (mkChatMessage userId user q name fp) h with
    | None => h
    | Some h1 =>
        let answerPrefix := if isFallback then "[Fallback Answer] " else "" in
        match saveMessage env
                (mkChatMessage userId ai (answerPrefix ++ answer)%string
                               name fp) h1 with
        | None => h1
        | Some h2 => h2
        end
    end.

(** The outcome of the inner [try] block of [POST]. *)
Inductive Attempt :=
| Returned (r : Response) (h : History)
| Thrown.

Definition ok200 (b : Body) : Response := mkResponse 200 b.

(** The response of the outer [catch]. *)
Definition failure500 : Response :=
  mkResponse 500
    (ErrorBody "Failed to process the question with custom model").

Definition fallbackNote : string :=
  "Using fallback method because QA server is unavailable".

(** The [try] block that calls the inference server. *)
Definition askServer (env : Env) (req : Request) (q actual : string)
  (h : History) : Attempt :=
  if negb (String.eqb q "all") then
    match qaAnswer env actual q with
    | Some answer =>
        Returned
          (ok200 (AnswerBody q answer (documentName req) (fingerprint req)
                             None))
          (saveQuestionAndAnswer env req q answer (documentName req)
                                 (fingerprint req) false h)
    | None => Thrown
    end
  else
    match qaBulk env (documentContent req) with
    | Some answers =>
        Returned
          (ok200 (BulkBody answers (documentName req) (fingerprint req)))
          (fold_left
             (fun h' qa =>
                saveQuestionAndAnswer env req (fst qa) (snd qa)
                  (documentName req) (fingerprint req) false h')
             answers h)
    | None => Thrown
    end.

(** The [catch (qaError)] block.  It reads [documentContent], the field of
    the request, not the content that was resolved: on [undefined] the call
    of [.split] throws a TypeError. *)
Definition fallbackAnswer (env : Env) (req : Request) (q : string)
  (h : History) : Attempt :=
  match documentContent req with
  | None => Thrown
  | Some content =>
      let answer := generateExtractiveAnswer content q in
      Returned
        (ok200 (AnswerBody q answer (documentName req) (fingerprint req)
                           (Some fallbackNote)))
        (saveQuestionAndAnswer env req q answer (documentName req)
                               (fingerprint req) true h)
  end.

Definition notFoundAnswer : string :=
  "I don't have enough information to answer that question. The document content could not be found. Please upload the document again.".

Definition retrievalErrorAnswer : string :=
  "Sorry, there was an error retrieving the document. Please try again.".

Definition noDocumentAnswer : string :=
  "I don't have enough information to answer that question. Please upload a document first.".

(** The string held by a value that was tested truthy. *)
Definition valueOf (v : option string) : string :=
  match v with
  | Some s => s
  | None => ""
  end.

(** The lookup of the stored document by fingerprint; [inr] is an early
    response. *)
Definition fetchStored (env : Env) (fp : string) : string + Response :=
  match findDocument env fp with
  | FindThrows => inr (ok200 (AnswerOnly retrievalErrorAnswer))
  | FindNothing => inr (ok200 (AnswerOnly notFoundAnswer))
  | FindDocument content =>
      if truthy content then inl (valueOf content)
      else inr (ok200 (AnswerOnly notFoundAnswer))
  end.

(** [actualDocumentContent]: the inline content, or the stored one looked
    up by fingerprint. *)
Definition resolveContent (env : Env) (req : Request)
  : string + Response :=
  let docFingerprintToSearch :=
    orElse (fingerprint req) (documentFingerprint req) in
  if negb (truthy (documentContent req)) && truthy docFingerprintToSearch
  then fetchStored env (valueOf docFingerprintToSearch)
  else if negb (truthy (documentContent req))
  then inr (ok200 (AnswerOnly noDocumentAnswer))
  else inl (valueOf (documentContent req)).

(** [POST]: the response and the chat history it leaves. *)
Definition POST (env : Env) (req : Request) (h : History)
  : Response * History :=
  match question req with
  | None => (mkResponse 400 (ErrorBody "Question is required"), h)
  | Some q =>
      if negb (0 <? String.length q)
      then (mkResponse 400 (ErrorBody "Question is required"), h)
      else
        match resolveContent env req with
        | inr r => (r, h)
        | inl actual =>
            match askServer env req q actual h with
            | Returned r h' => (r, h')
            | Thrown =>
                match fallbackAnswer env req q h with
                | Returned r h' => (r, h')
                | Thrown => (failure500, h)
                end
            end
        end
  end.

(** *** Readings of the specification, and the examples of the proofs *)

(** Whether a sentence contains one of the question words kept by
    [questionWords], case-insensitively. *)
Definition containsKeyword (question s : string) : bool :=
  existsb (fun w => includes (toLowerCase s) w) (questionWords question).

Definition hasScore (k : nat) (item : Scored) : bool := score item =? k.

(** The order of a ranking: higher scores first. *)
Definition descending (a b : Scored) : Prop := score b <= score a.

(** Removes the later copies of a string. *)
Fixpoint dedup (l : list string) : list string :=
  match l with
  | [] => []
  | x :: l' => x :: filter (fun y => negb (String.eqb y x)) (dedup l')
  end.

(** The answer of the specification when no sentence scores: the first,
    the middle and the last sentence, without repetition, behind the "no
    confident answer" framing. *)
Definition zeroScoreAnswer (documentContent : string) : string :=
  let sentences := docSentences documentContent in
  (noAnswerFraming
   ++ join blankLine
        (dedup
           (map trim
              (filterBoolean
                 [nth_error sentences 0;
                  nth_error sentences (List.length sentences / 2);
                  nth_error sentences (List.length sentences - 1)]))))%string.

(** The two messages of an exchange, in the order they are saved. *)
Definition exchange (req : Request) (q content : string) : History :=
  [mkChatMessage (getUserIdFromRequest req) user q (documentName req)
                 (fingerprint req);
   mkChatMessage (getUserIdFromRequest req) ai content (documentName req)
                 (fingerprint req)].

(** A chat store that accepts every write. *)
Definition storeUp (env : Env) : Prop :=
  connectToDatabaseOk env = true
  /\ forall h m, saveMessageOk env h m = true.

Definition sampleDocument : string :=
  "Alpha beta. Gamma delta. Epsilon zeta. The penalty is ten dollars. Iota kappa.".

(** A document without the word of the question. *)
Definition plainDocument : string :=
  "Alpha beta. Gamma delta. Epsilon zeta. Eta theta. Iota kappa.".

(** The inference server is down; the document is stored under the
    fingerprint [fp1]. *)
Definition serverDown : Env :=
  mkEnv (fun fp => if String.eqb fp "fp1" then FindDocument (Some sampleDocument)
                   else FindNothing)
        (fun _ _ => None) (fun _ => None) true (fun _ _ => true).

(** The inference server answers. *)
Definition serverUp : Env :=
  mkEnv (fun _ => FindNothing) (fun _ _ => Some "Ten dollars.")
        (fun _ => Some []) true (fun _ _ => true).

(** A question about a document the caller names by its fingerprint. *)
Definition askByFingerprint : Request :=
  mkRequest (Some "What penalty applies here") None (Some "lease.txt")
            (Some "fp1") None (Some "ann@example.org") None None None.

(** The same question with the document sent inline. *)
Definition askInline : Request :=
  mkRequest (Some "What penalty applies here") (Some sampleDocument)
            (Some "lease.txt") (Some "fp1") None (Some "ann@example.org")
            None None None.

End QA.

(** ** Firestore operations *)

Module Firestore.

(** Server timestamps, as the instant the write is committed. *)
Definition Timestamp := nat.

(** [Omit<FirebaseDocument, 'id' | 'uploadedAt' | 'lastAccessedAt'>] *)
Record DocInput := mkDocInput {
  userId : string;
  fingerprint : string;
  fileName : string;
  fileSize : nat
}.

(** The fields of a stored document. *)
Record DocumentData := mkDocumentData {
  input : DocInput;
  uploadedAt : Timestamp;
  lastAccessedAt : Timestamp
}.

(** A collection: the documents with their ids. *)
Definition Collection (A : Type) := list (string * A).

(** A time in a value that the program holds: a time read from the store,
    or the [serverTimestamp()] sentinel that a write sends, which only
    the server replaces by a time. *)
Inductive TimeValue :=
| Stored (t : Timestamp)
| ServerTimestampSentinel.

(** The fields of a document as an operation returns them. *)
Record ReturnedData := mkReturnedData {
  returnedInput : DocInput;
  returnedUploadedAt : TimeValue;
  returnedLastAccessedAt : TimeValue
}.

(** [FirebaseDocument]: the id with the fields. *)
Definition FirebaseDocument := (string * ReturnedData)%type.

(** [{ id: docDoc.id, ...docDoc.data() }] *)
Definition snapshot (docDoc : string * DocumentData) : FirebaseDocument :=
  (fst docDoc,
   mkReturnedData (input (snd docDoc)) (Stored (uploadedAt (snd docDoc)))
                  (Stored (lastAccessedAt (snd docDoc)))).

Record UserData := mkUserData {
  email : string;
  name : string;
  isAdmin : bool;
  createdAt : Timestamp;
  updatedAt : Timestamp
}.

Record ChatData := mkChatData {
  chatUserId : string;
  messages : list (QA.Role * string);
  chatUpdatedAt : Timestamp
}.

Record Db := mkDb {
  users : Collection UserData;
  documents : Collection DocumentData;
  chatHistory : Collection ChatData
}.

(** What a call meets: whether Firestore is configured, whether the read
    and the write go through, the server time of the write and the id
    [addDoc] draws for a new document. *)
Record Env := mkEnv {
  isAvailable : bool;
  getDocsOk : bool;
  writeOk : bool;
  serverTimestamp : Timestamp;
  newId : string
}.

(** [where('userId', '==', u), where('fingerprint', '==', f)] *)
Definition matches (d : DocInput) (e : string * DocumentData) : bool :=
  String.eqb (userId (input (snd e))) (userId d)
  && String.eqb (fingerprint (input (snd e))) (fingerprint d).

(** [updateDoc(ref, { lastAccessedAt: serverTimestamp() })] *)
Definition touch (ref : string) (now : Timestamp)
  (docs : Collection DocumentData) : Collection DocumentData :=
  map (fun e =>
         if String.eqb (fst e) ref
         then (fst e, mkDocumentData (input (snd e)) (uploadedAt (snd e)) now)
         else e) docs.

(** [firebaseDocumentOps.saveDocument]: the collection it leaves and the
    value it resolves to ([None] for [null]).  On a hit it returns the
    snapshot that the query read, from before the update.  For a new
    document it returns the object it has sent, [{ id, ...newDoc }], whose
    two times are still the sentinels; the server stores its time for
    them. *)
Definition saveDocument (env : Env) (docData : DocInput)
  (docs : Collection DocumentData)
  : Collection DocumentData * option FirebaseDocument :=
  if negb (isAvailable env) then (docs, None)
  else if negb (getDocsOk env) then (docs, None)
  else
    match filter (matches docData) docs with
    | docDoc :: _ =>
        if writeOk env
        then (touch (fst docDoc) (serverTimestamp env) docs,
              Some (snapshot docDoc))
        else (docs, None)
    | [] =>
        if writeOk env
        then
          let newDoc := mkReturnedData docData ServerTimestampSentinel
                                       ServerTimestampSentinel in
          (docs ++ [(newId env,
                     mkDocumentData docData (serverTimestamp env)
                                    (serverTimestamp env))],
           Some (newId env, newDoc))
        else (docs, None)
    end.

(** [deleteDoc(doc(db, collection, id))] *)
Definition deleteDoc {A : Type} (ref : string) (c : Collection A)
  : Collection A :=
  filter (fun e => negb (String.eqb (fst e) ref)) c.

(** [firebaseChatOps.deleteChatHistory] *)
Definition deleteChatHistory (env : Env) (chatId : string) (db : Db)
  : Db * bool :=
  if negb (isAvailable env) then (db, false)
  else if writeOk env
  then (mkDb (users db) (documents db) (deleteDoc chatId (chatHistory db)),
        true)
  else (db, false).

(** [firebaseUserOps.deleteUser] *)
Definition deleteUser (env : Env) (uid : string) (db : Db) : Db * bool :=
  if negb (isAvailable env) then (db, false)
  else if writeOk env
  then (mkDb (deleteDoc uid (users db)) (documents db) (chatHistory db), true)
  else (db, false).

(** The records stored for an (owner, fingerprint) pair. *)
Definition recordsFor (owner fp : string) (docs : Collection DocumentData)
  : Collection DocumentData :=
  filter (matches (mkDocInput owner fp "" 0)) docs.

(** The invariant of the [documents] collection: a pair (owner,
    fingerprint) is stored at most once. *)
Definition uniquePairs (docs : Collection DocumentData) : Prop :=
  forall owner fp, List.length (recordsFor owner fp docs) <= 1.

(** Firestore is configured and the call's read and write go through. *)
Definition reachable (env : Env) : Prop :=
  isAvailable env = true /\ getDocsOk env = true /\ writeOk env = true.

(** The examples of the proofs: a collection with one document of another
    owner, and two calls, the second at a later server time. *)
Definition sampleDocs : Collection DocumentData :=
  [("d0", mkDocumentData (mkDocInput "bob@example.org" "fp1" "lease.txt" 120)
                         3 5)].

Definition firstCall : Env := mkEnv true true true 10 "d1".

Definition secondCall : Env := mkEnv true true true 12 "d2".

Definition annLease : DocInput :=
  mkDocInput "ann@example.org" "fp1" "lease.txt" 120.

End Firestore.

(** ** The unified data service *)

Module DataService.

(** The part of the provider contract the delete operations use; [S] is the
    state of the provider's store. *)
Record Provider (S : Type) := mkProvider {
  deleteUser : string -> S -> S * bool;
  deleteChatHistory : string -> S -> S * bool
}.

Arguments deleteUser {S}.
Arguments deleteChatHistory {S}.

(** [DATABASE_PROVIDER] and the two flags of [DATA_PROVIDERS] the service
    reads. *)
Record Config := mkConfig {
  DATABASE_PROVIDER : string;
  firebaseEnabled : bool;
  mongodbEnabled : bool
}.

(** [DATA_PROVIDERS.firebase && (DATABASE_PROVIDER === 'firebase' ||
    DATABASE_PROVIDER === 'both')] *)
Definition triesFirebase (cfg : Config) : bool :=
  firebaseEnabled cfg
  && (String.eqb (DATABASE_PROVIDER cfg) "firebase"
      || String.eqb (DATABASE_PROVIDER cfg) "both").

Definition triesMongo (cfg : Config) : bool :=
  mongodbEnabled cfg
  && (String.eqb (DATABASE_PROVIDER cfg) "mongodb"
      || String.eqb (DATABASE_PROVIDER cfg) "both").

(** The shape shared by [users.delete] and [chats.delete]:
    [success = await op(id) || success] for each provider in turn. *)
Definition deleteVia {F M : Type} (cfg : Config)
  (firebaseOp : string -> F -> F * bool) (mongoOp : string -> M -> M * bool)
  (ref : string) (st : F * M) : (F * M) * bool :=
  let success := false in
  let '(f, success) :=
    if triesFirebase cfg
    then let '(f', r) := firebaseOp ref (fst st) in (f', r || success)
    else (fst st, success) in
  let '(m, success) :=
    if triesMongo cfg
    then let '(m', r) := mongoOp ref (snd st) in (m', r || success)
    else (snd st, success) in
  ((f, m), success).

(** [dataService.chats.delete] *)
Definition chats_delete {F M : Type} (cfg : Config)
  (firebaseOps : Provider F) (mongoOps : Provider M)
  (chatId : string) (st : F * M) : (F * M) * bool :=
  deleteVia cfg (deleteChatHistory firebaseOps) (deleteChatHistory mongoOps)
            chatId st.

(** [dataService.users.delete] *)
Definition users_delete {F M : Type} (cfg : Config)
  (firebaseOps : Provider F) (mongoOps : Provider M)
  (uid : string) (st : F * M) : (F * M) * bool :=
  deleteVia cfg (deleteUser firebaseOps) (deleteUser mongoOps) uid st.

(** [firebaseOps], over the Firestore database. *)
Definition firebaseOps (env : Firestore.Env) : Provider Firestore.Db :=
  mkProvider Firestore.Db (Firestore.deleteUser env)
             (Firestore.deleteChatHistory env).

(** [mongoOps]: the placeholders of the source, which log "not implemented
    yet" and return [false]. *)
Definition mongoOps : Provider unit :=
  mkProvider unit (fun _ st => (st, false)) (fun _ st => (st, false)).

(** For the examples: a provider that keeps the ids it holds in a list and
    whose deletes succeed. *)
Definition listStore : Provider (list string) :=
  mkProvider (list string)
    (fun ref st => (filter (fun i => negb (String.eqb i ref)) st, true))
    (fun ref st => (filter (fun i => negb (String.eqb i ref)) st, true)).

(** Firestore is not configured. *)
Definition firestoreDown : Firestore.Env :=
  Firestore.mkEnv false false false 0 "".

Definition emptyDb : Firestore.Db := Firestore.mkDb [] [] [].

Definition dualMode : Config := mkConfig "both" true true.

End DataService.

(** ** The rest of the summarisation route *)

Module SummarizeRoute.

Import Js Summarize.

(** The length the loop of [chunkText] has charged for a group. *)
Definition groupWords (group : list string) : nat :=
  list_sum (map sentenceLength group).

Definition unwantedPhrases : list string :=
  ["the following"; "as follows"; "in summary"; "this means that"].

(** [s.replace(new RegExp(phrase, 'gi'), "")] for a phrase of lower-case
    letters and spaces: the text is scanned from the left, an occurrence
    of the phrase in either case is left out and the scan resumes after
    it.  [skip] counts the characters of an occurrence that are still to
    be passed over. *)
Fixpoint removeFrom (phrase : string) (skip : nat) (s : string) : string :=
  match s with
  | "" => ""
  | String c s' =>
      match skip with
      | S k => removeFrom phrase k s'
      | O =>
          if prefix phrase (toLowerCase s)
          then removeFrom phrase (String.length phrase - 1) s'
          else String c (removeFrom phrase 0 s')
      end
  end.

Definition removeAll (phrase s : string) : string := removeFrom phrase 0 s.

(** [refineSummary] *)
Definition refineSummary (summary : string) : string :=
  trim (fold_left (fun refined phrase => removeAll phrase refined)
                  unwantedPhrases summary).

(** A text that is empty or begins with a character that is no
    whitespace. *)
Definition startsClean (s : string) : Prop :=
  match s with
  | "" => True
  | String c _ => isSpace c = false
  end.

(** [s.endsWith(suffix)] *)
Definition endsWith (s suffix : string) : bool :=
  (String.length suffix <=? String.length s)
  && String.eqb (substring (String.length s - String.length suffix)
                           (String.length suffix) s) suffix.

(** The uploaded file: its name, its size and its text. *)
Record File := mkFile {
  fileName : string;
  fileSize : nat;
  fileText : string
}.

(** What [formData.get('file')] gives: [null] when the form has no such
    field, a text when the field is no upload, a [File] otherwise. *)
Inductive FileField :=
| NoFile
| TextField (value : string)
| FileUpload (f : File).

(** The form data and the sources of the caller's identity; a field of
    the form or a header that is missing is [None]. *)
Record Request := mkRequest {
  file : FileField;
  fingerprintField : option string;
  sessionEmail : option string;
  userIdHeader : option string
}.

(** What the summarisation server gives for a chunk: nothing the callback
    can read (the request fails, the status is not ok, or the body is
    not JSON or is [null], so that the callback throws), a JSON value
    without a string under [summary], or a summary. *)
Inductive Reply :=
| Unavailable
| NoSummary
| Summary (summary : string).

(** What the route calls: [generateFingerprint] of [@/lib/document-utils],
    which is not among the sources, and the summarisation server. *)
Record Env := mkEnv {
  generateFingerprint : string -> string;
  summarizer : string -> Reply
}.

(** A call of [saveDocument(userId, fingerprint, name, size, content)];
    the route goes on whether the call succeeds or throws. *)
Record SaveCall := mkSaveCall {
  savedUserId : string;
  savedFingerprint : string;
  savedName : string;
  savedSize : nat;
  savedContent : string
}.

Inductive Body :=
| ErrorBody (error : string)
| SummaryBody (name : string) (size : nat) (summary : string)
              (originalTextPreview : string).

Record Response := mkResponse { status : nat; body : Body }.

Definition tooShort : Body :=
  ErrorBody "Text is too short for meaningful summarization".

(** The response of the outer [catch]. *)
Definition failure500 : Response :=
  mkResponse 500 (ErrorBody "Failed to process the file").

Definition lineFeed : string := String (ascii_of_nat 10) "".

(** [cleanedText.substring(0, 300) + (cleanedText.length > 300 ? '...' :
    '')] *)
Definition preview (cleanedText : string) : string :=
  (substring 0 300 cleanedText
   ++ (if (300 <? String.length cleanedText)%nat then "..." else ""))%string.

Definition answered (r : Reply) : bool :=
  match r with
  | Unavailable => false
  | NoSummary => true
  | Summary _ => true
  end.

(** [data.summary]: [None] is [undefined] or a value that is no string. *)
Definition summaryOf (r : Reply) : option string :=
  match r with
  | Summary summary => Some summary
  | NoSummary => None
  | Unavailable => None
  end.

Definition isSome {A : Type} (o : option A) : bool :=
  match o with
  | Some _ => true
  | None => false
  end.

(** [summarizeChunks] with the values of [data.summary] as the server
    sends them: when the callback throws for a chunk, every chunk gets
    its fallback summary; otherwise every chunk gets what the server put
    under [summary], which need not be a string. *)
Definition summarizeReplies (summarizer : string -> Reply)
  (chunks : list string) : list (option string) :=
  if forallb (fun chunk => answered (summarizer chunk)) chunks
  then map (fun chunk => summaryOf (summarizer chunk)) chunks
  else map (fun chunk => Some (fallbackSummary chunk)) chunks.

(** [summaries.map(s => refineSummary(s))]: [refineSummary] calls
    [replace] on its argument and throws when that is no string; [None]
    stands for the exception. *)
Fixpoint refineAll (summaries : list (option string))
  : option (list string) :=
  match summaries with
  | [] => Some []
  | None :: _ => None
  | Some s :: rest =>
      match refineAll rest with
      | Some refined => Some (refineSummary s :: refined)
      | None => None
      end
  end.

(** The summaries can be refined: the fallback has written them, or the
    server has sent a string for every chunk. *)
Definition summariesUsable (summarizer : string -> Reply)
  (chunks : list string) : bool :=
  negb (forallb (fun chunk => answered (summarizer chunk)) chunks)
  || forallb (fun chunk => isSome (summaryOf (summarizer chunk))) chunks.

(** The server as [Summarize.summarizeChunks] sees it when every answer
    carries a summary. *)
Definition remoteOf (summarizer : string -> Reply) (chunk : string)
  : option string :=
  summaryOf (summarizer chunk).

(** The summary of the response. *)
Definition structuredSummary (refined : list string) : string :=
  ("### Structured Legal Summary ###" ++ lineFeed
   ++ join QA.blankLine refined)%string.

(** [POST] of the summarisation route: the response and the calls of
    [saveDocument] it has made.  [form] is [None] when
    [request.formData()] rejects; the session lookup is taken to answer.
    Whatever is thrown ends in the outer [catch]: a text in the place
    of the file has no [name], and a summary that is no string has no
    [replace]. *)
Definition POST (env : Env) (form : option Request)
  : Response * list SaveCall :=
  match form with
  | None => (failure500, [])
  | Some req =>
      match file req with
      | NoFile => (mkResponse 400 (ErrorBody "No file provided"), [])
      | TextField value =>
          if String.length value =? 0
          then (mkResponse 400 (ErrorBody "No file provided"), [])
          else (failure500, [])
      | FileUpload f =>
          if negb (endsWith (fileName f) ".txt")
          then (mkResponse 400 (ErrorBody "Only .txt files are supported"),
                [])
          else if String.length (trim (fileText f)) =? 0
          then (mkResponse 400 (ErrorBody "The file is empty"), [])
          else
            let fingerprint :=
              if QA.truthy (fingerprintField req)
              then QA.valueOf (fingerprintField req)
              else generateFingerprint env (fileText f) in
            let userId := QA.orElse (sessionEmail req) (userIdHeader req) in
            if negb (QA.truthy userId)
            then (mkResponse 401
                    (ErrorBody
                       "User identification failed. Cannot process document."),
                  [])
            else
              let saved :=
                [mkSaveCall (QA.valueOf userId) fingerprint (fileName f)
                            (fileSize f) (fileText f)] in
              let cleanedText := cleanText (fileText f) in
              if List.length (splitWs cleanedText) <? 100
              then (mkResponse 400 tooShort, saved)
              else
                match refineAll (summarizeReplies (summarizer env)
                                   (chunkText cleanedText 1000)) with
                | Some refined =>
                    (mkResponse 200
                       (SummaryBody (fileName f) (fileSize f)
                                    (structuredSummary refined)
                                    (preview cleanedText)),
                     saved)
                | None => (failure500, saved)
                end
      end
  end.

(** The upload passes the checks that come before the call of
    [saveDocument]. *)
Definition accepted (req : Request) (f : File) : Prop :=
  file req = FileUpload f
  /\ endsWith (fileName f) ".txt" = true
  /\ String.length (trim (fileText f)) <> 0
  /\ QA.truthy (QA.orElse (sessionEmail req) (userIdHeader req)) = true.

(** The examples of the proofs: a server that is down, and one that
    answers without a summary. *)
Definition plainEnv : Env :=
  mkEnv (fun _ => "generated") (fun _ => Unavailable).

Definition silentEnv : Env :=
  mkEnv (fun _ => "generated") (fun _ => NoSummary).

Definition shortUpload : Request :=
  mkRequest (FileUpload (mkFile "note.txt" 11 "Too short.")) None
            (Some "ann@example.org") None.

Definition longUpload : Request :=
  mkRequest (FileUpload (mkFile "lease.txt" 500 (wordsOf "word" 120)))
            (Some "fp9") None (Some "u42").

End SummarizeRoute.

(** ** More on the question-answering route *)

Module Transcript.

Import Js QA.

(** Whether a character of the class occurs in the text. *)
Fixpoint hasChar (class : ascii -> bool) (s : string) : bool :=
  match s with
  | "" => false
  | String c s' => class c || hasChar class s'
  end.

(** Whether every answer in a run of messages comes right after a
    question; [afterQuestion] tells that the message before the run was
    one. *)
Fixpoint answersFollowQuestions (afterQuestion : bool) (l : History)
  : bool :=
  match l with
  | [] => true
  | m :: l' =>
      match msgRole m with
      | user => answersFollowQuestions true l'
      | ai => afterQuestion && answersFollowQuestions false l'
      end
  end.

(** The response carries an answer of the server or of the fallback. *)
Definition isAnswer (r : Response) : bool :=
  match body r with
  | AnswerBody _ _ _ _ _ => true
  | BulkBody _ _ _ => true
  | ErrorBody _ => false
  | AnswerOnly _ => false
  end.

(** The route from the body of the request on: [None] is a body for
    which [request.json()] rejects or gives [null], so that reading its
    fields throws and the outer [catch] answers.  Any other JSON value is
    read field by field, and [POST] goes on with the fields. *)
Definition route (env : Env) (json : option Request) (h : History)
  : Response * History :=
  match json with
  | None => (failure500, h)
  | Some req => POST env req h
  end.

(** A request whose question mark keeps the last word from matching. *)
Definition askPenalty : Request :=
  mkRequest (Some "What is the penalty?") (Some sampleDocument)
            (Some "lease.txt") None None None None (Some "u42") None.

End Transcript.

(** ** The route [/api/qa] *)

Module SimpleQA.

Import QA.

(** The fields of the JSON body that the route reads; a field that is
    missing or [null] is [None]. *)
Record Request := mkRequest {
  question : option string;
  documentFingerprint : option string;
  documentName : option string
}.

(** What the inference server gives: nothing the route can read (the
    request fails, the status is not ok, or the body is not JSON), the
    JSON value [null], or another JSON value with what it has under
    [answer], [None] for [undefined]. *)
Inductive Reply :=
| Unavailable
| NullReply
| ObjectReply (answer : option string).

(** A message as [saveMessage] is given it; the content [None] is
    [undefined]. *)
Record Message := mkMessage {
  sentBy : string;
  sentAs : Role;
  content : option string;
  aboutName : option string;
  aboutFingerprint : option string
}.

(** The services a request meets: the [documents] collection, the
    inference server, and whether a write to the chat history goes
    through. *)
Record Env := mkEnv {
  findStored : string -> FindResult;
  qaServer : string -> string -> Reply;
  saveOk : list Message -> Message -> bool
}.

Inductive Body :=
| ErrorBody (error : string)
| AnswerBody (answer : option string).

Record Response := mkResponse { status : nat; body : Body }.

Definition apology : string :=
  "I'm sorry, I couldn't process your question. Please try again later.".

(** The response of the [catch] around the call of the server. *)
Definition apologyResponse : Response :=
  mkResponse 200 (AnswerBody (Some apology)).

(** The response of the outer [catch]. *)
Definition failure500 : Response :=
  mkResponse 500 (ErrorBody "Failed to process question").

(** [documentContent]: the content stored under the fingerprint, [''] when
    there is no fingerprint, no such document, no content, or the lookup
    throws. *)
Definition storedContent (env : Env) (req : Request) : string :=
  if truthy (documentFingerprint req)
  then
    match findStored env (valueOf (documentFingerprint req)) with
    | FindDocument content => if truthy content then valueOf content else ""
    | FindNothing => ""
    | FindThrows => ""
    end
  else "".

(** Modelled from the spec: [saveMessage] of [@/lib/models/ChatHistory],
    which is not among the sources.  A ChatHistory is an append-only
    ordered sequence of messages: a successful call appends the message,
    a failing one throws and stores nothing. *)
Definition saveMessage (env : Env) (m : Message) (h : list Message)
  : option (list Message) :=
  if saveOk env h m then Some (h ++ [m]) else None.

(** The two calls of [saveMessage] and the [catch] around them.  The
    argument [data.answer] of the second call is read after the first
    call has returned; on [null] reading it throws, and the question
    stays stored. *)
Definition saveBoth (env : Env) (userId q : string) (data : Reply)
  (name fp : option string) (h : list Message) : list Message :=
  match saveMessage env (mkMessage userId user (Some q) name fp) h with
  | None => h
  | Some h1 =>
      match data with
      | ObjectReply answer =>
          match saveMessage env (mkMessage userId ai answer name fp) h1 with
          | None => h1
          | Some h2 => h2
          end
      | NullReply => h1
      | Unavailable => h1
      end
  end.

(** [POST].  [json] is [None] for a body for which [request.json()]
    rejects or gives [null]; [getUserId] is what [getUserId] of
    [@/lib/user-utils], which is not among the sources, does for the
    caller: [None] when it throws, else the id or [undefined] that it
    returns. *)
Definition POST (env : Env) (getUserId : option (option string))
  (json : option Request) (h : list Message)
  : Response * list Message :=
  match json with
  | None => (failure500, h)
  | Some req =>
      if negb (truthy (question req))
      then (mkResponse 400 (ErrorBody "Question is required"), h)
      else
        let documentContent := storedContent env req in
        if String.length documentContent =? 0
        then (mkResponse 200 (AnswerBody (Some noDocumentAnswer)), h)
        else
          match qaServer env documentContent (valueOf (question req)) with
          | Unavailable => (apologyResponse, h)
          | data =>
              match getUserId with
              | None => (apologyResponse, h)
              | Some userId =>
                  let h' :=
                    if truthy userId
                    then saveBoth env (valueOf userId)
                                  (valueOf (question req)) data
                                  (documentName req)
                                  (documentFingerprint req) h
                    else h in
                  match data with
                  | ObjectReply answer =>
                      (mkResponse 200 (AnswerBody answer), h')
                  | NullReply => (apologyResponse, h')
                  | Unavailable => (apologyResponse, h')
                  end
              end
          end
  end.

(** The messages of an exchange, as the route hands them to
    [saveMessage]. *)
Definition asked (userId : string) (req : Request) : Message :=
  mkMessage userId user (Some (valueOf (question req))) (documentName req)
            (documentFingerprint req).

Definition replied (userId : string) (req : Request)
  (answer : option string) : Message :=
  mkMessage userId ai answer (documentName req) (documentFingerprint req).

(** The examples of the proofs: a stored document, a server that is down
    and one that answers [null]. *)
Definition askStored : Request :=
  mkRequest (Some "What penalty applies here") (Some "fp1")
            (Some "lease.txt").

Definition lookup (fp : string) : FindResult :=
  if String.eqb fp "fp1" then FindDocument (Some sampleDocument)
  else FindNothing.

Definition downEnv : Env :=
  mkEnv lookup (fun _ _ => Unavailable) (fun _ _ => true).

Definition nullEnv : Env :=
  mkEnv lookup (fun _ _ => NullReply) (fun _ _ => true).

End SimpleQA.


(** ** More Firestore operations *)

Module FirestoreOps.

Import Firestore.

(** [firebaseDocumentOps.getDocumentByFingerprint] *)
Definition getDocumentByFingerprint (env : Env) (uid fp : string)
  (docs : Collection DocumentData) : option FirebaseDocument :=
  if negb (isAvailable env) then None
  else if negb (getDocsOk env) then None
  else
    match filter (matches (mkDocInput uid fp "" 0)) docs with
    | docDoc :: _ => Some (snapshot docDoc)
    | [] => None
    end.

(** [Omit<FirebaseUser, 'id' | 'createdAt' | 'updatedAt'>]; an optional
    field that the object does not have is [None]. *)
Record UserInput := mkUserInput {
  uEmail : string;
  uName : string;
  uImage : option string;
  uProvider : option string;
  uIsAdmin : option bool
}.

(** The fields of a stored user. *)
Record StoredUser := mkStoredUser {
  fields : UserInput;
  userCreatedAt : Timestamp;
  userUpdatedAt : Timestamp
}.

(** [FirebaseUser] as a query reads it: the id with the stored fields. *)
Definition FirebaseUser := (string * StoredUser)%type.

(** [FirebaseUser] as [upsertUser] returns it: the id with the fields it
    has sent, where a time that the write sets is still the
    [serverTimestamp()] sentinel. *)
Record UpsertedUser := mkUpsertedUser {
  upsertedId : string;
  upsertedFields : UserInput;
  upsertedCreatedAt : TimeValue;
  upsertedUpdatedAt : TimeValue
}.

(** [where('email', '==', email)] *)
Definition hasEmail (email : string) (e : string * StoredUser) : bool :=
  String.eqb (uEmail (fields (snd e))) email.

(** A field of an update: the new value when the update has one. *)
Definition overwrite {A : Type} (new old : option A) : option A :=
  match new with
  | Some _ => new
  | None => old
  end.

(** [updateDoc(ref, { ...userData, updatedAt: serverTimestamp() })]: the
    fields of [userData] replace the stored ones, the others stay. *)
Definition updateUser (ref : string) (userData : UserInput) (now : Timestamp)
  (users : Collection StoredUser) : Collection StoredUser :=
  map (fun e =>
         if String.eqb (fst e) ref
         then (fst e,
               mkStoredUser
                 (mkUserInput (uEmail userData) (uName userData)
                    (overwrite (uImage userData) (uImage (fields (snd e))))
                    (overwrite (uProvider userData)
                               (uProvider (fields (snd e))))
                    (overwrite (uIsAdmin userData)
                               (uIsAdmin (fields (snd e)))))
                 (userCreatedAt (snd e)) now)
         else e) users.

(** [firebaseUserOps.upsertUser]: the collection it leaves and the user it
    resolves to ([None] for [null]).  On a hit the user returned has the
    fields of [userData] with the stored creation time; the times that
    the write sets come back as sentinels. *)
Definition upsertUser (env : Env) (userData : UserInput)
  (users : Collection StoredUser)
  : Collection StoredUser * option UpsertedUser :=
  if negb (isAvailable env) then (users, None)
  else if negb (getDocsOk env) then (users, None)
  else
    match filter (hasEmail (uEmail userData)) users with
    | userDoc :: _ =>
        if writeOk env
        then (updateUser (fst userDoc) userData (serverTimestamp env) users,
              Some (mkUpsertedUser (fst userDoc) userData
                      (Stored (userCreatedAt (snd userDoc)))
                      ServerTimestampSentinel))
        else (users, None)
    | [] =>
        if writeOk env
        then
          let newUser := mkStoredUser userData (serverTimestamp env)
                                      (serverTimestamp env) in
          (users ++ [(newId env, newUser)],
           Some (mkUpsertedUser (newId env) userData ServerTimestampSentinel
                                ServerTimestampSentinel))
        else (users, None)
    end.

(** [firebaseUserOps.getUserByEmail] *)
Definition getUserByEmail (env : Env) (email : string)
  (users : Collection StoredUser) : option FirebaseUser :=
  if negb (isAvailable env) then None
  else if negb (getDocsOk env) then None
  else
    match filter (hasEmail email) users with
    | userDoc :: _ => Some userDoc
    | [] => None
    end.

(** [firebaseUserOps.getAllUsers] *)
Definition getAllUsers (env : Env) (users : Collection StoredUser)
  : list FirebaseUser :=
  if negb (isAvailable env) then []
  else if negb (getDocsOk env) then []
  else users.

(** The invariant of the [users] collection: an e-mail is stored at most
    once. *)
Definition uniqueEmails (users : Collection StoredUser) : Prop :=
  forall email, List.length (filter (hasEmail email) users) <= 1.

(** Ids name one document each, as in every Firestore collection. *)
Definition uniqueIds {A : Type} (c : Collection A) : Prop :=
  NoDup (map fst c).

(** The examples of the proofs. *)
Definition annFirst : UserInput :=
  mkUserInput "ann@example.org" "Ann" (Some "ann.png") (Some "google") None.

Definition annAgain : UserInput :=
  mkUserInput "ann@example.org" "Ann B." None None None.

Definition sampleChats : Db :=
  mkDb [] sampleDocs
       [("c1", mkChatData "ann@example.org" [(QA.user, "Hello")] 4);
        ("c2", mkChatData "bob@example.org" [] 6)].

Definition bobLease : DocInput :=
  mkDocInput "bob@example.org" "fp1" "lease.txt" 120.

End FirestoreOps.

(** ** Configuration and the other operations of the data service *)

Module Router.

Import DataService.

(** The variables of the process environment the configuration reads; a
    variable that is not set is [None]. *)
Record ProcessEnv := mkProcessEnv {
  DATABASE_PROVIDER_var : option string;
  MONGODB_URI_var : option string;
  NEXT_PUBLIC_FIREBASE_API_KEY : option string;
  NEXT_PUBLIC_FIREBASE_AUTH_DOMAIN : option string;
  NEXT_PUBLIC_FIREBASE_PROJECT_ID : option string;
  NEXT_PUBLIC_FIREBASE_STORAGE_BUCKET : option string;
  NEXT_PUBLIC_FIREBASE_MESSAGING_SENDER_ID : option string;
  NEXT_PUBLIC_FIREBASE_APP_ID : option string
}.

(** [process.env.MONGODB_URI || "mongodb://127.0.0.1:27017/talqs"] *)
Definition MONGODB_URI (penv : ProcessEnv) : string :=
  QA.valueOf (QA.orElse (MONGODB_URI_var penv)
                        (Some "mongodb://127.0.0.1:27017/talqs")).

(** [FIREBASE_ENABLED]: the six variables are all set and not empty. *)
Definition FIREBASE_ENABLED (penv : ProcessEnv) : bool :=
  QA.truthy (NEXT_PUBLIC_FIREBASE_API_KEY penv)
  && QA.truthy (NEXT_PUBLIC_FIREBASE_AUTH_DOMAIN penv)
  && QA.truthy (NEXT_PUBLIC_FIREBASE_PROJECT_ID penv)
  && QA.truthy (NEXT_PUBLIC_FIREBASE_STORAGE_BUCKET penv)
  && QA.truthy (NEXT_PUBLIC_FIREBASE_MESSAGING_SENDER_ID penv)
  && QA.truthy (NEXT_PUBLIC_FIREBASE_APP_ID penv).

(** [DATABASE_PROVIDER] and [DATA_PROVIDERS] as the module computes them
    when it is loaded. *)
Definition config (penv : ProcessEnv) : Config :=
  mkConfig
    (QA.valueOf (QA.orElse (DATABASE_PROVIDER_var penv) (Some "mongodb")))
    (FIREBASE_ENABLED penv)
    (0 <? String.length (MONGODB_URI penv)).

(** The shape shared by [users.upsert], [users.getByEmail],
    [users.getAll], [documents.save], [documents.getUserDocuments],
    [documents.getByFingerprint], [chats.save] and [chats.getUserHistory]:
    Firestore first, whose result is returned when it is usable or the
    provider is pinned to ["firebase"]; then the second store, whose
    result is returned when it is usable; then what the operation does
    last. *)
Definition firstUsable {F M R : Type} (cfg : Config) (usable : R -> bool)
  (firebaseOp : F -> F * R) (mongoOp : M -> M * R)
  (otherwise : F * M -> (F * M) * R) (st : F * M) : (F * M) * R :=
  let '(f, early) :=
    if triesFirebase cfg
    then
      let '(f', r) := firebaseOp (fst st) in
      if usable r || String.eqb (DATABASE_PROVIDER cfg) "firebase"
      then (f', Some r) else (f', None)
    else (fst st, None) in
  match early with
  | Some r => ((f, snd st), r)
  | None =>
      let '(m, found) :=
        if triesMongo cfg
        then
          let '(m', r) := mongoOp (snd st) in
          if usable r then (m', Some r) else (m', None)
        else (snd st, None) in
      match found with
      | Some r => ((f, m), r)
      | None => otherwise (f, m)
      end
  end.

(** A result that is an object or [null]. *)
Definition isObject {A : Type} (r : option A) : bool :=
  match r with
  | Some _ => true
  | None => false
  end.

(** [result.length > 0] *)
Definition nonEmpty {A : Type} (r : list A) : bool :=
  0 <? List.length r.

(** [dataService.users.upsert], over Firestore and the placeholder of the
    source for the second store, which answers [null]. *)
Definition users_upsert (cfg : Config) (env : Firestore.Env)
  (userData : FirestoreOps.UserInput)
  (st : Firestore.Collection FirestoreOps.StoredUser * unit)
  : (Firestore.Collection FirestoreOps.StoredUser * unit)
    * option FirestoreOps.UpsertedUser :=
  firstUsable cfg isObject
    (FirestoreOps.upsertUser env userData)
    (fun m => (m, None))
    (fun st' => (st', None)) st.

(** [dataService.users.getByEmail] *)
Definition users_getByEmail (cfg : Config) (env : Firestore.Env)
  (email : string)
  (st : Firestore.Collection FirestoreOps.StoredUser * unit)
  : (Firestore.Collection FirestoreOps.StoredUser * unit)
    * option FirestoreOps.FirebaseUser :=
  firstUsable cfg isObject
    (fun users => (users, FirestoreOps.getUserByEmail env email users))
    (fun m => (m, None))
    (fun st' => (st', None)) st.

(** [dataService.users.getAll] *)
Definition users_getAll (cfg : Config) (env : Firestore.Env)
  (st : Firestore.Collection FirestoreOps.StoredUser * unit)
  : (Firestore.Collection FirestoreOps.StoredUser * unit)
    * list FirestoreOps.FirebaseUser :=
  firstUsable cfg nonEmpty
    (fun users => (users, FirestoreOps.getAllUsers env users))
    (fun m => (m, []))
    (fun st' => (st', [])) st.

(** [dataService.documents.save]: the second store of the source is the
    in-memory store, which is also what the operation falls back on; [I]
    is its state and [memorySave] its [saveDocument]. *)
Definition documents_save {I : Type} (cfg : Config) (env : Firestore.Env)
  (memorySave : Firestore.DocInput -> I
                -> I * option Firestore.FirebaseDocument)
  (docData : Firestore.DocInput)
  (st : Firestore.Collection Firestore.DocumentData * I)
  : (Firestore.Collection Firestore.DocumentData * I)
    * option Firestore.FirebaseDocument :=
  firstUsable cfg isObject
    (Firestore.saveDocument env docData)
    (memorySave docData)
    (fun st' =>
       let '(i, r) := memorySave docData (snd st') in ((fst st', i), r))
    st.

(** A process without any of the variables. *)
Definition bareProcess : ProcessEnv :=
  mkProcessEnv None None None None None None None None.

(** A process with Firebase configured and both providers selected. *)
Definition dualProcess : ProcessEnv :=
  mkProcessEnv (Some "both") None (Some "key") (Some "talqs.example.org")
               (Some "talqs") (Some "bucket") (Some "42") (Some "app").

(** For the examples: an in-memory store that keeps the documents it is
    given in a list. *)
Definition listSave (d : Firestore.DocInput)
  (i : list Firestore.FirebaseDocument)
  : list Firestore.FirebaseDocument * option Firestore.FirebaseDocument :=
  let doc := ("mem", Firestore.mkReturnedData d (Firestore.Stored 0)
                                             (Firestore.Stored 0)) in
  (i ++ [doc], Some doc).

End Router.

(** * Properties *)

(** ** Splitting on [". "] and joining back *)

Module JsFacts.

Import Js.

Lemma prefix_empty (s : string) : prefix "" s = true.
Proof. now destruct s. Qed.

Lemma prefix_cons (a b : ascii) (s1 s2 : string) :
  prefix (String a s1) (String b s2) = Ascii.eqb a b && prefix s1 s2.
Proof.
  change (prefix (String a s1) (String b s2))
    with (if ascii_dec a b then prefix s1 s2 else false).
  destruct (ascii_dec a b) as [->|N].
  - now rewrite Ascii.eqb_refl.
  - apply Ascii.eqb_neq in N. now rewrite N.
Qed.

(** Whether the text begins with the delimiter, character by character. *)
Lemma prefix_sep (c : ascii) (s : string) :
  prefix ". " (String c s)
  = Ascii.eqb c "."
    && match s with
       | String d _ => Ascii.eqb d " "
       | "" => false
       end.
Proof.
  rewrite prefix_cons, (Ascii.eqb_sym "." c). f_equal.
  destruct s as [|d s]; [reflexivity|].
  now rewrite prefix_cons, prefix_empty, andb_true_r, Ascii.eqb_sym.
Qed.

Lemma split_empty : split ". " "" = [""].
Proof. reflexivity. Qed.

Lemma split_at_sep (r : string) :
  split ". " (String "." (String " " r)) = "" :: split ". " r.
Proof.
  unfold split. cbn [splitFrom]. now rewrite prefix_sep.
Qed.

Lemma split_step (c : ascii) (s : string) :
  prefix ". " (String c s) = false ->
  split ". " (String c s) = consHead c (split ". " s).
Proof.
  unfold split. cbn [splitFrom]. intros ->. reflexivity.
Qed.

(** The scan either stands on a delimiter or moves one character on. *)
Lemma at_sep_or_not (c : ascii) (s : string) :
  (exists r, String c s = String "." (String " " r))
  \/ prefix ". " (String c s) = false.
Proof.
  destruct (prefix ". " (String c s)) eqn:E; [left | now right].
  rewrite prefix_sep in E. apply andb_true_iff in E as [Ec Ed].
  destruct s as [|d r]; [discriminate|].
  apply Ascii.eqb_eq in Ec, Ed. subst. now exists r.
Qed.

(** Induction along the scan of [split ". "]. *)
Lemma scan_ind (P : string -> Prop) :
  P "" ->
  (forall r, P r -> P (String "." (String " " r))) ->
  (forall c s, prefix ". " (String c s) = false -> P s -> P (String c s)) ->
  forall s, P s.
Proof.
  intros H0 Hsep Hstep s.
  assert (H : P s /\ forall c, P (String c s)).
  { induction s as [|d s [IH1 IH2]].
    - split; [exact H0|]. intro c. apply Hstep; [|exact H0].
      rewrite prefix_sep. apply andb_false_r.
    - split; [apply IH2|]. intro c.
      destruct (at_sep_or_not c (String d s)) as [[r E]|E].
      + inversion E; subst. now apply Hsep.
      + apply Hstep; [exact E | apply IH2]. }
  apply H.
Qed.

Lemma includes_cons (c : ascii) (s sub : string) :
  includes (String c s) sub = prefix sub (String c s) || includes s sub.
Proof. reflexivity. Qed.

Lemma noSep_tail (c : ascii) (p : string) : noSep (String c p) -> noSep p.
Proof.
  unfold noSep. rewrite includes_cons. now intros [_ H]%orb_false_iff.
Qed.

Lemma noSep_head (c : ascii) (p : string) :
  noSep (String c p) -> prefix ". " (String c p) = false.
Proof.
  unfold noSep. rewrite includes_cons. now intros [H _]%orb_false_iff.
Qed.

(** A sentence followed by the delimiter: no occurrence starts inside the
    sentence, since the two characters of the delimiter differ. *)
Lemma noSep_before_sep (c : ascii) (p r : string) :
  noSep (String c p) ->
  prefix ". " (String c (p ++ String "." (String " " r))) = false.
Proof.
  intros H%noSep_head. rewrite prefix_sep in *.
  destruct p as [|d p]; cbn [append]; [|exact H].
  apply andb_false_iff. now right.
Qed.

Lemma split_whole (p : string) : noSep p -> split ". " p = [p].
Proof.
  induction p as [|c p IH]; intro H; [reflexivity|].
  rewrite split_step by now apply noSep_head.
  rewrite IH by now apply noSep_tail with c. reflexivity.
Qed.

Lemma split_sentence_then (p r : string) :
  noSep p ->
  split ". " (p ++ String "." (String " " r)) = p :: split ". " r.
Proof.
  induction p as [|c p IH]; intro H; [apply split_at_sep|].
  cbn [append]. rewrite split_step by now apply noSep_before_sep.
  rewrite IH by now apply noSep_tail with c. reflexivity.
Qed.

Lemma join_cons2 (sep x y : string) (l : list string) :
  join sep (x :: y :: l) = (x ++ sep ++ join sep (y :: l))%string.
Proof. reflexivity. Qed.

(** Splitting a join of delimiter-free sentences gives the sentences. *)
Lemma split_join (g : list string) :
  g <> [] -> Forall noSep g -> split ". " (join ". " g) = g.
Proof.
  induction g as [|p g IH]; [congruence|]. intros _ Hall.
  inversion Hall as [|? ? Hp Hg]; subst.
  destruct g as [|q g].
  - cbn. now apply split_whole.
  - rewrite join_cons2. cbn [append].
    rewrite split_sentence_then by assumption.
    f_equal. apply IH; [discriminate | assumption].
Qed.

Lemma consHead_noSep (c : ascii) (l : list string) :
  l <> [] ->
  prefix ". " (String c (hd "" l)) = false ->
  Forall noSep l -> Forall noSep (consHead c l).
Proof.
  destruct l as [|p l]; [congruence|]. cbn [hd consHead]. intros _ Hc Hall.
  inversion Hall; subst. constructor; [|assumption].
  unfold noSep. rewrite includes_cons. apply orb_false_iff. now split.
Qed.

Lemma split_nonempty (s : string) : split ". " s <> [].
Proof.
  induction s using scan_ind.
  - discriminate.
  - rewrite split_at_sep. discriminate.
  - rewrite split_step by assumption.
    destruct (split ". " s); [congruence | discriminate].
Qed.

(** The first piece of a split is a prefix of the text, up to the first
    delimiter: what precedes it begins the text as well. *)
Lemma head_prefix (c : ascii) (s : string) :
  prefix ". " (String c s) = false ->
  prefix ". " (String c (hd "" (split ". " s))) = false.
Proof.
  intro H. rewrite prefix_sep in *.
  apply andb_false_iff in H as [H|H]; [now rewrite H|].
  apply andb_false_iff. right.
  destruct s as [|d s]; [reflexivity|].
  destruct (at_sep_or_not d s) as [[r E]|E].
  - inversion E; subst. rewrite split_at_sep. reflexivity.
  - rewrite split_step by assumption.
    pose proof (split_nonempty s) as Hne.
    destruct (split ". " s); [congruence | exact H].
Qed.

(** No piece of a split contains the delimiter. *)
Lemma split_pieces (s : string) : Forall noSep (split ". " s).
Proof.
  induction s using scan_ind.
  - repeat constructor.
  - rewrite split_at_sep. constructor; [reflexivity | assumption].
  - rewrite split_step by assumption.
    apply consHead_noSep; [apply split_nonempty | now apply head_prefix
                          | assumption].
Qed.

End JsFacts.

(** ** Chunking and the summarisation fallback *)

Module SummarizeFacts.

Import Js JsFacts Summarize.

Section Loop.

Variable maxChunkLength : nat.

(** What [chunkText] returns from a loop state, once the rest of the
    sentences is consumed. *)
Lemma chunkLoop_groups (sentences : list string) (st : ChunkState) :
  flush (chunkLoop maxChunkLength sentences st)
  = chunks st
    ++ map render (groupsFrom maxChunkLength (currentChunk st)
                              (currentLength st) sentences).
Proof.
  revert st. induction sentences as [|s rest IH]; intro st.
  - unfold flush. cbn.
    destruct (currentChunk st); cbn; [now rewrite app_nil_r | reflexivity].
  - change (chunkLoop maxChunkLength (s :: rest) st)
      with (chunkLoop maxChunkLength rest (chunkStep maxChunkLength st s)).
    rewrite IH. unfold chunkStep. cbn [groupsFrom].
    destruct (maxChunkLength <? currentLength st + sentenceLength s); cbn.
    + now rewrite <- app_assoc.
    + reflexivity.
Qed.

Lemma groupsFrom_concat (sentences cur : list string) (len : nat) :
  concat (groupsFrom maxChunkLength cur len sentences) = cur ++ sentences.
Proof.
  revert cur len. induction sentences as [|s rest IH]; intros cur len;
    cbn [groupsFrom].
  - destruct cur; cbn; now rewrite ?app_nil_r.
  - destruct (maxChunkLength <? len + sentenceLength s);
      cbn [concat]; rewrite IH.
    + reflexivity.
    + now rewrite <- app_assoc.
Qed.

(** Once a sentence is in, every group has one; and what holds of the
    sentences holds inside the groups. *)
Lemma groupsFrom_groups (P : string -> Prop) (sentences cur : list string)
  (len : nat) :
  cur <> [] -> Forall P cur -> Forall P sentences ->
  Forall (fun g => g <> [] /\ Forall P g)
         (groupsFrom maxChunkLength cur len sentences).
Proof.
  revert cur len. induction sentences as [|s rest IH];
    intros cur len Hne Hcur Hall; cbn [groupsFrom].
  - destruct cur; [congruence|]. cbn.
    constructor; [split; [discriminate | assumption] | constructor].
  - inversion Hall; subst.
    destruct (maxChunkLength <? len + sentenceLength s).
    + constructor; [now split|].
      apply IH; [discriminate | now constructor | assumption].
    + apply IH; [now destruct cur | | assumption].
      apply Forall_app. split; [assumption | now constructor].
Qed.

(** With a sentence in the open segment the loop packs as the
    specification says. *)
Lemma groupsFrom_pack (sentences cur : list string) (len : nat) :
  cur <> [] ->
  groupsFrom maxChunkLength cur len sentences
  = pack maxChunkLength cur len sentences.
Proof.
  revert cur len. induction sentences as [|s rest IH];
    intros cur len Hne; cbn [groupsFrom pack].
  - now destruct cur.
  - destruct cur as [|x cur]; [congruence|].
    destruct (maxChunkLength <? len + sentenceLength s).
    + f_equal. now apply IH.
    + now apply IH.
Qed.

End Loop.

Lemma chunkText_groups (text : string) (maxChunkLength : nat) :
  chunkText text maxChunkLength
  = map render (groupsFrom maxChunkLength [] 0 (split ". " text)).
Proof.
  unfold chunkText.
  exact (chunkLoop_groups maxChunkLength (split ". " text)
                          (mkChunkState [] [] 0)).
Qed.

(** The code against the specification's packing: the same segments, after
    a segment ["."] of no sentence when the first sentence is over the
    limit. *)
Lemma chunkText_vs_chunkSpec (text : string) (maxChunkLength : nat) :
  chunkText text maxChunkLength
  = (if maxChunkLength <? sentenceLength (hd "" (split ". " text))
     then ["."] else [])
    ++ chunkSpec text maxChunkLength.
Proof.
  rewrite chunkText_groups. unfold chunkSpec.
  pose proof (split_nonempty text) as Hne.
  destruct (split ". " text) as [|s rest]; [congruence|].
  cbn [groupsFrom pack hd Nat.add].
  destruct (maxChunkLength <? sentenceLength s); cbn [map app];
    rewrite groupsFrom_pack by discriminate; reflexivity.
Qed.

Lemma dropLast_render (x : string) : dropLast (x ++ ".") = x.
Proof.
  induction x as [|c x IH]; [reflexivity|].
  cbn [append dropLast]. rewrite IH.
  now destruct x.
Qed.

Lemma segmentSentences_render (g : list string) :
  g <> [] -> Forall noSep g -> segmentSentences (render g) = g.
Proof.
  intros Hne Hall. unfold segmentSentences, render.
  rewrite dropLast_render. now apply split_join.
Qed.

Lemma resplit_groups (groups : list (list string)) :
  Forall (fun g => g <> [] /\ Forall noSep g) groups ->
  concat (map segmentSentences (map render groups)) = concat groups.
Proof.
  induction 1 as [|g groups [Hne Hg] _ IH]; [reflexivity|].
  cbn. now rewrite segmentSentences_render, IH.
Qed.

(** Re-segmentation of any text whose first sentence is within the
    limit. *)
Lemma chunkText_resplit (text : string) (maxChunkLength : nat) :
  sentenceLength (hd "" (split ". " text)) <= maxChunkLength ->
  concat (map segmentSentences (chunkText text maxChunkLength))
  = split ". " text.
Proof.
  intro Hfit. rewrite chunkText_groups.
  pose proof (split_nonempty text) as Hne.
  pose proof (split_pieces text) as Hall.
  destruct (split ". " text) as [|s rest]; [congruence|].
  inversion Hall; subst.
  cbn [groupsFrom hd Nat.add] in *.
  apply Nat.ltb_ge in Hfit. rewrite Hfit.
  rewrite resplit_groups.
  - apply groupsFrom_concat.
  - apply groupsFrom_groups; [discriminate | now constructor | assumption].
Qed.

Lemma promiseAll_all (remote : string -> option string) (cs : list string) :
  (forall c, In c cs -> remote c <> None) ->
  promiseAll remote cs = Some (perChunkFailover remote cs).
Proof.
  induction cs as [|c cs IH]; intro H; [reflexivity|]. cbn.
  rewrite IH by (intros; apply H; now right).
  destruct (remote c) eqn:E; [reflexivity|].
  exfalso. apply (H c); [now left | exact E].
Qed.

Lemma promiseAll_one_fails (remote : string -> option string)
  (cs : list string) :
  (exists c, In c cs /\ remote c = None) -> promiseAll remote cs = None.
Proof.
  induction cs as [|c cs IH]; intros [x [Hin Hx]]; [contradiction|].
  cbn. destruct Hin as [->|Hin].
  - now rewrite Hx.
  - rewrite IH by (now exists x). now destruct (remote c).
Qed.

(** C1, as stated, fails: the server answers the first chunk and fails on
    the second, and the summary it gave for the first chunk is not used;
    both chunks get the extractive summary. *)
Lemma summarizeChunks_not_per_chunk :
  summarizeChunks flakyRemote ["One. Two. Three. Four. Five."; "Three. Four."]
  = ["One. Three."; "Three. Four."]
  /\ perChunkFailover flakyRemote
       ["One. Two. Three. Four. Five."; "Three. Four."]
     = ["REMOTE SUMMARY"; "Three. Four."]
  /\ summarizeChunks flakyRemote
       ["One. Two. Three. Four. Five."; "Three. Four."]
     <> perChunkFailover flakyRemote
          ["One. Two. Three. Four. Five."; "Three. Four."].
Proof.
  repeat split; try reflexivity. vm_compute. discriminate.
Qed.

(** C1, amended: the failover is for the batch.  When the server answers
    every chunk, its summaries are returned in chunk order; when it fails
    on any chunk, every chunk gets the extractive summary, the chunks the
    server answered included. *)
Theorem summarizeChunks_batch_failover (remote : string -> option string)
  (cs : list string) :
  ((forall c, In c cs -> remote c <> None) ->
   Forall2 (fun c s => remote c = Some s) cs (summarizeChunks remote cs))
  /\ ((exists c, In c cs /\ remote c = None) ->
      summarizeChunks remote cs = map fallbackSummary cs).
Proof.
  split; intro H; unfold summarizeChunks.
  - rewrite promiseAll_all by assumption. unfold perChunkFailover.
    induction cs as [|c cs IH]; cbn; constructor.
    + destruct (remote c) eqn:E; [reflexivity|].
      exfalso. apply (H c); [now left | exact E].
    + apply IH. intros; apply H; now right.
  - now rewrite promiseAll_one_fails.
Qed.

Lemma summarizeChunks_batch_failover_witness :
  Forall2 (fun c s => (fun _ => Some "S") c = Some s) ["A."; "B."]
          (summarizeChunks (fun _ => Some "S") ["A."; "B."])
  /\ summarizeChunks flakyRemote
       ["One. Two. Three. Four. Five."; "Three. Four."]
     = map fallbackSummary ["One. Two. Three. Four. Five."; "Three. Four."].
Proof.
  split.
  - apply (summarizeChunks_batch_failover (fun _ => Some "S") ["A."; "B."]).
    intros c _. discriminate.
  - apply (summarizeChunks_batch_failover flakyRemote).
    exists "Three. Four.". split; [simpl; tauto | reflexivity].
Defined.

(** C4: the code against the claim, on a text the route can receive: 1001
    words without a sentence delimiter, chunked with the route's limit of
    1000.  Greedy packing gives one segment, the sentence whole; the code
    first emits a segment ["."] that holds no sentence. *)
Theorem chunkText_leading_empty_segment :
  cleanText (wordsOf "w" 1001) = wordsOf "w" 1001
  /\ chunkText (cleanText (wordsOf "w" 1001)) 1000
     = ["."; (wordsOf "w" 1001 ++ ".")%string]
  /\ chunkSpec (cleanText (wordsOf "w" 1001)) 1000
     = [(wordsOf "w" 1001 ++ ".")%string].
Proof.
  repeat split; vm_compute; reflexivity.
Qed.

(** C5, as stated, fails: each segment ends in a full stop that the text
    did not have.  Concatenated and re-split, the segments give two
    sentences for the three of the text; re-split one by one they give
    three, two of them altered. *)
Lemma chunk_resplit_alters_sentences :
  chunkText (cleanText "One two.  Three four. Five six") 4
  = ["One two. Three four."; "Five six."]
  /\ split ". " (cleanText "One two.  Three four. Five six")
     = ["One two"; "Three four"; "Five six"]
  /\ split ". " (join "" (chunkText
                            (cleanText "One two.  Three four. Five six") 4))
     = ["One two"; "Three four.Five six."]
  /\ concat (map (split ". ")
               (chunkText (cleanText "One two.  Three four. Five six") 4))
     = ["One two"; "Three four."; "Five six."]
  /\ split ". " (join "" (chunkText
                            (cleanText "One two.  Three four. Five six") 4))
     <> split ". " (cleanText "One two.  Three four. Five six")
  /\ concat (map (split ". ")
               (chunkText (cleanText "One two.  Three four. Five six") 4))
     <> split ". " (cleanText "One two.  Three four. Five six").
Proof.
  repeat split; try reflexivity; vm_compute; discriminate.
Qed.

(** C5, amended: when the length that [chunkText] counts for the first
    sentence of the normalised text is at most the limit, the segments of
    [chunkText], each without the full stop put at its end, re-split in
    output order into exactly the sentences of the normalised text.  The
    length counted is [sentenceLength], the number of pieces of
    [sentence.split(/\s+/)]: it counts an empty piece where the sentence
    is empty or ends in a space, and is never 0. *)
Theorem chunk_lossless (text : string) (N : nat) :
  sentenceLength (hd "" (split ". " (cleanText text))) <= N ->
  concat (map segmentSentences (chunkText (cleanText text) N))
  = split ". " (cleanText text).
Proof.
  apply chunkText_resplit.
Qed.

Lemma chunk_lossless_witness :
  concat (map segmentSentences
            (chunkText (cleanText "  One two.  Three four five. Six ") 4))
  = split ". " (cleanText "  One two.  Three four five. Six ").
Proof.
  apply (chunk_lossless "  One two.  Three four five. Six " 4).
  apply Nat.leb_le. vm_compute. reflexivity.
Defined.

(** C6: with the server down, a chunk of at most two sentences is returned
    as it is, a single sentence in particular; a longer one becomes its
    first sentence, [". "], the sentence at index [count / 2] and ["."];
    for four sentences that is [s0 ++ ". " ++ s2 ++ "."]. *)
Theorem fallbackSummary_spec (chunk : string) :
  summarizeChunks (fun _ => None) [chunk] = [fallbackSummary chunk]
  /\ (List.length (split ". " chunk) <= 2 -> fallbackSummary chunk = chunk)
  /\ (2 < List.length (split ". " chunk) ->
      exists first middle,
        nth_error (split ". " chunk) 0 = Some first
        /\ nth_error (split ". " chunk)
                     (List.length (split ". " chunk) / 2) = Some middle
        /\ fallbackSummary chunk
           = (first ++ ". " ++ middle ++ ".")%string)
  /\ (forall s0 s1 s2 s3,
        split ". " chunk = [s0; s1; s2; s3] ->
        fallbackSummary chunk = (s0 ++ ". " ++ s2 ++ ".")%string)
  /\ (noSep chunk -> fallbackSummary chunk = chunk)
  /\ (forall s0 s1 s2 s3,
        Forall noSep [s0; s1; s2; s3] ->
        chunk = join ". " [s0; s1; s2; s3] ->
        fallbackSummary chunk = (s0 ++ ". " ++ s2 ++ ".")%string).
Proof.
  split; [|split; [|split; [|split; [|split]]]]; [reflexivity | | | | |].
  - unfold fallbackSummary. intros H%Nat.leb_le. now rewrite H.
  - intro H. unfold fallbackSummary.
    assert (Hmid : List.length (split ". " chunk) / 2
                   < List.length (split ". " chunk)).
    { apply Nat.div_lt; lia. }
    destruct (nth_error (split ". " chunk) 0) as [first|] eqn:E0;
      [|apply nth_error_None in E0; lia].
    destruct (nth_error (split ". " chunk)
                (List.length (split ". " chunk) / 2)) as [middle|] eqn:E1;
      [|apply nth_error_None in E1; lia].
    exists first, middle. repeat split.
    apply Nat.leb_gt in H. rewrite H.
    now rewrite (nth_error_nth _ _ _ E0), (nth_error_nth _ _ _ E1).
  - intros s0 s1 s2 s3 E. unfold fallbackSummary. rewrite E. reflexivity.
  - intro H. unfold fallbackSummary. now rewrite (split_whole chunk H).
  - intros s0 s1 s2 s3 Hall ->. unfold fallbackSummary.
    rewrite split_join by (discriminate || assumption). reflexivity.
Qed.

Lemma fallbackSummary_spec_witness :
  fallbackSummary "One sentence only" = "One sentence only"
  /\ fallbackSummary "Ab. Cd. Ef. Gh." = "Ab. Ef.".
Proof.
  split.
  - apply (fallbackSummary_spec "One sentence only"). vm_compute. lia.
  - destruct (fallbackSummary_spec "Ab. Cd. Ef. Gh.")
      as (_ & _ & _ & _ & _ & H).
    apply (H "Ab" "Cd" "Ef" "Gh."); [|reflexivity].
    repeat constructor.
Defined.

End SummarizeFacts.

(** ** The extractive answer *)

Module QAFacts.

Import Js QA.

(** *** The stable sort *)

Section Sort.

Context {A : Type} (cmp : A -> A -> Z).

Lemma insertSorted_perm (x : A) (l : list A) :
  Permutation (insertSorted cmp x l) (x :: l).
Proof.
  induction l as [|y l IH]; cbn; [reflexivity|].
  destruct (cmp x y <=? 0)%Z; [reflexivity|].
  rewrite IH. apply perm_swap.
Qed.

Lemma sort_perm (l : list A) : Permutation (sort cmp l) l.
Proof.
  induction l as [|x l IH]; cbn; [reflexivity|].
  rewrite insertSorted_perm. now constructor.
Qed.

End Sort.

Lemma byScore_le (a b : Scored) :
  (byScore a b <=? 0)%Z = (score b <=? score a).
Proof.
  unfold byScore.
  destruct (score b <=? score a) eqn:E.
  - apply Nat.leb_le in E. apply Z.leb_le. lia.
  - apply Nat.leb_gt in E. apply Z.leb_gt. lia.
Qed.

Lemma insertSorted_sorted (x : Scored) (l : list Scored) :
  StronglySorted descending l ->
  StronglySorted descending (insertSorted byScore x l).
Proof.
  induction 1 as [|y l Hl IH Hy]; cbn.
  - repeat constructor.
  - rewrite byScore_le. destruct (score y <=? score x) eqn:E.
    + apply Nat.leb_le in E. constructor; [now constructor|].
      constructor; [exact E|].
      eapply Forall_impl; [|exact Hy]. unfold descending. intros; lia.
    + apply Nat.leb_gt in E. constructor; [exact IH|].
      rewrite (insertSorted_perm byScore x l).
      constructor; [unfold descending; lia | exact Hy].
Qed.

Lemma sort_sorted (l : list Scored) :
  StronglySorted descending (sort byScore l).
Proof.
  induction l as [|x l IH]; cbn; [constructor|].
  now apply insertSorted_sorted.
Qed.

(** Insertion only passes sentences of a higher score, so the sentences of
    any one score keep their order. *)
Lemma insertSorted_stable (k : nat) (x : Scored) (l : list Scored) :
  filter (hasScore k) (insertSorted byScore x l)
  = filter (hasScore k) (x :: l).
Proof.
  induction l as [|y l IH]; [reflexivity|].
  cbn [insertSorted]. rewrite byScore_le.
  destruct (score y <=? score x) eqn:E; [reflexivity|].
  apply Nat.leb_gt in E.
  cbn [filter] in *. rewrite IH. unfold hasScore.
  destruct (score y =? k) eqn:Ey, (score x =? k) eqn:Ex; try reflexivity.
  apply Nat.eqb_eq in Ey, Ex. lia.
Qed.

Lemma sort_stable (k : nat) (l : list Scored) :
  filter (hasScore k) (sort byScore l) = filter (hasScore k) l.
Proof.
  induction l as [|x l IH]; [reflexivity|].
  cbn [sort fold_right]. rewrite insertSorted_stable.
  cbn [filter]. fold (sort byScore l). now rewrite IH.
Qed.

(** Sentences that all score the same stay as they are. *)
Lemma sort_ties (k : nat) (l : list Scored) :
  Forall (fun it => score it = k) l -> sort byScore l = l.
Proof.
  induction 1 as [|x l Hx Hl IH]; [reflexivity|].
  cbn [sort fold_right]. fold (sort byScore l). rewrite IH.
  destruct l as [|y l]; [reflexivity|].
  cbn [insertSorted]. rewrite byScore_le.
  inversion Hl; subst. replace (score y <=? score x) with true; [reflexivity|].
  symmetry. apply Nat.leb_le. lia.
Qed.

Lemma sorted_positions (l : list Scored) (i j : nat) (a b : Scored) :
  StronglySorted descending l ->
  nth_error l i = Some a -> nth_error l j = Some b ->
  i < j -> score b <= score a.
Proof.
  intro H. revert i j. induction H as [|x l Hl IH Hx]; intros i j Hi Hj Hij.
  - destruct i; discriminate.
  - destruct j as [|j]; [lia|]. cbn in Hj.
    destruct i as [|i]; cbn in Hi.
    + inversion Hi; subst.
      apply nth_error_In in Hj.
      rewrite Forall_forall in Hx. now apply Hx.
    + apply (IH i j); [assumption | assumption | lia].
Qed.

(** *** Scores *)

Lemma count_fold (p : string -> bool) (words : list string) (n : nat) :
  fold_left (fun sc word => if p word then sc + 1 else sc) words n
  = n + List.length (filter p words).
Proof.
  revert n. induction words as [|w words IH]; intro n; cbn; [lia|].
  rewrite IH. destruct (p w); cbn; lia.
Qed.

Lemma score_count (words : list string) (s : string) :
  score (scoreSentence words s)
  = List.length (filter (fun w => includes (toLowerCase s) w) words).
Proof.
  unfold scoreSentence. cbn [score]. now rewrite count_fold.
Qed.

Lemma score_keyword (question s : string) :
  containsKeyword question s
  = (0 <? score (scoreSentence (questionWords question) s)).
Proof.
  rewrite score_count. unfold containsKeyword.
  induction (questionWords question) as [|w l IH]; [reflexivity|].
  cbn. destruct (includes (toLowerCase s) w); [reflexivity | exact IH].
Qed.

Lemma ranked_items (documentContent question : string) (item : Scored) :
  In item (ranked documentContent question) ->
  item = scoreSentence (questionWords question) (sentence item)
  /\ In (sentence item) (docSentences documentContent).
Proof.
  unfold ranked. intro H.
  apply (Permutation_in _ (sort_perm byScore _)) in H.
  apply in_map_iff in H as [s [<- Hs]]. now split.
Qed.

Lemma ranked_length (documentContent question : string) :
  List.length (ranked documentContent question)
  = List.length (docSentences documentContent).
Proof.
  unfold ranked.
  rewrite (Permutation_length (sort_perm byScore _)).
  apply length_map.
Qed.

(** With a sentence in the document the route answers from the ranking. *)
Lemma answer_from_ranking (documentContent question : string) :
  docSentences documentContent <> [] ->
  generateExtractiveAnswer documentContent question
  = (answerFraming
     ++ join blankLine
          (map (fun item => trim (sentence item))
               (firstn 3 (ranked documentContent question))))%string.
Proof.
  intro Hne. unfold generateExtractiveAnswer.
  rewrite length_map, length_firstn, ranked_length.
  destruct (docSentences documentContent) as [|s l]; [congruence|].
  cbn [List.length]. now destruct (List.length l) as [|[|[|n]]].
Qed.

(** When no sentence scores, the ranking is the document order and the
    route still answers from it. *)
Lemma answer_without_match (documentContent question : string) :
  docSentences documentContent <> [] ->
  (forall s, In s (docSentences documentContent) ->
             containsKeyword question s = false) ->
  generateExtractiveAnswer documentContent question
  = (answerFraming
     ++ join blankLine
          (map trim (firstn 3 (docSentences documentContent))))%string.
Proof.
  intros Hne Hzero. rewrite answer_from_ranking by assumption.
  unfold ranked. rewrite (sort_ties 0).
  - rewrite firstn_map, map_map. reflexivity.
  - apply Forall_forall. intros item [s [<- Hs]]%in_map_iff.
    specialize (Hzero s Hs). rewrite score_keyword in Hzero.
    apply Nat.ltb_ge in Hzero. lia.
Qed.

Lemma not_stop_word (w : string) :
  arrayIncludes stopWords w = false <-> ~ In w stopWords.
Proof.
  unfold arrayIncludes. split.
  - intros H Hin. apply not_true_iff_false in H. apply H.
    apply existsb_exists. exists w. split; [exact Hin | apply String.eqb_refl].
  - intro H. apply not_true_iff_false. intros [x [Hin E]]%existsb_exists.
    apply String.eqb_eq in E. now subst.
Qed.

(** C7, amended: the question words are the whitespace-delimited tokens of
    the lower-cased question, punctuation included, that are longer than 3
    and no stop word; a sentence scores one point per question word it
    contains, case-insensitively; the ranking holds every sentence once,
    in descending score, sentences of equal score in document order; the
    answer is the first three of that ranking; a sentence that contains
    one of the question words comes before every sentence that contains
    none. *)
Theorem extractive_answer_ranking (documentContent question : string) :
  (forall w, In w (questionWords question) <->
             In w (splitWs (toLowerCase question))
             /\ 3 < String.length w /\ ~ In w stopWords)
  /\ (forall s,
        score (scoreSentence (questionWords question) s)
        = List.length (filter (fun w => includes (toLowerCase s) w)
                              (questionWords question)))
  /\ Permutation (ranked documentContent question)
       (map (scoreSentence (questionWords question))
            (docSentences documentContent))
  /\ StronglySorted descending (ranked documentContent question)
  /\ (forall k,
        filter (hasScore k) (ranked documentContent question)
        = filter (hasScore k)
            (map (scoreSentence (questionWords question))
                 (docSentences documentContent)))
  /\ generateExtractiveAnswer documentContent question
     = ((match docSentences documentContent with
         | [] => noAnswerFraming
         | _ :: _ => answerFraming
         end)
        ++ join blankLine
             (map (fun item => trim (sentence item))
                  (firstn 3 (ranked documentContent question))))%string
  /\ (forall i j a b,
        nth_error (ranked documentContent question) i = Some a ->
        nth_error (ranked documentContent question) j = Some b ->
        containsKeyword question (sentence a) = true ->
        containsKeyword question (sentence b) = false ->
        i < j).
Proof.
  split; [|split; [|split; [|split; [|split; [|split]]]]].
  - intro w. unfold questionWords. rewrite filter_In, andb_true_iff.
    rewrite Nat.ltb_lt, negb_true_iff, not_stop_word. tauto.
  - apply score_count.
  - apply sort_perm.
  - apply sort_sorted.
  - intro k. apply sort_stable.
  - destruct (docSentences documentContent) eqn:E.
    + unfold generateExtractiveAnswer, ranked. now rewrite E.
    + apply answer_from_ranking. now rewrite E.
  - intros i j a b Ha Hb Ka Kb.
    destruct (ranked_items _ _ a (nth_error_In _ _ Ha)) as [Ea _].
    destruct (ranked_items _ _ b (nth_error_In _ _ Hb)) as [Eb _].
    rewrite score_keyword, <- Ea in Ka. rewrite score_keyword, <- Eb in Kb.
    apply Nat.ltb_lt in Ka. apply Nat.ltb_ge in Kb.
    destruct (Nat.lt_trichotomy i j) as [Hlt|[Heq|Hgt]]; [exact Hlt| |].
    + subst j. rewrite Ha in Hb. inversion Hb; subst. lia.
    + pose proof (sorted_positions _ _ _ _ _
                    (sort_sorted _) Hb Ha Hgt) as Hle. lia.
Qed.

Lemma extractive_answer_ranking_witness :
  nth_error (ranked sampleDocument "What penalty applies here") 0
  = Some (mkScored " The penalty is ten dollars" 1)
  /\ nth_error (ranked sampleDocument "What penalty applies here") 1
     = Some (mkScored "Alpha beta" 0)
  /\ 0 < 1.
Proof.
  destruct (extractive_answer_ranking sampleDocument
              "What penalty applies here") as (_ & _ & _ & _ & _ & _ & H7).
  repeat split.
  apply (H7 0 1 (mkScored " The penalty is ten dollars" 1)
            (mkScored "Alpha beta" 0)); reflexivity.
Defined.

(** C7, as stated, fails on the question "What is the penalty?": the
    question word kept is "penalty?", with its question mark, and no
    sentence holds a question mark.  The sentence with "penalty" scores
    nothing, stays fourth behind three sentences without the word, and is
    not in the answer. *)
Lemma penalty_sentence_ranks_behind :
  questionWords "What is the penalty?" = ["penalty?"]
  /\ map sentence (ranked sampleDocument "What is the penalty?")
     = ["Alpha beta"; " Gamma delta"; " Epsilon zeta";
        " The penalty is ten dollars"; " Iota kappa"]
  /\ map (fun item => includes (toLowerCase (sentence item)) "penalty")
         (ranked sampleDocument "What is the penalty?")
     = [false; false; false; true; false]
  /\ generateExtractiveAnswer sampleDocument "What is the penalty?"
     = (answerFraming ++ "Alpha beta" ++ blankLine ++ "Gamma delta"
        ++ blankLine ++ "Epsilon zeta")%string
  /\ ~ (forall i j a b,
          nth_error (ranked sampleDocument "What is the penalty?") i
          = Some a ->
          nth_error (ranked sampleDocument "What is the penalty?") j
          = Some b ->
          includes (toLowerCase (sentence a)) "penalty" = true ->
          includes (toLowerCase (sentence b)) "penalty" = false ->
          i < j).
Proof.
  split; [|split; [|split; [|split]]]; try (vm_compute; reflexivity).
  intro H.
  specialize (H 3 0 (mkScored " The penalty is ten dollars" 0)
                (mkScored "Alpha beta" 0)
                eq_refl eq_refl eq_refl eq_refl).
  lia.
Qed.

(** C3: the code against the claim.  No sentence of the document scores
    against "What is the penalty?" (the question word kept is "penalty?"),
    yet the route answers with the first three sentences behind the "found
    this information" framing; the first, middle and last sentence behind
    the "no confident answer" framing are what the claim describes. *)
Theorem zero_score_takes_ranking_path :
  forallb (hasScore 0) (ranked plainDocument "What is the penalty?") = true
  /\ generateExtractiveAnswer plainDocument "What is the penalty?"
     = (answerFraming ++ "Alpha beta" ++ blankLine ++ "Gamma delta"
        ++ blankLine ++ "Epsilon zeta")%string
  /\ zeroScoreAnswer plainDocument
     = (noAnswerFraming ++ "Alpha beta" ++ blankLine ++ "Epsilon zeta"
        ++ blankLine ++ "Iota kappa")%string.
Proof.
  repeat split; vm_compute; reflexivity.
Qed.

(** *** The route *)

Lemma saved_exchange (env : Env) (req : Request) (q answer : string)
  (isFallback : bool) (h : History) :
  let stored :=
    ((if isFallback then "[Fallback Answer] " else "") ++ answer)%string in
  (exists k,
     saveQuestionAndAnswer env req q answer (documentName req)
                           (fingerprint req) isFallback h
     = h ++ firstn k (exchange req q stored))
  /\ (storeUp env ->
      saveQuestionAndAnswer env req q answer (documentName req)
                            (fingerprint req) isFallback h
      = h ++ exchange req q stored).
Proof.
  cbn zeta. unfold saveQuestionAndAnswer, saveMessage, exchange. split.
  - destruct (connectToDatabaseOk env); cbn [negb];
      [|exists 0; cbn; now rewrite app_nil_r].
    destruct (saveMessageOk env h _);
      [|exists 0; cbn; now rewrite app_nil_r].
    destruct (saveMessageOk env (h ++ _) _).
    + exists 2. cbn. now rewrite <- app_assoc.
    + exists 1. reflexivity.
  - intros [Hc Hs]. rewrite Hc, !Hs. cbn. now rewrite <- app_assoc.
Qed.

Lemma POST_resolved (env : Env) (req : Request) (h : History)
  (q actual : string) :
  question req = Some q -> q <> "" -> resolveContent env req = inl actual ->
  POST env req h
  = match askServer env req q actual h with
    | Returned r h' => (r, h')
    | Thrown =>
        match fallbackAnswer env req q h with
        | Returned r h' => (r, h')
        | Thrown => (failure500, h)
        end
    end.
Proof.
  intros Hq Hne Hres. unfold POST. rewrite Hq, Hres.
  destruct q; [congruence | reflexivity].
Qed.

(** The fallback only has the inline content to work on: for a document
    that was resolved by its fingerprint the route fails. *)
Lemma POST_fallback_without_inline_content (env : Env) (req : Request)
  (h : History) (q actual : string) :
  question req = Some q -> q <> "" -> resolveContent env req = inl actual ->
  askServer env req q actual h = Thrown ->
  documentContent req = None ->
  POST env req h = (failure500, h).
Proof.
  intros Hq Hne Hres Hask Hdoc.
  rewrite (POST_resolved env req h q actual) by assumption.
  rewrite Hask. unfold fallbackAnswer. now rewrite Hdoc.
Qed.

(** C2: the code against the claim.  The document is stored and found by
    its fingerprint, the inference server is down: the route answers 500
    and no fallback answer.  With the same document inline it answers
    200. *)
Theorem fallback_fails_for_fetched_content :
  resolveContent serverDown askByFingerprint = inl sampleDocument
  /\ POST serverDown askByFingerprint [] = (failure500, [])
  /\ status (fst (POST serverDown askInline [])) = 200.
Proof.
  repeat split; vm_compute; reflexivity.
Qed.

Lemma length_append (s t : string) :
  String.length (s ++ t) = String.length s + String.length t.
Proof.
  induction s as [|c s IH]; cbn; [reflexivity | now rewrite IH].
Qed.

Lemma prefixed_differs (answer : string) :
  ("[Fallback Answer] " ++ answer)%string <> answer.
Proof.
  intro E. apply (f_equal String.length) in E.
  rewrite length_append in E. cbn in E. lia.
Qed.

(** The exchanges of a bulk answer, one after the other. *)
Lemma saved_bulk (env : Env) (req : Request)
  (answers : list (string * string)) (h : History) :
  storeUp env ->
  fold_left
    (fun h' qa =>
       saveQuestionAndAnswer env req (fst qa) (snd qa) (documentName req)
                             (fingerprint req) false h')
    answers h
  = h ++ flat_map (fun qa => exchange req (fst qa) (snd qa)) answers.
Proof.
  intro Hup. revert h. induction answers as [|qa answers IH]; intro h.
  - cbn. now rewrite app_nil_r.
  - cbn [fold_left flat_map].
    destruct (saved_exchange env req (fst qa) (snd qa) false h) as [_ Hs].
    rewrite (Hs Hup), IH. cbn [append]. now rewrite <- app_assoc.
Qed.

(** C10: on the fallback path the route returns the extractive answer and
    stores it behind ["[Fallback Answer] "], so what the history holds is
    not the text the caller got; when the server answers, the stored
    answer is the returned one.  What is stored is, in order, the question
    and then the answer, as far as the writes go through. *)
Theorem stored_answer_prefix (env : Env) (req : Request) (h : History)
  (q actual : string) :
  question req = Some q -> q <> "" -> resolveContent env req = inl actual ->
  (forall content,
     documentContent req = Some content ->
     askServer env req q actual h = Thrown ->
     fst (POST env req h)
     = ok200 (AnswerBody q (generateExtractiveAnswer content q)
                (documentName req) (fingerprint req) (Some fallbackNote))
     /\ (exists k,
           snd (POST env req h)
           = h ++ firstn k
                    (exchange req q
                       ("[Fallback Answer] "
                        ++ generateExtractiveAnswer content q)%string))
     /\ (storeUp env ->
         snd (POST env req h)
         = h ++ exchange req q
                  ("[Fallback Answer] "
                   ++ generateExtractiveAnswer content q)%string)
     /\ ("[Fallback Answer] " ++ generateExtractiveAnswer content q)%string
        <> generateExtractiveAnswer content q)
  /\ (forall answer,
        q <> "all" ->
        qaAnswer env actual q = Some answer ->
        fst (POST env req h)
        = ok200 (AnswerBody q answer (documentName req) (fingerprint req)
                            None)
        /\ (exists k,
              snd (POST env req h) = h ++ firstn k (exchange req q answer))
        /\ (storeUp env -> snd (POST env req h) = h ++ exchange req q answer))
  /\ (forall answers,
        q = "all" ->
        qaBulk env (documentContent req) = Some answers ->
        fst (POST env req h)
        = ok200 (BulkBody answers (documentName req) (fingerprint req))
        /\ (storeUp env ->
            snd (POST env req h)
            = h ++ flat_map (fun qa => exchange req (fst qa) (snd qa))
                            answers)).
Proof.
  intros Hq Hne Hres.
  rewrite (POST_resolved env req h q actual) by assumption.
  split; [|split].
  - intros content Hdoc Hask. rewrite Hask.
    unfold fallbackAnswer. rewrite Hdoc. cbn [fst snd].
    destruct (saved_exchange env req q (generateExtractiveAnswer content q)
                             true h) as [Hk Hs].
    repeat split; [exact Hk | exact Hs | apply prefixed_differs].
  - intros answer Hall Hans. unfold askServer.
    apply String.eqb_neq in Hall. rewrite Hall, Hans. cbn [negb fst snd].
    destruct (saved_exchange env req q answer false h) as [Hk Hs].
    repeat split; [exact Hk | exact Hs].
  - intros answers Hall Hbulk. unfold askServer.
    apply String.eqb_eq in Hall. rewrite Hall, Hbulk. cbn [negb fst snd].
    split; [reflexivity|]. now apply saved_bulk.
Qed.

Lemma stored_answer_prefix_witness :
  snd (POST serverDown askInline [])
  = [] ++ exchange askInline "What penalty applies here"
            ("[Fallback Answer] "
             ++ generateExtractiveAnswer sampleDocument
                  "What penalty applies here")%string
  /\ snd (POST serverUp askInline [])
     = [] ++ exchange askInline "What penalty applies here" "Ten dollars.".
Proof.
  split.
  - destruct (stored_answer_prefix serverDown askInline []
                "What penalty applies here" sampleDocument)
      as (Hfb & _ & _); [reflexivity | discriminate | reflexivity |].
    destruct (Hfb sampleDocument) as (_ & _ & Hs & _);
      [reflexivity | reflexivity |].
    apply Hs. split; reflexivity.
  - destruct (stored_answer_prefix serverUp askInline []
                "What penalty applies here" sampleDocument)
      as (_ & Hok & _); [reflexivity | discriminate | reflexivity |].
    destruct (Hok "Ten dollars.") as (_ & _ & Hs);
      [discriminate | reflexivity |].
    apply Hs. split; reflexivity.
Defined.

End QAFacts.

(** ** Stored documents *)

Module FirestoreFacts.

Import Firestore.

(** The query of [saveDocument] reads the records of the pair. *)
Lemma recordsFor_query (d : DocInput) (docs : Collection DocumentData) :
  recordsFor (userId d) (fingerprint d) docs = filter (matches d) docs.
Proof. reflexivity. Qed.

(** The update leaves owner and fingerprint alone, so it commutes with the
    query. *)
Lemma filter_touch (d : DocInput) (ref : string) (now : Timestamp)
  (docs : Collection DocumentData) :
  filter (matches d) (touch ref now docs)
  = touch ref now (filter (matches d) docs).
Proof.
  induction docs as [|e docs IH]; [reflexivity|].
  cbn [touch map filter]. fold (touch ref now docs).
  replace (matches d (if String.eqb (fst e) ref
                      then (fst e, mkDocumentData (input (snd e))
                                     (uploadedAt (snd e)) now)
                      else e))
    with (matches d e) by (now destruct (String.eqb (fst e) ref)).
  destruct (matches d e); cbn [touch map]; now rewrite IH.
Qed.

Lemma touch_length (ref : string) (now : Timestamp)
  (docs : Collection DocumentData) :
  List.length (touch ref now docs) = List.length docs.
Proof. apply length_map. Qed.

Lemma pair_of_matches (d : DocInput) (owner fp : string)
  (e : string * DocumentData) :
  matches d e = true -> matches (mkDocInput owner fp "" 0) e = true ->
  owner = userId d /\ fp = fingerprint d.
Proof.
  unfold matches. cbn [userId fingerprint].
  intros [H1 H2]%andb_true_iff [H3 H4]%andb_true_iff.
  apply String.eqb_eq in H1, H2, H3, H4. split; congruence.
Qed.

(** [saveDocument] keeps the invariant, whatever the call meets. *)
Lemma saveDocument_keeps_uniquePairs (env : Env) (d : DocInput)
  (docs : Collection DocumentData) :
  uniquePairs docs -> uniquePairs (fst (saveDocument env d docs)).
Proof.
  intro Hinv. unfold saveDocument.
  destruct (isAvailable env); cbn [negb]; [|exact Hinv].
  destruct (getDocsOk env); cbn [negb]; [|exact Hinv].
  destruct (filter (matches d) docs) as [|docDoc rest] eqn:Eq;
    (destruct (writeOk env); [|exact Hinv]); cbn [fst]; intros owner fp.
  - unfold recordsFor. rewrite filter_app, length_app.
    cbn [filter].
    destruct (matches (mkDocInput owner fp "" 0)
                      (newId env, _)) eqn:Em; cbn [List.length].
    + assert (Hd : matches d (newId env,
                              mkDocumentData d (serverTimestamp env)
                                             (serverTimestamp env)) = true).
      { unfold matches. cbn [snd input]. now rewrite !String.eqb_refl. }
      destruct (pair_of_matches _ _ _ _ Hd Em) as [-> ->].
      fold (recordsFor (userId d) (fingerprint d) docs).
      rewrite recordsFor_query, Eq. cbn. lia.
    + specialize (Hinv owner fp). unfold recordsFor in Hinv. lia.
  - unfold recordsFor. rewrite filter_touch, touch_length. apply Hinv.
Qed.

(** After a save that went through, the pair has its one record, accessed
    at the time of the save. *)
Lemma saveDocument_record (env : Env) (d : DocInput)
  (docs : Collection DocumentData) :
  uniquePairs docs -> reachable env ->
  exists ref rec,
    recordsFor (userId d) (fingerprint d) (fst (saveDocument env d docs))
    = [(ref, rec)]
    /\ lastAccessedAt rec = serverTimestamp env
    /\ (forall old,
          recordsFor (userId d) (fingerprint d) docs = [(ref, old)] ->
          input rec = input old /\ uploadedAt rec = uploadedAt old
          /\ List.length (fst (saveDocument env d docs)) = List.length docs).
Proof.
  intros Hinv (Ha & Hg & Hw). unfold saveDocument. rewrite Ha, Hg, Hw.
  cbn [negb]. specialize (Hinv (userId d) (fingerprint d)).
  rewrite !recordsFor_query in *.
  destruct (filter (matches d) docs) as [|[ref old] rest] eqn:Eq; cbn [fst].
  - exists (newId env),
      (mkDocumentData d (serverTimestamp env) (serverTimestamp env)).
    rewrite filter_app, Eq. cbn [filter app]. unfold matches.
    cbn [snd input]. rewrite !String.eqb_refl.
    cbn [andb lastAccessedAt]. repeat split; discriminate.
  - destruct rest; [|cbn in Hinv; lia].
    exists ref, (mkDocumentData (input old) (uploadedAt old)
                                (serverTimestamp env)).
    rewrite filter_touch, Eq. cbn [touch map fst snd].
    rewrite String.eqb_refl.
    repeat split; inversion H; subst; try reflexivity.
    apply touch_length.
Qed.

(** C8: in a collection where every (owner, fingerprint) pair is stored at
    most once, two saves of the same pair that go through, the second at a
    server time not before the first, keep that invariant and leave one
    record for the pair: the second save inserts nothing, it sets the
    last-accessed-at of the record of the first to the later time and
    changes nothing else of it. *)
Theorem saveDocument_twice (env1 env2 : Env) (d : DocInput)
  (docs : Collection DocumentData) :
  uniquePairs docs -> reachable env1 -> reachable env2 ->
  serverTimestamp env1 <= serverTimestamp env2 ->
  let docs1 := fst (saveDocument env1 d docs) in
  let docs2 := fst (saveDocument env2 d docs1) in
  uniquePairs docs1 /\ uniquePairs docs2
  /\ List.length docs2 = List.length docs1
  /\ exists ref rec1 rec2,
       recordsFor (userId d) (fingerprint d) docs1 = [(ref, rec1)]
       /\ recordsFor (userId d) (fingerprint d) docs2 = [(ref, rec2)]
       /\ lastAccessedAt rec1 = serverTimestamp env1
       /\ lastAccessedAt rec2 = serverTimestamp env2
       /\ lastAccessedAt rec1 <= lastAccessedAt rec2
       /\ input rec2 = input rec1
       /\ uploadedAt rec2 = uploadedAt rec1.
Proof.
  intros Hinv H1 H2 Htime docs1 docs2.
  assert (Hinv1 : uniquePairs docs1)
    by now apply saveDocument_keeps_uniquePairs.
  assert (Hinv2 : uniquePairs docs2)
    by now apply saveDocument_keeps_uniquePairs.
  destruct (saveDocument_record env1 d docs Hinv H1)
    as (ref & rec1 & Hr1 & Ht1 & _).
  destruct (saveDocument_record env2 d docs1 Hinv1 H2)
    as (ref2 & rec2 & Hr2 & Ht2 & Hold).
  fold docs1 in Hr1. fold docs2 in Hr2, Hold.
  assert (ref2 = ref) as ->.
  { destruct H2 as (Ha & Hg & Hw).
    unfold docs2, saveDocument in Hr2. rewrite Ha, Hg, Hw in Hr2.
    cbn [negb] in Hr2. rewrite recordsFor_query in Hr1, Hr2.
    rewrite Hr1 in Hr2.
    cbn [fst] in Hr2. rewrite filter_touch, Hr1 in Hr2.
    cbn [touch map fst snd] in Hr2. rewrite String.eqb_refl in Hr2.
    now inversion Hr2. }
  destruct (Hold rec1 Hr1) as (Hin & Hup & Hlen).
  repeat split; try assumption.
  exists ref, rec1, rec2. repeat split; try assumption. lia.
Qed.

Lemma saveDocument_twice_witness :
  List.length (fst (saveDocument secondCall annLease
                      (fst (saveDocument firstCall annLease sampleDocs))))
  = List.length (fst (saveDocument firstCall annLease sampleDocs)).
Proof.
  apply (saveDocument_twice firstCall secondCall annLease sampleDocs).
  - intros owner fp. unfold recordsFor, sampleDocs. cbn [filter].
    destruct (matches _ _); cbn; lia.
  - repeat split.
  - repeat split.
  - cbn. lia.
Defined.

End FirestoreFacts.

(** ** Deleting through the data service *)

Module DataServiceFacts.

Import DataService.

(** Both delete operations: each provider the configuration selects is
    called, and the result is the disjunction of what they report. *)
Lemma deleteVia_or {F M : Type} (cfg : Config)
  (firebaseOp : string -> F -> F * bool) (mongoOp : string -> M -> M * bool)
  (ref : string) (st : F * M) :
  deleteVia cfg firebaseOp mongoOp ref st
  = ((if triesFirebase cfg then fst (firebaseOp ref (fst st)) else fst st,
      if triesMongo cfg then fst (mongoOp ref (snd st)) else snd st),
     (triesFirebase cfg && snd (firebaseOp ref (fst st)))
     || (triesMongo cfg && snd (mongoOp ref (snd st)))).
Proof.
  unfold deleteVia.
  destruct (triesFirebase cfg), (triesMongo cfg);
    destruct (firebaseOp ref (fst st)) as [f [|]],
             (mongoOp ref (snd st)) as [m [|]]; reflexivity.
Qed.

(** C9: [chats.delete] and [users.delete] answer [true] as soon as one of
    the providers they call reports a successful delete; in particular
    when Firestore reports a failure and the second store a success. *)
Theorem delete_reports_any_success {F M : Type} (cfg : Config)
  (primary : Provider F) (secondary : Provider M) (ref : string)
  (st : F * M) :
  snd (chats_delete cfg primary secondary ref st)
  = (triesFirebase cfg && snd (deleteChatHistory primary ref (fst st)))
    || (triesMongo cfg && snd (deleteChatHistory secondary ref (snd st)))
  /\ snd (users_delete cfg primary secondary ref st)
     = (triesFirebase cfg && snd (deleteUser primary ref (fst st)))
       || (triesMongo cfg && snd (deleteUser secondary ref (snd st)))
  /\ (triesFirebase cfg = true -> triesMongo cfg = true ->
      snd (deleteChatHistory primary ref (fst st)) = false ->
      snd (deleteChatHistory secondary ref (snd st)) = true ->
      snd (chats_delete cfg primary secondary ref st) = true).
Proof.
  unfold chats_delete, users_delete. rewrite !deleteVia_or. cbn [snd].
  repeat split. intros -> -> -> ->. reflexivity.
Qed.

Lemma delete_reports_any_success_witness :
  snd (chats_delete dualMode (firebaseOps firestoreDown) listStore "chat1"
                    (emptyDb, ["chat0"; "chat1"]))
  = true.
Proof.
  apply (delete_reports_any_success dualMode (firebaseOps firestoreDown)
           listStore "chat1" (emptyDb, ["chat0"; "chat1"]));
    reflexivity.
Defined.

(** With the placeholders the source has for its second store, which never
    report a success, the answer is Firestore's. *)
Lemma delete_with_placeholders (cfg : Config) (env : Firestore.Env)
  (chatId : string) (st : Firestore.Db * unit) :
  snd (chats_delete cfg (firebaseOps env) mongoOps chatId st)
  = triesFirebase cfg
    && snd (Firestore.deleteChatHistory env chatId (fst st)).
Proof.
  unfold chats_delete. rewrite deleteVia_or. cbn.
  now rewrite andb_false_r, orb_false_r.
Qed.

End DataServiceFacts.

(** ** More on chunking and on the extractive summary *)

Module ChunkFacts.

Import Js JsFacts Summarize SummarizeFacts SummarizeRoute.

Lemma join_consHead (c : ascii) (l : list string) :
  l <> [] -> join ". " (consHead c l) = String c (join ". " l).
Proof.
  destruct l as [|p [|q l]]; [congruence | reflexivity | reflexivity].
Qed.

(** Joining the sentences of a text gives the text back. *)
Lemma join_split (text : string) : join ". " (split ". " text) = text.
Proof.
  induction text using scan_ind.
  - reflexivity.
  - rewrite split_at_sep.
    pose proof (split_nonempty text) as Hne.
    destruct (split ". " text) as [|p l] eqn:E; [congruence|].
    rewrite join_cons2. cbn [append]. now rewrite IHtext.
  - rewrite split_step by assumption.
    rewrite join_consHead by apply split_nonempty. now rewrite IHtext.
Qed.

Lemma groupWords_cons (s : string) (g : list string) :
  groupWords (s :: g) = sentenceLength s + groupWords g.
Proof. reflexivity. Qed.

Lemma groupWords_app (g1 g2 : list string) :
  groupWords (g1 ++ g2) = groupWords g1 + groupWords g2.
Proof.
  unfold groupWords. now rewrite map_app, list_sum_app.
Qed.

Section Groups.

Variable maxChunkLength : nat.

(** Sentences that fit together with what is open stay in one group. *)
Lemma groupsFrom_fits (sentences cur : list string) (len : nat) :
  cur ++ sentences <> [] ->
  len + groupWords sentences <= maxChunkLength ->
  groupsFrom maxChunkLength cur len sentences = [cur ++ sentences].
Proof.
  revert cur len. induction sentences as [|s rest IH];
    intros cur len Hne Hfit; cbn [groupsFrom].
  - rewrite app_nil_r in *. destruct cur; [congruence | reflexivity].
  - rewrite groupWords_cons in Hfit.
    replace (maxChunkLength <? len + sentenceLength s) with false
      by (symmetry; apply Nat.ltb_ge; lia).
    rewrite IH.
    + now rewrite <- app_assoc.
    + now destruct cur.
    + lia.
Qed.

(** A group the loop closes is within the limit, or is one sentence. *)
Lemma groupsFrom_bounded (sentences cur : list string) (len : nat) :
  len = groupWords cur ->
  groupWords cur <= maxChunkLength \/ List.length cur <= 1 ->
  Forall (fun g => groupWords g <= maxChunkLength \/ List.length g <= 1)
         (groupsFrom maxChunkLength cur len sentences).
Proof.
  revert cur len. induction sentences as [|s rest IH];
    intros cur len Hlen Hcur; cbn [groupsFrom].
  - destruct (0 <? List.length cur);
      [constructor; [exact Hcur | constructor] | constructor].
  - destruct (maxChunkLength <? len + sentenceLength s) eqn:E.
    + constructor; [exact Hcur|]. apply IH.
      * unfold groupWords. cbn. lia.
      * right. cbn. lia.
    + apply Nat.ltb_ge in E.
      assert (Hw : groupWords (cur ++ [s]) = len + sentenceLength s).
      { rewrite groupWords_app, groupWords_cons. unfold groupWords at 2.
        cbn. lia. }
      apply IH; [now rewrite Hw | left; lia].
Qed.

End Groups.

(** X1: a text whose sentences fit the limit together is one segment, the
    text with a full stop at its end. *)
Theorem chunkText_short_text (text : string) (maxChunkLength : nat) :
  groupWords (split ". " text) <= maxChunkLength ->
  chunkText text maxChunkLength = [(text ++ ".")%string].
Proof.
  intro Hfit. rewrite chunkText_groups, groupsFrom_fits.
  - cbn [app map]. unfold render. now rewrite join_split.
  - apply split_nonempty.
  - exact Hfit.
Qed.

Lemma chunkText_short_text_witness :
  chunkText "One two. Three four" 10 = ["One two. Three four."].
Proof.
  apply (chunkText_short_text "One two. Three four" 10).
  apply Nat.leb_le. vm_compute. reflexivity.
Defined.

(** X2: the segments are the sentences of the text, in order, grouped; a
    group of two sentences or more is within the limit. *)
Theorem chunkText_bounded (text : string) (maxChunkLength : nat) :
  exists groups,
    chunkText text maxChunkLength = map render groups
    /\ concat groups = split ". " text
    /\ Forall (fun g => groupWords g <= maxChunkLength
                        \/ List.length g <= 1) groups.
Proof.
  exists (groupsFrom maxChunkLength [] 0 (split ". " text)).
  split; [apply chunkText_groups|]. split; [apply groupsFrom_concat|].
  apply groupsFrom_bounded; [reflexivity | left; cbn; lia].
Qed.

(** X3: [chunkText] gives at least one segment, and every segment ends in
    a full stop. *)
Theorem chunkText_segments (text : string) (maxChunkLength : nat) :
  chunkText text maxChunkLength <> []
  /\ Forall (fun segment => exists body, segment = (body ++ ".")%string)
            (chunkText text maxChunkLength).
Proof.
  rewrite chunkText_groups. split.
  - intro E. apply map_eq_nil in E.
    pose proof (groupsFrom_concat maxChunkLength (split ". " text) [] 0) as H.
    rewrite E in H. cbn in H. symmetry in H.
    now apply split_nonempty in H.
  - apply Forall_forall. intros segment [g [<- _]]%in_map_iff.
    now exists (join ". " g).
Qed.

Lemma promiseAll_length (remote : string -> option string)
  (cs summaries : list string) :
  promiseAll remote cs = Some summaries ->
  List.length summaries = List.length cs.
Proof.
  revert summaries. induction cs as [|c cs IH]; intros summaries H; cbn in H.
  - now inversion H.
  - destruct (remote c); [|discriminate].
    destruct (promiseAll remote cs) as [ss|]; [|discriminate].
    inversion H; subst. cbn. now rewrite (IH ss).
Qed.

(** X4: whatever the server does, [summarizeChunks] gives one summary per
    chunk. *)
Theorem summarizeChunks_length (remote : string -> option string)
  (cs : list string) :
  List.length (summarizeChunks remote cs) = List.length cs.
Proof.
  unfold summarizeChunks.
  destruct (promiseAll remote cs) as [ss|] eqn:E.
  - now apply promiseAll_length with remote.
  - apply length_map.
Qed.

Lemma join_length (l : list string) :
  String.length (join ". " l)
  = list_sum (map String.length l) + 2 * (List.length l - 1).
Proof.
  induction l as [|p [|q l] IH]; [reflexivity | cbn; lia |].
  rewrite join_cons2, !QAFacts.length_append, IH.
  unfold list_sum. cbn [map fold_right List.length String.length]. lia.
Qed.

Lemma nth_length_le (l : list string) (i : nat) :
  String.length (nth i l "") <= list_sum (map String.length l).
Proof.
  unfold list_sum. revert i. induction l as [|p l IH]; intro i.
  - destruct i; cbn; lia.
  - destruct i; cbn [nth map fold_right]; [lia|]. specialize (IH i). lia.
Qed.

(** X5: the extractive summary of a chunk is never longer than the
    chunk. *)
Theorem fallbackSummary_not_longer (chunk : string) :
  String.length (fallbackSummary chunk) <= String.length chunk.
Proof.
  unfold fallbackSummary.
  destruct (List.length (split ". " chunk) <=? 2) eqn:E; [lia|].
  apply Nat.leb_gt in E.
  rewrite <- (join_split chunk) at 4. rewrite join_length.
  destruct (split ". " chunk) as [|s0 rest]; [cbn in E; lia|].
  cbn [List.length] in *.
  assert (Hmid : exists m, S (List.length rest) / 2 = S m)
    by (destruct (S (List.length rest) / 2) eqn:D;
        [apply Nat.div_small_iff in D; lia | eauto]).
  destruct Hmid as [m ->]. cbn [nth map].
  rewrite !QAFacts.length_append. cbn [String.length].
  pose proof (nth_length_le rest m) as Hm.
  unfold list_sum in *. cbn [fold_right]. lia.
Qed.

Lemma noSep_dot (p : string) : noSep p -> noSep (p ++ ".").
Proof.
  unfold noSep. induction p as [|c p IH]; intro H; [reflexivity|].
  cbn [append]. rewrite includes_cons in *.
  apply orb_false_iff in H as [H1 H2]. apply orb_false_iff. split.
  - rewrite prefix_sep in *. destruct p; [|exact H1].
    apply andb_false_iff. now right.
  - now apply IH.
Qed.

Lemma fallbackSummary_two (first middle : string) :
  noSep first -> noSep middle ->
  fallbackSummary (first ++ ". " ++ middle ++ ".")
  = (first ++ ". " ++ middle ++ ".")%string.
Proof.
  intros Hf Hm. unfold fallbackSummary. cbn [append].
  rewrite split_sentence_then by exact Hf.
  rewrite (split_whole (middle ++ ".")) by (now apply noSep_dot).
  reflexivity.
Qed.

(** X6: summarising an extractive summary again changes nothing. *)
Theorem fallbackSummary_idempotent (chunk : string) :
  fallbackSummary (fallbackSummary chunk) = fallbackSummary chunk.
Proof.
  assert (H : fallbackSummary chunk = chunk
              \/ exists first middle,
                   noSep first /\ noSep middle
                   /\ fallbackSummary chunk
                      = (first ++ ". " ++ middle ++ ".")%string).
  { unfold fallbackSummary.
    destruct (List.length (split ". " chunk) <=? 2) eqn:E; [now left|].
    apply Nat.leb_gt in E. right.
    pose proof (split_pieces chunk) as Hall. rewrite Forall_forall in Hall.
    eexists _, _. split; [|split; [|reflexivity]].
    - apply Hall, nth_In. lia.
    - apply Hall, nth_In. apply Nat.div_lt; lia. }
  destruct H as [H | (first & middle & Hf & Hm & H)].
  - now rewrite !H.
  - rewrite H. now apply fallbackSummary_two.
Qed.

End ChunkFacts.

(** ** More on the question-answering route *)

Module RouteFacts.

Import Js QA QAFacts Transcript.

(** *** Pieces of a split hold no separator *)

Lemma hasChar_consHead (class : ascii -> bool) (c : ascii)
  (l : list string) :
  class c = false ->
  Forall (fun p => hasChar class p = false) l ->
  Forall (fun p => hasChar class p = false) (consHead c l).
Proof.
  intros Hc Hl. destruct l as [|p l]; cbn.
  - constructor; [cbn; now rewrite Hc | constructor].
  - inversion Hl; subst. constructor; [cbn; now rewrite Hc | assumption].
Qed.

Lemma splitRuns_pieces (isSep : ascii -> bool) (inRun : bool) (s : string) :
  Forall (fun p => hasChar isSep p = false) (splitRuns isSep inRun s).
Proof.
  revert inRun. induction s as [|c s IH]; intro inRun; cbn [splitRuns].
  - repeat constructor.
  - destruct (isSep c) eqn:E.
    + destruct inRun; [apply IH | constructor; [reflexivity | apply IH]].
    + apply hasChar_consHead; [exact E | apply IH].
Qed.

Lemma lowerChar_terminator (c : ascii) :
  isTerminator (lowerChar c) = isTerminator c.
Proof.
  destruct c as [[] [] [] [] [] [] [] []]; reflexivity.
Qed.

Lemma toLowerCase_terminators (s : string) :
  hasChar isTerminator (toLowerCase s) = hasChar isTerminator s.
Proof.
  induction s as [|c s IH]; [reflexivity|].
  cbn. now rewrite lowerChar_terminator, IH.
Qed.

Lemma prefix_hasChar (class : ascii -> bool) (w s : string) :
  prefix w s = true -> hasChar class w = true -> hasChar class s = true.
Proof.
  revert s. induction w as [|a w IH]; intros s Hp Hw; [discriminate|].
  destruct s as [|b s]; [discriminate|].
  rewrite JsFacts.prefix_cons in Hp. apply andb_true_iff in Hp as [Hab Hp].
  apply Ascii.eqb_eq in Hab. subst b. cbn in *.
  destruct (class a); [reflexivity|]. now apply IH.
Qed.

Lemma includes_hasChar (class : ascii -> bool) (s w : string) :
  includes s w = true -> hasChar class w = true -> hasChar class s = true.
Proof.
  induction s as [|c s IH]; intros Hi Hw.
  - cbn in Hi. rewrite orb_false_r in Hi. now apply prefix_hasChar with w.
  - rewrite JsFacts.includes_cons in Hi. apply orb_true_iff in Hi as [Hi|Hi].
    + now apply prefix_hasChar with w.
    + cbn. rewrite (IH Hi Hw). apply orb_true_r.
Qed.

(** X7: a sentence of the document holds no [.], [!] or [?], so a question
    word that holds one (the last word of a question that ends in a
    question mark) matches no sentence. *)
Theorem punctuated_word_never_matches (documentContent w s : string) :
  In s (docSentences documentContent) ->
  hasChar isTerminator w = true ->
  hasChar isTerminator s = false
  /\ includes (toLowerCase s) w = false.
Proof.
  intros Hs Hw.
  assert (Hclean : hasChar isTerminator s = false).
  { unfold docSentences in Hs. apply filter_In in Hs as [Hs _].
    pose proof (splitRuns_pieces isTerminator false documentContent) as H.
    rewrite Forall_forall in H. now apply H. }
  split; [exact Hclean|].
  destruct (includes (toLowerCase s) w) eqn:E; [|reflexivity].
  pose proof (includes_hasChar isTerminator _ _ E Hw) as H.
  rewrite toLowerCase_terminators in H. congruence.
Qed.

Lemma punctuated_word_never_matches_witness :
  hasChar isTerminator " The penalty is ten dollars" = false
  /\ includes (toLowerCase " The penalty is ten dollars") "penalty?" = false.
Proof.
  apply (punctuated_word_never_matches sampleDocument "penalty?"
           " The penalty is ten dollars").
  - vm_compute. tauto.
  - reflexivity.
Defined.

(** *** The caller's identity *)

(** X8: [getUserIdFromRequest] never gives the empty string; the session's
    e-mail comes first; a request without any identity is
    [anonymous@talqs.com]. *)
Theorem getUserIdFromRequest_spec (req : Request) :
  0 < String.length (getUserIdFromRequest req)
  /\ (truthy (sessionEmail req) = true ->
      getUserIdFromRequest req = valueOf (sessionEmail req))
  /\ (truthy (sessionEmail req) = false ->
      truthy (bearerEmail req) = false ->
      truthy (userIdHeader req) = true ->
      getUserIdFromRequest req = valueOf (userIdHeader req))
  /\ (truthy (sessionEmail req) = false ->
      truthy (bearerEmail req) = false ->
      truthy (userIdHeader req) = false ->
      truthy (cookieEmail req) = false ->
      getUserIdFromRequest req = "anonymous@talqs.com").
Proof.
  unfold getUserIdFromRequest, orElse, truthy, valueOf.
  destruct (sessionEmail req) as [a|], (bearerEmail req) as [b|],
           (userIdHeader req) as [c|], (cookieEmail req) as [d|];
    repeat match goal with
           | |- context [0 <? String.length ?x] =>
               destruct (0 <? String.length x) eqn:?
           end;
    (split; [|split; [|split]]);
    intros; try discriminate; try reflexivity;
    try (apply Nat.ltb_lt; assumption);
    apply Nat.ltb_lt; reflexivity.
Qed.

Lemma getUserIdFromRequest_spec_witness :
  getUserIdFromRequest askPenalty = "u42".
Proof.
  apply (getUserIdFromRequest_spec askPenalty); reflexivity.
Defined.

(** *** Responses and the history *)

Lemma resolveContent_inline (env : Env) (req : Request) (content : string) :
  documentContent req = Some content -> content <> "" ->
  resolveContent env req = inl content.
Proof.
  intros Hdoc Hne. unfold resolveContent, truthy. rewrite Hdoc.
  destruct content; [congruence | reflexivity].
Qed.

Lemma POST_without_question (env : Env) (req : Request) (h : History) :
  truthy (question req) = false ->
  POST env req h = (mkResponse 400 (ErrorBody "Question is required"), h).
Proof.
  unfold POST, truthy. destruct (question req) as [q|]; [|reflexivity].
  now intros ->.
Qed.

Lemma truthy_question (req : Request) :
  truthy (question req) = true ->
  exists q, question req = Some q /\ q <> "".
Proof.
  unfold truthy. destruct (question req) as [q|]; [|discriminate].
  intro H. exists q. split; [reflexivity|]. now destruct q.
Qed.

(** What the inner [try] and its [catch] can answer. *)
Lemma askServer_answers (env : Env) (req : Request) (q actual : string)
  (h : History) (r : Response) (h' : History) :
  askServer env req q actual h = Returned r h' ->
  status r = 200 /\ isAnswer r = true.
Proof.
  unfold askServer. destruct (negb (String.eqb q "all")).
  - destruct (qaAnswer env actual q); [|discriminate].
    intro H. inversion H; subst. now split.
  - destruct (qaBulk env (documentContent req)); [|discriminate].
    intro H. inversion H; subst. now split.
Qed.

Lemma fallbackAnswer_answers (env : Env) (req : Request) (q : string)
  (h : History) :
  match fallbackAnswer env req q h with
  | Returned r _ => status r = 200 /\ isAnswer r = true
  | Thrown => documentContent req = None
  end.
Proof.
  unfold fallbackAnswer. destruct (documentContent req); [now split|].
  reflexivity.
Qed.

(** X9: a request with a question and the document inline is always
    answered, by the server or by the fallback, with status 200: it never
    gets an error. *)
Theorem POST_inline_always_answers (env : Env) (req : Request) (h : History)
  (q content : string) :
  question req = Some q -> q <> "" ->
  documentContent req = Some content -> content <> "" ->
  status (fst (POST env req h)) = 200
  /\ isAnswer (fst (POST env req h)) = true.
Proof.
  intros Hq Hne Hdoc Hc.
  rewrite (POST_resolved env req h q content)
    by (try assumption; now apply resolveContent_inline).
  destruct (askServer env req q content h) as [r h'|] eqn:E.
  - now apply askServer_answers in E.
  - pose proof (fallbackAnswer_answers env req q h) as H.
    destruct (fallbackAnswer env req q h); [exact H | congruence].
Qed.

Lemma POST_inline_always_answers_witness :
  status (fst (POST serverDown askInline [])) = 200
  /\ isAnswer (fst (POST serverDown askInline [])) = true.
Proof.
  apply (POST_inline_always_answers serverDown askInline []
           "What penalty applies here" sampleDocument);
    (reflexivity || discriminate).
Defined.

Lemma fetchStored_status (env : Env) (fp : string) (r : Response) :
  fetchStored env fp = inr r -> status r = 200 /\ isAnswer r = false.
Proof.
  unfold fetchStored.
  destruct (findDocument env fp) as [| |content];
    [| |destruct (truthy content)]; intro H; inversion H; now split.
Qed.

Lemma resolveContent_status (env : Env) (req : Request) (r : Response) :
  resolveContent env req = inr r -> status r = 200 /\ isAnswer r = false.
Proof.
  unfold resolveContent.
  destruct (negb (truthy (documentContent req))
            && truthy (orElse (fingerprint req) (documentFingerprint req))).
  - apply fetchStored_status.
  - destruct (negb (truthy (documentContent req)));
      intro H; inversion H; now split.
Qed.

(** The statuses of [POST] on the fields of a body. *)
Lemma POST_statuses (env : Env) (req : Request) (h : History) :
  (status (fst (POST env req h)) = 400 <-> truthy (question req) = false)
  /\ (status (fst (POST env req h)) = 500 ->
      documentContent req = None)
  /\ (status (fst (POST env req h)) = 200
      \/ status (fst (POST env req h)) = 400
      \/ status (fst (POST env req h)) = 500).
Proof.
  destruct (truthy (question req)) eqn:T.
  - destruct (truthy_question req T) as (q & Hq & Hne).
    assert (H : status (fst (POST env req h)) = 200
                \/ status (fst (POST env req h)) = 500
                   /\ documentContent req = None).
    { unfold POST. rewrite Hq.
      replace (negb (0 <? String.length q)) with false
        by (now destruct q).
      destruct (resolveContent env req) as [actual|r] eqn:R.
      - destruct (askServer env req q actual h) as [r h'|] eqn:E.
        + left. now apply askServer_answers in E.
        + pose proof (fallbackAnswer_answers env req q h) as F.
          destruct (fallbackAnswer env req q h); [now left | now right].
      - left. now apply resolveContent_status in R. }
    destruct H as [H|[H D]]; rewrite H; repeat split;
      try discriminate; try tauto; intros; try discriminate; assumption.
  - rewrite POST_without_question by exact T. cbn. repeat split;
      try discriminate; tauto.
Qed.

(** X10: for a request whose JSON fields, where the body has them, are
    strings or [null]: the route answers 400 exactly when the body can be
    read and its question is missing, [null] or empty; it answers 500
    when the body cannot be read, and to a body that can be read only
    when the question is there and the [documentContent] field is
    missing or [null]; every other response is 200. *)
Theorem POST_status (env : Env) (json : option Request) (h : History) :
  (status (fst (route env json h)) = 400
   <-> exists req, json = Some req /\ truthy (question req) = false)
  /\ (json = None -> fst (route env json h) = failure500)
  /\ (status (fst (route env json h)) = 500 ->
      json = None
      \/ exists req,
           json = Some req /\ truthy (question req) = true
           /\ documentContent req = None)
  /\ (status (fst (route env json h)) = 200
      \/ status (fst (route env json h)) = 400
      \/ status (fst (route env json h)) = 500).
Proof.
  destruct json as [req|]; cbn [route].
  - destruct (POST_statuses env req h) as (H400 & H500 & Hall).
    split; [|split; [discriminate|split; [|exact Hall]]].
    + rewrite H400. split.
      * intro T. now exists req.
      * intros (r & Hr & T). now injection Hr as <-.
    + intro H. right. exists req. split; [reflexivity|].
      split; [|now apply H500].
      apply Bool.not_false_iff_true. intro T. apply H400 in T. congruence.
  - cbn. split; [|split; [reflexivity|split; [now left|now right; right]]].
    split; [discriminate|]. intros (r & Hr & _). discriminate.
Qed.

Lemma POST_status_witness :
  fst (route serverDown None []) = failure500.
Proof.
  destruct (POST_status serverDown None []) as (_ & H & _).
  apply H. reflexivity.
Defined.

Lemma answers_after_question (l : History) :
  answersFollowQuestions false l = true ->
  answersFollowQuestions true l = true.
Proof.
  destruct l as [|m l]; [reflexivity|]. cbn.
  destruct (msgRole m); [trivial | discriminate].
Qed.

Lemma exchange_then (req : Request) (q content : string) (k : nat)
  (l : History) :
  answersFollowQuestions false l = true ->
  answersFollowQuestions false (firstn k (exchange req q content) ++ l)
  = true.
Proof.
  intro H. destruct k as [|[|k]]; cbn; rewrite ?firstn_nil;
    [exact H | | exact H].
  now apply answers_after_question.
Qed.

Lemma saved_bulk_pairs (env : Env) (req : Request)
  (answers : list (string * string)) (h : History) :
  exists added,
    fold_left
      (fun h' qa =>
         saveQuestionAndAnswer env req (fst qa) (snd qa) (documentName req)
                               (fingerprint req) false h')
      answers h
    = h ++ added
    /\ answersFollowQuestions false added = true.
Proof.
  revert h. induction answers as [|qa answers IH]; intro h.
  - exists []. cbn. now rewrite app_nil_r.
  - cbn [fold_left].
    destruct (saved_exchange env req (fst qa) (snd qa) false h)
      as [[k Hk] _].
    rewrite Hk. destruct (IH (h ++ firstn k (exchange req (fst qa)
                                              ("" ++ snd qa))))
      as (added & Ha & Hp).
    exists (firstn k (exchange req (fst qa) ("" ++ snd qa)) ++ added).
    split; [now rewrite Ha, <- app_assoc | now apply exchange_then].
Qed.

(** What [POST] appends on the fields of a body, with a server that
    answers ['all'] by a list of (question, answer) pairs. *)
Lemma POST_appends (env : Env) (req : Request) (h : History) :
  exists added,
    snd (POST env req h) = h ++ added
    /\ answersFollowQuestions false added = true
    /\ (isAnswer (fst (POST env req h)) = false -> added = []).
Proof.
  assert (Hnone : forall r, POST env req h = (r, h) ->
            exists added,
              snd (POST env req h) = h ++ added
              /\ answersFollowQuestions false added = true
              /\ (isAnswer (fst (POST env req h)) = false -> added = [])).
  { intros r ->. exists []. cbn. now rewrite app_nil_r. }
  destruct (truthy (question req)) eqn:T;
    [|eapply Hnone, POST_without_question; exact T].
  destruct (truthy_question req T) as (q & Hq & Hne).
  destruct (resolveContent env req) as [actual|r] eqn:R.
  - rewrite (POST_resolved env req h q actual) by assumption.
    unfold askServer, fallbackAnswer.
    destruct (negb (String.eqb q "all")).
    + destruct (qaAnswer env actual q) as [answer|].
      * destruct (saved_exchange env req q answer false h) as [[k Hk] _].
        eexists. cbn [fst snd]. split; [exact Hk|].
        split; [|discriminate].
        rewrite <- (app_nil_r (firstn k _)). now apply exchange_then.
      * destruct (documentContent req) as [content|].
        -- destruct (saved_exchange env req q
                       (generateExtractiveAnswer content q) true h)
             as [[k Hk] _].
           eexists. cbn [fst snd]. split; [exact Hk|].
           split; [|discriminate].
           rewrite <- (app_nil_r (firstn k _)). now apply exchange_then.
        -- exists []. cbn. now rewrite app_nil_r.
    + destruct (qaBulk env (documentContent req)) as [answers|].
      * destruct (saved_bulk_pairs env req answers h) as (added & Ha & Hp).
        exists added. cbn [fst snd]. repeat split; try assumption.
        discriminate.
      * destruct (documentContent req) as [content|].
        -- destruct (saved_exchange env req q
                       (generateExtractiveAnswer content q) true h)
             as [[k Hk] _].
           eexists. cbn [fst snd]. split; [exact Hk|].
           split; [|discriminate].
           rewrite <- (app_nil_r (firstn k _)). now apply exchange_then.
        -- exists []. cbn. now rewrite app_nil_r.
  - apply (Hnone r). unfold POST. rewrite Hq, R.
    now destruct q.
Qed.

(** X11: for a request whose JSON fields, where the body has them, are
    strings or [null]: the route only appends to the chat history, and
    every answer it stores comes right after a question it stores.  A
    response without an answer of the server or of the fallback leaves
    the history as it was when its status is not 500 (it is 400 or one
    of the notices about the document), and also when it is 500 and the
    question is not ['all']. *)
Theorem POST_history (env : Env) (json : option Request) (h : History) :
  exists added,
    snd (route env json h) = h ++ added
    /\ answersFollowQuestions false added = true
    /\ (status (fst (route env json h)) <> 500
        \/ (forall req, json = Some req -> question req <> Some "all") ->
        isAnswer (fst (route env json h)) = false -> added = []).
Proof.
  destruct json as [req|]; cbn [route].
  - destruct (POST_appends env req h) as (added & Happ & Hpair & Hnone).
    exists added. split; [exact Happ|]. split; [exact Hpair|].
    intros _. exact Hnone.
  - exists []. cbn. now rewrite app_nil_r.
Qed.

Lemma POST_history_witness :
  exists added,
    snd (route serverDown (Some askByFingerprint) []) = [] ++ added
    /\ added = [].
Proof.
  destruct (POST_history serverDown (Some askByFingerprint) [])
    as (added & Happ & _ & Hnone).
  exists added. split; [exact Happ|]. apply Hnone; [|reflexivity].
  right. intros req Hreq. injection Hreq as <-. discriminate.
Defined.

(** X29: the extractive answer is a framing followed by at most three
    excerpts, each a sentence of the document without the whitespace
    around it; for a document without a sentence it is the "no answer"
    framing alone. *)
Theorem extractive_answer_excerpts (documentContent question : string) :
  exists framing excerpts,
    generateExtractiveAnswer documentContent question
    = (framing ++ join blankLine excerpts)%string
    /\ (framing = answerFraming \/ framing = noAnswerFraming)
    /\ List.length excerpts <= 3
    /\ (forall x, In x excerpts ->
                  exists s, In s (docSentences documentContent)
                            /\ x = trim s)
    /\ (docSentences documentContent = [] ->
        framing = noAnswerFraming /\ excerpts = []).
Proof.
  exists (match docSentences documentContent with
          | [] => noAnswerFraming
          | _ :: _ => answerFraming
          end),
         (map (fun item => trim (sentence item))
              (firstn 3 (ranked documentContent question))).
  split; [|split; [|split; [|split]]].
  - destruct (docSentences documentContent) eqn:E.
    + unfold generateExtractiveAnswer, ranked. now rewrite E.
    + apply answer_from_ranking. now rewrite E.
  - destruct (docSentences documentContent); tauto.
  - rewrite length_map, length_firstn. lia.
  - intros x [item [<- Hin]]%in_map_iff.
    assert (Hr : In item (ranked documentContent question)).
    { rewrite <- (firstn_skipn 3). apply in_or_app. now left. }
    destruct (ranked_items _ _ _ Hr) as [_ Hs]. now exists (sentence item).
  - intro E. split; [now rewrite E|].
    unfold ranked. now rewrite E.
Qed.

Lemma extractive_answer_excerpts_witness :
  exists framing excerpts,
    generateExtractiveAnswer "..." "What penalty applies here"
    = (framing ++ join blankLine excerpts)%string
    /\ framing = noAnswerFraming /\ excerpts = [].
Proof.
  destruct (extractive_answer_excerpts "..." "What penalty applies here")
    as (framing & excerpts & Heq & _ & _ & _ & Hempty).
  exists framing, excerpts. split; [exact Heq | apply Hempty; reflexivity].
Defined.

(** *** The route [/api/qa] *)

Lemma saveBoth_appends (env : SimpleQA.Env) (userId : string)
  (req : SimpleQA.Request) (data : SimpleQA.Reply) (h : list SimpleQA.Message) :
  SimpleQA.saveBoth env userId (valueOf (SimpleQA.question req)) data
    (SimpleQA.documentName req) (SimpleQA.documentFingerprint req) h
  = h
  \/ match data with
     | SimpleQA.ObjectReply answer =>
         exists k,
           SimpleQA.saveBoth env userId (valueOf (SimpleQA.question req))
             data (SimpleQA.documentName req)
             (SimpleQA.documentFingerprint req) h
           = h ++ firstn k [SimpleQA.asked userId req;
                            SimpleQA.replied userId req answer]
     | _ =>
         SimpleQA.saveBoth env userId (valueOf (SimpleQA.question req))
           data (SimpleQA.documentName req)
           (SimpleQA.documentFingerprint req) h
         = h ++ [SimpleQA.asked userId req]
     end.
Proof.
  unfold SimpleQA.saveBoth, SimpleQA.saveMessage.
  fold (SimpleQA.asked userId req).
  destruct (SimpleQA.saveOk env h (SimpleQA.asked userId req));
    [|now left].
  right. destruct data as [| |answer]; [reflexivity | reflexivity |].
  fold (SimpleQA.replied userId req answer).
  destruct (SimpleQA.saveOk env _ (SimpleQA.replied userId req answer)).
  - exists 2. cbn [firstn]. now rewrite <- app_assoc.
  - now exists 1.
Qed.

(** X30: for a request whose JSON fields, where the body has them, are
    strings or [null], and a server whose answer, where its JSON has
    one, is a string: the route [/api/qa] answers 500 exactly when the
    body cannot be read, 400 exactly when the body can be read and the
    question is missing, [null] or empty, and 200 otherwise.  It has no
    fallback: when the inference server fails it answers with the
    apology and stores nothing.  When the server answers ok with the JSON
    value [null] it answers with the apology too, after it has stored the
    question for a caller with a user id.  Whenever the history changes,
    the caller has a user id and the server has answered ok: the route
    has stored the question and then, unless that write failed or the
    server sent [null], the answer as the response carries it. *)
Theorem simple_route_spec (env : SimpleQA.Env)
  (getUserId : option (option string)) (json : option SimpleQA.Request)
  (h : list SimpleQA.Message) :
  (SimpleQA.status (fst (SimpleQA.POST env getUserId json h)) = 500
   <-> json = None)
  /\ (SimpleQA.status (fst (SimpleQA.POST env getUserId json h)) = 400
      <-> exists req,
            json = Some req /\ truthy (SimpleQA.question req) = false)
  /\ (SimpleQA.status (fst (SimpleQA.POST env getUserId json h)) = 200
      \/ SimpleQA.status (fst (SimpleQA.POST env getUserId json h)) = 400
      \/ SimpleQA.status (fst (SimpleQA.POST env getUserId json h)) = 500)
  /\ (forall req,
        json = Some req ->
        truthy (SimpleQA.question req) = true ->
        SimpleQA.storedContent env req <> "" ->
        (SimpleQA.qaServer env (SimpleQA.storedContent env req)
           (valueOf (SimpleQA.question req)) = SimpleQA.Unavailable ->
         SimpleQA.POST env getUserId json h
         = (SimpleQA.apologyResponse, h))
        /\ (SimpleQA.qaServer env (SimpleQA.storedContent env req)
              (valueOf (SimpleQA.question req)) = SimpleQA.NullReply ->
            fst (SimpleQA.POST env getUserId json h)
            = SimpleQA.apologyResponse
            /\ (forall userId,
                  getUserId = Some (Some userId) -> userId <> "" ->
                  SimpleQA.saveOk env h (SimpleQA.asked userId req) = true ->
                  snd (SimpleQA.POST env getUserId json h)
                  = h ++ [SimpleQA.asked userId req])))
  /\ (snd (SimpleQA.POST env getUserId json h) <> h ->
      exists req userId,
        json = Some req
        /\ getUserId = Some (Some userId) /\ userId <> ""
        /\ ((SimpleQA.qaServer env (SimpleQA.storedContent env req)
               (valueOf (SimpleQA.question req)) = SimpleQA.NullReply
             /\ fst (SimpleQA.POST env getUserId json h)
                = SimpleQA.apologyResponse
             /\ snd (SimpleQA.POST env getUserId json h)
                = h ++ [SimpleQA.asked userId req])
            \/ exists answer k,
                 SimpleQA.qaServer env (SimpleQA.storedContent env req)
                   (valueOf (SimpleQA.question req))
                 = SimpleQA.ObjectReply answer
                 /\ fst (SimpleQA.POST env getUserId json h)
                    = SimpleQA.mkResponse 200 (SimpleQA.AnswerBody answer)
                 /\ snd (SimpleQA.POST env getUserId json h)
                    = h ++ firstn k [SimpleQA.asked userId req;
                                     SimpleQA.replied userId req answer])).
Proof.
  destruct json as [req|].
  2:{ cbn. split; [tauto|]. split.
      - split; [discriminate|]. intros (r & Hr & _). discriminate.
      - split; [now right; right|]. split; [discriminate|]. congruence. }
  unfold SimpleQA.POST.
  destruct (truthy (SimpleQA.question req)) eqn:T; cbn [negb].
  2:{ cbn [fst snd SimpleQA.status].
      split; [split; discriminate|].
      split; [split; [intros _; now exists req | reflexivity]|].
      split; [now right; left|].
      split; [|congruence].
      intros r Hr. injection Hr as <-. congruence. }
  assert (H400 : forall n, n <> 400 ->
            (n = 400 <-> exists r,
                           Some req = Some r
                           /\ truthy (SimpleQA.question r) = false)).
  { intros n Hn. split; [contradiction|]. intros (r & Hr & Hq).
    injection Hr as <-. congruence. }
  assert (H500 : forall n, n <> 500 ->
            (n = 500 <-> Some req = (None : option SimpleQA.Request)))
    by (intros n Hn; split; [contradiction | discriminate]).
  destruct (String.length (SimpleQA.storedContent env req) =? 0) eqn:E.
  { cbn [fst snd SimpleQA.status].
    split; [apply H500; discriminate|].
    split; [apply H400; discriminate|].
    split; [now left|]. split; [|congruence].
    intros r Hr _ Hne. injection Hr as <-. apply Nat.eqb_eq in E.
    destruct (SimpleQA.storedContent env req); [congruence | discriminate]. }
  destruct (SimpleQA.qaServer env (SimpleQA.storedContent env req)
              (valueOf (SimpleQA.question req))) as [| |answer] eqn:Q.
  - cbn [fst snd SimpleQA.status SimpleQA.apologyResponse].
    split; [apply H500; discriminate|].
    split; [apply H400; discriminate|].
    split; [now left|]. split; [|congruence].
    intros r Hr _ _. injection Hr as <-. rewrite Q.
    split; [reflexivity | discriminate].
  - destruct getUserId as [userId|];
      cbn [fst snd SimpleQA.status SimpleQA.apologyResponse].
    + split; [apply H500; discriminate|].
      split; [apply H400; discriminate|].
      split; [now left|]. split.
      * intros r Hr _ _. injection Hr as <-. rewrite Q.
        split; [discriminate|]. intros _. split; [reflexivity|].
        intros u Hu Hne Hok. injection Hu as ->.
        replace (truthy (Some u)) with true
          by (destruct u; [congruence | reflexivity]).
        cbn [valueOf]. unfold SimpleQA.saveBoth, SimpleQA.saveMessage.
        fold (SimpleQA.asked u req). now rewrite Hok.
      * destruct (truthy userId) eqn:Tu; [|congruence].
        destruct userId as [u|]; [|discriminate]. cbn [valueOf].
        intro Hchg. exists req, u. split; [reflexivity|].
        split; [reflexivity|].
        split; [intros ->; discriminate|]. left.
        destruct (saveBoth_appends env u req SimpleQA.NullReply h)
          as [Hs|Hs]; [congruence|].
        now repeat split.
    + split; [apply H500; discriminate|].
      split; [apply H400; discriminate|].
      split; [now left|]. split; [|congruence].
      intros r Hr _ _. injection Hr as <-. rewrite Q.
      split; [discriminate|]. intros _. split; [reflexivity|]. discriminate.
  - destruct getUserId as [userId|];
      cbn [fst snd SimpleQA.status SimpleQA.apologyResponse].
    + split; [apply H500; discriminate|].
      split; [apply H400; discriminate|].
      split; [now left|]. split.
      * intros r Hr _ _. injection Hr as <-. rewrite Q.
        split; discriminate.
      * destruct (truthy userId) eqn:Tu; [|congruence].
        destruct userId as [u|]; [|discriminate]. cbn [valueOf].
        intro Hchg. exists req, u. split; [reflexivity|].
        split; [reflexivity|].
        split; [intros ->; discriminate|]. right.
        destruct (saveBoth_appends env u req (SimpleQA.ObjectReply answer) h)
          as [Hs|[k Hs]]; [congruence|].
        exists answer, k. now repeat split.
    + split; [apply H500; discriminate|].
      split; [apply H400; discriminate|].
      split; [now left|]. split; [|congruence].
      intros r Hr _ _. injection Hr as <-. rewrite Q.
      split; discriminate.
Qed.

Lemma simple_route_spec_witness :
  SimpleQA.POST SimpleQA.downEnv (Some (Some "u42"))
    (Some SimpleQA.askStored) []
  = (SimpleQA.apologyResponse, [])
  /\ SimpleQA.POST SimpleQA.nullEnv (Some (Some "u42"))
       (Some SimpleQA.askStored) []
     = (SimpleQA.apologyResponse, [SimpleQA.asked "u42" SimpleQA.askStored]).
Proof.
  destruct (simple_route_spec SimpleQA.downEnv (Some (Some "u42"))
              (Some SimpleQA.askStored) [])
    as (_ & _ & _ & Hdown & _).
  destruct (Hdown SimpleQA.askStored eq_refl eq_refl) as [Hd _];
    [discriminate|].
  destruct (simple_route_spec SimpleQA.nullEnv (Some (Some "u42"))
              (Some SimpleQA.askStored) [])
    as (_ & _ & _ & Hnull & _).
  destruct (Hnull SimpleQA.askStored eq_refl eq_refl) as [_ Hn];
    [discriminate|].
  destruct (Hn eq_refl) as [Hfst Hsnd].
  split; [apply Hd; reflexivity|].
  rewrite (surjective_pairing (SimpleQA.POST _ _ _ _)), Hfst.
  rewrite (Hsnd "u42" eq_refl); [reflexivity | discriminate | reflexivity].
Defined.

End RouteFacts.

(** ** More on the Firestore operations *)

Module StoreFacts.

Import Firestore FirestoreFacts FirestoreOps.

(** X12: a [saveDocument] that answers [null] has written nothing. *)
Theorem saveDocument_failure_is_atomic (env : Env) (d : DocInput)
  (docs : Collection DocumentData) :
  snd (saveDocument env d docs) = None ->
  fst (saveDocument env d docs) = docs.
Proof.
  unfold saveDocument.
  destruct (isAvailable env), (getDocsOk env); cbn [negb]; try reflexivity.
  destruct (filter (matches d) docs), (writeOk env);
    cbn [fst snd]; (reflexivity || discriminate).
Qed.

Lemma saveDocument_failure_is_atomic_witness :
  fst (saveDocument (mkEnv true true false 10 "d1") annLease sampleDocs)
  = sampleDocs.
Proof.
  apply (saveDocument_failure_is_atomic (mkEnv true true false 10 "d1")
           annLease sampleDocs).
  reflexivity.
Defined.

Lemma lookup_reads_query (env : Env) (d : DocInput)
  (docs : Collection DocumentData) :
  isAvailable env = true -> getDocsOk env = true ->
  getDocumentByFingerprint env (userId d) (fingerprint d) docs
  = option_map snapshot (hd_error (filter (matches d) docs)).
Proof.
  intros Ha Hg. unfold getDocumentByFingerprint. rewrite Ha, Hg.
  cbn [negb].
  change (filter (matches (mkDocInput (userId d) (fingerprint d) "" 0)) docs)
    with (filter (matches d) docs).
  now destruct (filter (matches d) docs).
Qed.

(** X13: after a save that went through, a lookup of the pair finds a
    record of that owner and fingerprint whose last access is the time of
    the save.  For a new pair the record has the data of the call, is
    uploaded at the time of the save and has the id that the save
    returned; the value the save returned has that data with the two
    sentinels where the lookup reads times.  For a pair already stored
    the lookup finds the id, the data and the upload time of the record
    read by the save, and the save returned that record as it was before
    the update. *)
Theorem saveDocument_then_lookup (env env' : Env) (d : DocInput)
  (docs : Collection DocumentData) :
  reachable env -> isAvailable env' = true -> getDocsOk env' = true ->
  exists ref rec,
    getDocumentByFingerprint env' (userId d) (fingerprint d)
                             (fst (saveDocument env d docs))
    = Some (ref, rec)
    /\ userId (returnedInput rec) = userId d
    /\ fingerprint (returnedInput rec) = fingerprint d
    /\ returnedLastAccessedAt rec = Stored (serverTimestamp env)
    /\ (recordsFor (userId d) (fingerprint d) docs = [] ->
        returnedInput rec = d
        /\ returnedUploadedAt rec = Stored (serverTimestamp env)
        /\ snd (saveDocument env d docs)
           = Some (ref, mkReturnedData d ServerTimestampSentinel
                                       ServerTimestampSentinel))
    /\ (forall old,
          hd_error (recordsFor (userId d) (fingerprint d) docs) = Some old ->
          ref = fst old
          /\ returnedInput rec = input (snd old)
          /\ returnedUploadedAt rec = Stored (uploadedAt (snd old))
          /\ snd (saveDocument env d docs) = Some (snapshot old)).
Proof.
  intros (Ha & Hg & Hw) Ha' Hg'.
  rewrite lookup_reads_query by assumption.
  unfold saveDocument. rewrite Ha, Hg, Hw. cbn [negb].
  rewrite recordsFor_query.
  destruct (filter (matches d) docs) as [|[ref old] rest] eqn:Eq;
    cbn [fst snd].
  - rewrite filter_app, Eq. cbn [filter app].
    unfold matches at 1. cbn [snd input]. rewrite !String.eqb_refl.
    cbn [andb hd_error option_map]. unfold snapshot. cbn [fst snd input
      uploadedAt lastAccessedAt].
    eexists _, _. split; [reflexivity|].
    cbn [returnedInput returnedUploadedAt returnedLastAccessedAt].
    do 3 (split; [reflexivity|]).
    split; [intros _; repeat split | intros o Ho; discriminate Ho].
  - rewrite filter_touch, Eq.
    cbn [touch map fst snd hd_error option_map]. rewrite String.eqb_refl.
    assert (Hm : matches d (ref, old) = true).
    { assert (Hin : In (ref, old) (filter (matches d) docs))
        by (rewrite Eq; now left).
      now apply filter_In in Hin. }
    unfold matches in Hm. cbn [snd] in Hm.
    apply andb_true_iff in Hm as [Hu Hf]. apply String.eqb_eq in Hu, Hf.
    unfold snapshot at 1. cbn [fst snd input uploadedAt lastAccessedAt].
    eexists _, _. split; [reflexivity|].
    cbn [returnedInput returnedUploadedAt returnedLastAccessedAt].
    split; [assumption|]. split; [assumption|]. split; [reflexivity|].
    split; [discriminate|].
    intros o Ho. injection Ho as <-. repeat split.
Qed.

Lemma saveDocument_then_lookup_witness :
  exists ref rec,
    getDocumentByFingerprint secondCall "ann@example.org" "fp1"
      (fst (saveDocument firstCall annLease sampleDocs))
    = Some (ref, rec)
    /\ ref = "d1"
    /\ returnedInput rec = annLease
    /\ returnedUploadedAt rec = Stored 10
    /\ returnedLastAccessedAt rec = Stored 10
    /\ snd (saveDocument firstCall annLease sampleDocs)
       = Some (ref, mkReturnedData annLease ServerTimestampSentinel
                                   ServerTimestampSentinel).
Proof.
  destruct (saveDocument_then_lookup firstCall secondCall annLease
              sampleDocs)
    as (ref & rec & Hlook & _ & _ & Hacc & Hnew & _);
    [repeat split | reflexivity | reflexivity |].
  destruct (Hnew eq_refl) as (Hin & Hup & Hret).
  exists ref, rec. repeat split; try assumption.
  injection Hret as Href. symmetry. exact Href.
Defined.

Lemma touch_elsewhere (ref : string) (now : Timestamp)
  (l : Collection DocumentData) :
  (forall e, In e l -> fst e <> ref) -> touch ref now l = l.
Proof.
  induction l as [|e l IH]; intro H; [reflexivity|].
  cbn [touch map]. fold (touch ref now l).
  rewrite IH by (intros; apply H; now right).
  assert (Hne : fst e <> ref) by (apply H; now left).
  apply String.eqb_neq in Hne. now rewrite Hne.
Qed.

Lemma unique_id (A : Type) (c : Collection A) (e1 e2 : string * A) :
  uniqueIds c -> In e1 c -> In e2 c -> fst e1 = fst e2 -> e1 = e2.
Proof.
  unfold uniqueIds. induction c as [|e c IH]; intros Hnd H1 H2 Heq;
    [contradiction|].
  cbn in Hnd. inversion Hnd as [|? ? Hnot Hnd']; subst.
  destruct H1 as [->|H1], H2 as [->|H2].
  - reflexivity.
  - exfalso. apply Hnot. rewrite Heq. now apply in_map.
  - exfalso. apply Hnot. rewrite <- Heq. now apply in_map.
  - now apply IH.
Qed.

(** X14: a save leaves the records of every other (owner, fingerprint)
    pair as they are. *)
Theorem saveDocument_other_pairs (env : Env) (d : DocInput)
  (docs : Collection DocumentData) (owner fp : string) :
  uniqueIds docs ->
  (owner, fp) <> (userId d, fingerprint d) ->
  recordsFor owner fp (fst (saveDocument env d docs))
  = recordsFor owner fp docs.
Proof.
  intros Hids Hother. unfold saveDocument.
  destruct (isAvailable env), (getDocsOk env); cbn [negb]; try reflexivity.
  destruct (filter (matches d) docs) as [|docDoc rest] eqn:Eq;
    (destruct (writeOk env); [|reflexivity]); cbn [fst].
  - unfold recordsFor. rewrite filter_app. cbn [filter].
    destruct (matches (mkDocInput owner fp "" 0) (newId env, _)) eqn:Em;
      [|apply app_nil_r].
    exfalso. apply Hother. unfold matches in Em. cbn in Em.
    apply andb_true_iff in Em as [Hu Hf]. apply String.eqb_eq in Hu, Hf.
    congruence.
  - unfold recordsFor. rewrite filter_touch. apply touch_elsewhere.
    intros e He Hid. apply filter_In in He as [Hin Hm].
    assert (Hdoc : In docDoc (filter (matches d) docs))
      by (rewrite Eq; now left).
    apply filter_In in Hdoc as [Hdin Hdm].
    assert (e = docDoc) as -> by (now apply (unique_id _ docs)).
    destruct (pair_of_matches d owner fp docDoc Hdm Hm) as [-> ->].
    now apply Hother.
Qed.

Lemma saveDocument_other_pairs_witness :
  recordsFor "bob@example.org" "fp1"
             (fst (saveDocument firstCall annLease sampleDocs))
  = recordsFor "bob@example.org" "fp1" sampleDocs.
Proof.
  apply (saveDocument_other_pairs firstCall annLease sampleDocs).
  - repeat constructor. cbn. tauto.
  - discriminate.
Defined.

(** X15: a delete that went through removes the chat of that id and no
    other, and leaves users and documents alone; a delete that failed
    leaves the database as it was; deleting again changes nothing more. *)
Theorem deleteChatHistory_spec (env : Env) (chatId : string) (db : Db) :
  (snd (deleteChatHistory env chatId db) = true ->
   (forall e, In e (chatHistory (fst (deleteChatHistory env chatId db)))
              <-> In e (chatHistory db) /\ fst e <> chatId)
   /\ users (fst (deleteChatHistory env chatId db)) = users db
   /\ documents (fst (deleteChatHistory env chatId db)) = documents db)
  /\ (snd (deleteChatHistory env chatId db) = false ->
      fst (deleteChatHistory env chatId db) = db)
  /\ fst (deleteChatHistory env chatId
            (fst (deleteChatHistory env chatId db)))
     = fst (deleteChatHistory env chatId db).
Proof.
  unfold deleteChatHistory.
  destruct (isAvailable env), (writeOk env); cbn [negb fst snd];
    (split; [|split]); try discriminate; try reflexivity.
  - intros _. cbn. split; [|now split].
    intro e. unfold deleteDoc. rewrite filter_In, negb_true_iff.
    now rewrite String.eqb_neq.
  - cbn. f_equal. unfold deleteDoc.
    induction (chatHistory db) as [|e l IH]; [reflexivity|].
    cbn [filter]. destruct (negb (String.eqb (fst e) chatId)) eqn:E.
    + cbn [filter]. now rewrite E, IH.
    + exact IH.
Qed.

Lemma deleteChatHistory_spec_witness :
  documents (fst (deleteChatHistory firstCall "c1" sampleChats))
  = documents sampleChats
  /\ fst (deleteChatHistory DataService.firestoreDown "c1" sampleChats)
     = sampleChats.
Proof.
  split.
  - destruct (deleteChatHistory_spec firstCall "c1" sampleChats)
      as (Hok & _ & _).
    apply Hok. reflexivity.
  - destruct (deleteChatHistory_spec DataService.firestoreDown "c1"
                sampleChats) as (_ & Hfail & _).
    apply Hfail. reflexivity.
Defined.

(** *** Users *)

Lemma filter_map_same (A : Type) (p : A -> bool) (f : A -> A) (l : list A) :
  (forall e, In e l -> p (f e) = p e) ->
  filter p (map f l) = map f (filter p l).
Proof.
  induction l as [|e l IH]; intro H; [reflexivity|].
  cbn [map filter]. rewrite (H e) by now left.
  rewrite IH by (intros; apply H; now right).
  now destruct (p e).
Qed.

(** With ids that name one document each, the update only reaches the
    user it was aimed at, whose e-mail it keeps. *)
Lemma updateUser_emails (userData : UserInput) (now : Timestamp)
  (users : Collection StoredUser) (userDoc : string * StoredUser)
  (email : string) :
  uniqueIds users -> In userDoc users ->
  hasEmail (uEmail userData) userDoc = true ->
  filter (hasEmail email)
         (updateUser (fst userDoc) userData now users)
  = updateUser (fst userDoc) userData now (filter (hasEmail email) users).
Proof.
  intros Hids Hin Hmail. unfold updateUser. apply filter_map_same.
  intros e He. destruct (String.eqb (fst e) (fst userDoc)) eqn:E;
    [|reflexivity].
  apply String.eqb_eq in E.
  assert (e = userDoc) as -> by (now apply (unique_id _ users)).
  unfold hasEmail in *. cbn [snd fields uEmail].
  apply String.eqb_eq in Hmail. now rewrite Hmail.
Qed.

(** X16: with ids that name one user each, [upsertUser] keeps every e-mail
    stored at most once, whatever the call meets. *)
Theorem upsertUser_keeps_uniqueEmails (env : Env) (userData : UserInput)
  (users : Collection StoredUser) :
  uniqueIds users -> uniqueEmails users ->
  uniqueEmails (fst (upsertUser env userData users)).
Proof.
  intros Hids Hinv. unfold upsertUser.
  destruct (isAvailable env); cbn [negb]; [|exact Hinv].
  destruct (getDocsOk env); cbn [negb]; [|exact Hinv].
  destruct (filter (hasEmail (uEmail userData)) users)
    as [|userDoc rest] eqn:Eq;
    (destruct (writeOk env); [|exact Hinv]); cbn [fst]; intro email.
  - rewrite filter_app, length_app. cbn [filter].
    destruct (hasEmail email (newId env, _)) eqn:Em; cbn [List.length].
    + unfold hasEmail in Em. cbn in Em. apply String.eqb_eq in Em.
      subst email. rewrite Eq. cbn. lia.
    + specialize (Hinv email). lia.
  - assert (Hdoc : In userDoc (filter (hasEmail (uEmail userData)) users))
      by (rewrite Eq; now left).
    apply filter_In in Hdoc as [Hin Hmail].
    rewrite updateUser_emails by assumption.
    unfold updateUser. rewrite length_map. apply Hinv.
Qed.

Lemma upsertUser_keeps_uniqueEmails_witness :
  uniqueEmails
    (fst (upsertUser secondCall annAgain
            (fst (upsertUser firstCall annFirst [])))).
Proof.
  apply (upsertUser_keeps_uniqueEmails secondCall annAgain).
  - repeat constructor. cbn. tauto.
  - intro email. cbn [upsertUser firstCall annFirst fst filter app negb
                        isAvailable getDocsOk writeOk].
    destruct (hasEmail email _); cbn; lia.
Defined.

Lemma upsertUser_lookup (env env' : Env) (userData : UserInput)
  (users : Collection StoredUser) :
  uniqueIds users -> reachable env ->
  isAvailable env' = true -> getDocsOk env' = true ->
  exists ref stored,
    getUserByEmail env' (uEmail userData)
                   (fst (upsertUser env userData users))
    = Some (ref, stored)
    /\ uEmail (fields stored) = uEmail userData
    /\ uName (fields stored) = uName userData
    /\ userUpdatedAt stored = serverTimestamp env
    /\ (forall old,
          getUserByEmail env' (uEmail userData) users = Some (ref, old) ->
          userCreatedAt stored = userCreatedAt old
          /\ uImage (fields stored)
             = overwrite (uImage userData) (uImage (fields old))
          /\ uProvider (fields stored)
             = overwrite (uProvider userData) (uProvider (fields old))
          /\ uIsAdmin (fields stored)
             = overwrite (uIsAdmin userData) (uIsAdmin (fields old)))
    /\ (getUserByEmail env' (uEmail userData) users = None ->
        fields stored = userData
        /\ userCreatedAt stored = serverTimestamp env
        /\ ref = newId env).
Proof.
  intros Hids (Ha & Hg & Hw) Ha' Hg'.
  unfold getUserByEmail, upsertUser. rewrite Ha, Hg, Hw, Ha', Hg'.
  cbn [negb].
  destruct (filter (hasEmail (uEmail userData)) users)
    as [|[ref old] rest] eqn:Eq; cbn [fst].
  - rewrite filter_app, Eq. cbn [filter app].
    unfold hasEmail at 1. cbn [snd fields]. rewrite String.eqb_refl.
    eexists _, _. repeat split; discriminate.
  - assert (Hdoc : In (ref, old)
                      (filter (hasEmail (uEmail userData)) users))
      by (rewrite Eq; now left).
    apply filter_In in Hdoc as [Hin Hmail].
    rewrite (updateUser_emails userData (serverTimestamp env) users
               (ref, old)) by assumption.
    rewrite Eq. unfold updateUser. cbn [map fst snd].
    rewrite String.eqb_refl.
    eexists _, _. split; [reflexivity|].
    repeat split; try discriminate; inversion H; subst; reflexivity.
Qed.

(** X17: after an upsert that went through, the user is found by e-mail
    with the name of the upsert and the time of the upsert as update
    time.  A user who was there keeps the creation time and the optional
    fields the upsert did not give; a new user is created at the time of
    the upsert with the fields given. *)
Theorem upsertUser_then_lookup (env env' : Env) (userData : UserInput)
  (users : Collection StoredUser) :
  uniqueIds users -> reachable env ->
  isAvailable env' = true -> getDocsOk env' = true ->
  exists ref stored,
    getUserByEmail env' (uEmail userData)
                   (fst (upsertUser env userData users))
    = Some (ref, stored)
    /\ uEmail (fields stored) = uEmail userData
    /\ uName (fields stored) = uName userData
    /\ userUpdatedAt stored = serverTimestamp env
    /\ (forall old,
          getUserByEmail env' (uEmail userData) users = Some (ref, old) ->
          userCreatedAt stored = userCreatedAt old
          /\ uImage (fields stored)
             = overwrite (uImage userData) (uImage (fields old))
          /\ uProvider (fields stored)
             = overwrite (uProvider userData) (uProvider (fields old))
          /\ uIsAdmin (fields stored)
             = overwrite (uIsAdmin userData) (uIsAdmin (fields old)))
    /\ (getUserByEmail env' (uEmail userData) users = None ->
        fields stored = userData
        /\ userCreatedAt stored = serverTimestamp env
        /\ ref = newId env).
Proof.
  apply upsertUser_lookup.
Qed.

Lemma upsertUser_then_lookup_witness :
  exists ref stored,
    getUserByEmail secondCall "ann@example.org"
      (fst (upsertUser secondCall annAgain
              (fst (upsertUser firstCall annFirst []))))
    = Some (ref, stored)
    /\ uName (fields stored) = "Ann B."
    /\ userCreatedAt stored = 10
    /\ uImage (fields stored) = Some "ann.png".
Proof.
  destruct (upsertUser_then_lookup secondCall secondCall annAgain
              (fst (upsertUser firstCall annFirst [])))
    as (ref & stored & Hl & _ & Hn & _ & Hold & _).
  - repeat constructor. cbn. tauto.
  - repeat split.
  - reflexivity.
  - reflexivity.
  - exists ref, stored. split; [exact Hl|]. split; [exact Hn|].
    cbn in Hl. inversion Hl; subst. split; reflexivity.
Defined.

End StoreFacts.

(** ** Configuration and routing *)

Module RouterFacts.

Import DataService DataServiceFacts Router.

Lemma firstUsable_cases {F M R : Type} (cfg : Config) (usable : R -> bool)
  (firebaseOp : F -> F * R) (mongoOp : M -> M * R)
  (otherwise : F * M -> (F * M) * R) (st : F * M) :
  firstUsable cfg usable firebaseOp mongoOp otherwise st
  = let f := if triesFirebase cfg then fst (firebaseOp (fst st))
             else fst st in
    if triesFirebase cfg
       && (usable (snd (firebaseOp (fst st)))
           || String.eqb (DATABASE_PROVIDER cfg) "firebase")
    then ((f, snd st), snd (firebaseOp (fst st)))
    else if triesMongo cfg
    then if usable (snd (mongoOp (snd st)))
         then ((f, fst (mongoOp (snd st))), snd (mongoOp (snd st)))
         else otherwise (f, fst (mongoOp (snd st)))
    else otherwise (f, snd st).
Proof.
  unfold firstUsable.
  destruct (triesFirebase cfg); cbn [andb].
  - destruct (firebaseOp (fst st)) as [f r]. cbn [fst snd].
    destruct (usable r || String.eqb (DATABASE_PROVIDER cfg) "firebase");
      [reflexivity|].
    destruct (triesMongo cfg); [|reflexivity].
    destruct (mongoOp (snd st)) as [m r']. cbn [fst snd].
    now destruct (usable r').
  - destruct (triesMongo cfg); [|reflexivity].
    destruct (mongoOp (snd st)) as [m r']. cbn [fst snd].
    now destruct (usable r').
Qed.

Lemma pinned_not_mongo (cfg : Config) :
  String.eqb (DATABASE_PROVIDER cfg) "firebase" = true ->
  triesMongo cfg = false.
Proof.
  intro H. apply String.eqb_eq in H. unfold triesMongo. rewrite H.
  apply andb_false_r.
Qed.

(** X18: [documents.save] answers [null] only when the provider is pinned
    to ["firebase"], Firebase is enabled and the save in Firestore failed;
    in every other case the document is saved somewhere, as long as the
    in-memory store takes it. *)
Theorem documents_save_null {I : Type} (cfg : Config) (env : Firestore.Env)
  (memorySave : Firestore.DocInput -> I
                -> I * option Firestore.FirebaseDocument)
  (docData : Firestore.DocInput)
  (st : Firestore.Collection Firestore.DocumentData * I) :
  (forall d i, snd (memorySave d i) <> None) ->
  (snd (documents_save cfg env memorySave docData st) = None
   <-> firebaseEnabled cfg = true
       /\ DATABASE_PROVIDER cfg = "firebase"
       /\ snd (Firestore.saveDocument env docData (fst st)) = None).
Proof.
  intro Hmem. unfold documents_save. rewrite firstUsable_cases. cbn zeta.
  assert (Hother : forall st' : Firestore.Collection Firestore.DocumentData
                                * I,
            snd (let '(i, r) := memorySave docData (snd st') in
                 ((fst st', i), r)) <> None).
  { intro st'. specialize (Hmem docData (snd st')).
    now destruct (memorySave docData (snd st')). }
  destruct (String.eqb (DATABASE_PROVIDER cfg) "firebase") eqn:Ep.
  - rewrite orb_true_r, andb_true_r.
    rewrite (pinned_not_mongo cfg Ep).
    apply String.eqb_eq in Ep. unfold triesFirebase. rewrite Ep.
    replace (String.eqb "firebase" "firebase"
             || String.eqb "firebase" "both") with true by reflexivity.
    rewrite andb_true_r.
    destruct (firebaseEnabled cfg); cbn [snd].
    + tauto.
    + split; [intro H; exfalso; exact (Hother (_, _) H)
             | intros [H _]; discriminate].
  - rewrite orb_false_r. apply String.eqb_neq in Ep.
    split; [|intros (_ & H & _); contradiction].
    intro H. exfalso.
    destruct (triesFirebase cfg
              && isObject (snd (Firestore.saveDocument env docData
                                  (fst st)))) eqn:E.
    + apply andb_true_iff in E as [_ E]. cbn [snd] in H.
      rewrite H in E. discriminate.
    + destruct (triesMongo cfg).
      * destruct (isObject (snd (memorySave docData (snd st)))) eqn:E2.
        -- cbn [snd] in H. now apply (Hmem docData (snd st)).
        -- exact (Hother (_, _) H).
      * exact (Hother (_, _) H).
Qed.

Lemma documents_save_null_witness :
  firebaseEnabled (mkConfig "firebase" true true) = true
  /\ DATABASE_PROVIDER (mkConfig "firebase" true true) = "firebase"
  /\ snd (Firestore.saveDocument firestoreDown Firestore.annLease [])
     = None.
Proof.
  apply (documents_save_null (mkConfig "firebase" true true) firestoreDown
           listSave Firestore.annLease ([], [])).
  - intros d i. discriminate.
  - reflexivity.
Defined.

Lemma users_routes (cfg : Config) (env : Firestore.Env)
  (userData : FirestoreOps.UserInput) (email : string)
  (st : Firestore.Collection FirestoreOps.StoredUser * unit) :
  users_upsert cfg env userData st
  = (if triesFirebase cfg
     then ((fst (FirestoreOps.upsertUser env userData (fst st)), snd st),
           snd (FirestoreOps.upsertUser env userData (fst st)))
     else (st, None))
  /\ users_getByEmail cfg env email st
     = (st, if triesFirebase cfg
            then FirestoreOps.getUserByEmail env email (fst st)
            else None)
  /\ users_getAll cfg env st
     = (st, if triesFirebase cfg
            then FirestoreOps.getAllUsers env (fst st)
            else []).
Proof.
  unfold users_upsert, users_getByEmail, users_getAll.
  rewrite !firstUsable_cases. cbn [fst snd isObject nonEmpty List.length].
  destruct st as [users m].
  destruct (triesFirebase cfg), (triesMongo cfg); cbn [andb fst snd];
    repeat split;
    try (destruct (FirestoreOps.upsertUser env userData users) as [u [r|]]);
    try (destruct (FirestoreOps.getUserByEmail env email users));
    try (destruct (FirestoreOps.getAllUsers env users));
    cbn; try reflexivity;
    destruct (String.eqb (DATABASE_PROVIDER cfg) "firebase"); reflexivity.
Qed.

(** X19: the placeholders of the second store never answer, so the user
    operations answer what Firestore answers when it is among the
    providers tried, and nothing otherwise; the second store is left as
    it is. *)
Theorem users_only_from_firestore (cfg : Config) (env : Firestore.Env)
  (userData : FirestoreOps.UserInput) (email : string)
  (st : Firestore.Collection FirestoreOps.StoredUser * unit) :
  users_upsert cfg env userData st
  = (if triesFirebase cfg
     then ((fst (FirestoreOps.upsertUser env userData (fst st)), snd st),
           snd (FirestoreOps.upsertUser env userData (fst st)))
     else (st, None))
  /\ users_getByEmail cfg env email st
     = (st, if triesFirebase cfg
            then FirestoreOps.getUserByEmail env email (fst st)
            else None)
  /\ users_getAll cfg env st
     = (st, if triesFirebase cfg
            then FirestoreOps.getAllUsers env (fst st)
            else []).
Proof.
  apply users_routes.
Qed.

Lemma triesFirebase_enabled (cfg : Config) :
  triesFirebase cfg = true -> firebaseEnabled cfg = true.
Proof.
  unfold triesFirebase. now intros [H _]%andb_true_iff.
Qed.

(** X20: in a process where one of the six Firebase variables is missing
    or empty, whatever [DATABASE_PROVIDER] says, [users.upsert] answers
    [null] and the two deletes answer [false], and nothing is written. *)
Theorem without_firebase_nothing_persists (penv : ProcessEnv)
  (env : Firestore.Env) (userData : FirestoreOps.UserInput) (ref : string)
  (users : Firestore.Collection FirestoreOps.StoredUser)
  (db : Firestore.Db) :
  FIREBASE_ENABLED penv = false ->
  users_upsert (config penv) env userData (users, tt) = ((users, tt), None)
  /\ chats_delete (config penv) (firebaseOps env) mongoOps ref (db, tt)
     = ((db, tt), false)
  /\ users_delete (config penv) (firebaseOps env) mongoOps ref (db, tt)
     = ((db, tt), false).
Proof.
  intro Hoff.
  assert (Ht : triesFirebase (config penv) = false).
  { destruct (triesFirebase (config penv)) eqn:E; [|reflexivity].
    apply triesFirebase_enabled in E. cbn in E. congruence. }
  split; [|split].
  - destruct (users_routes (config penv) env userData "" (users, tt))
      as [H _].
    rewrite H, Ht. reflexivity.
  - unfold chats_delete. rewrite deleteVia_or, Ht. cbn.
    now destruct (triesMongo (config penv)).
  - unfold users_delete. rewrite deleteVia_or, Ht. cbn.
    now destruct (triesMongo (config penv)).
Qed.

Lemma without_firebase_nothing_persists_witness :
  users_upsert (config bareProcess) Firestore.firstCall FirestoreOps.annFirst
               ([], tt)
  = (([], tt), None).
Proof.
  apply (without_firebase_nothing_persists bareProcess Firestore.firstCall
           FirestoreOps.annFirst "" [] emptyDb).
  reflexivity.
Defined.

(** X21: the MongoDB flag is on in every process, set or not, since the
    URI has a default; a missing or empty [DATABASE_PROVIDER] selects
    ["mongodb"], where Firestore is never tried. *)
Theorem config_defaults (penv : ProcessEnv) :
  mongodbEnabled (config penv) = true
  /\ (QA.truthy (DATABASE_PROVIDER_var penv) = false ->
      DATABASE_PROVIDER (config penv) = "mongodb"
      /\ triesMongo (config penv) = true
      /\ triesFirebase (config penv) = false).
Proof.
  assert (Hm : mongodbEnabled (config penv) = true).
  { cbn. unfold MONGODB_URI, QA.orElse, QA.truthy.
    destruct (MONGODB_URI_var penv) as [u|]; [|reflexivity].
    destruct (0 <? String.length u) eqn:E; [exact E | reflexivity]. }
  split; [exact Hm|]. intro Hp.
  assert (Hd : DATABASE_PROVIDER (config penv) = "mongodb")
    by (cbn; unfold QA.orElse; now rewrite Hp).
  unfold triesMongo, triesFirebase. rewrite Hm, Hd. cbn.
  repeat split. apply andb_false_r.
Qed.

Lemma config_defaults_witness :
  DATABASE_PROVIDER (config bareProcess) = "mongodb"
  /\ triesMongo (config bareProcess) = true
  /\ triesFirebase (config bareProcess) = false.
Proof.
  apply (config_defaults bareProcess). reflexivity.
Defined.

Lemma tries_known_provider (cfg : Config) :
  triesFirebase cfg = true \/ triesMongo cfg = true ->
  DATABASE_PROVIDER cfg = "firebase" \/ DATABASE_PROVIDER cfg = "mongodb"
  \/ DATABASE_PROVIDER cfg = "both".
Proof.
  unfold triesFirebase, triesMongo.
  intros [H|H]; apply andb_true_iff in H as [_ H];
    apply orb_true_iff in H as [H|H]; apply String.eqb_eq in H; tauto.
Qed.

(** X22: with a [DATABASE_PROVIDER] that is none of ["firebase"],
    ["mongodb"] and ["both"], no store is called: the deletes answer
    [false], [users.upsert] answers [null], and a document goes to the
    in-memory store. *)
Theorem unknown_provider_calls_no_store {I : Type} (cfg : Config)
  (env : Firestore.Env) (userData : FirestoreOps.UserInput) (ref : string)
  (memorySave : Firestore.DocInput -> I
                -> I * option Firestore.FirebaseDocument)
  (docData : Firestore.DocInput)
  (users : Firestore.Collection FirestoreOps.StoredUser)
  (docs : Firestore.Collection Firestore.DocumentData) (i : I)
  (db : Firestore.Db) :
  DATABASE_PROVIDER cfg <> "firebase" ->
  DATABASE_PROVIDER cfg <> "mongodb" ->
  DATABASE_PROVIDER cfg <> "both" ->
  users_upsert cfg env userData (users, tt) = ((users, tt), None)
  /\ chats_delete cfg (firebaseOps env) mongoOps ref (db, tt)
     = ((db, tt), false)
  /\ documents_save cfg env memorySave docData (docs, i)
     = ((docs, fst (memorySave docData i)), snd (memorySave docData i)).
Proof.
  intros H1 H2 H3.
  assert (Hf : triesFirebase cfg = false).
  { destruct (triesFirebase cfg) eqn:E; [|reflexivity].
    destruct (tries_known_provider cfg (or_introl E)) as [|[|]];
      contradiction. }
  assert (Hm : triesMongo cfg = false).
  { destruct (triesMongo cfg) eqn:E; [|reflexivity].
    destruct (tries_known_provider cfg (or_intror E)) as [|[|]];
      contradiction. }
  split; [|split].
  - unfold users_upsert. rewrite firstUsable_cases, Hf, Hm. reflexivity.
  - unfold chats_delete. rewrite deleteVia_or, Hf, Hm. reflexivity.
  - unfold documents_save. rewrite firstUsable_cases, Hf, Hm. cbn.
    now destruct (memorySave docData i).
Qed.

Lemma unknown_provider_calls_no_store_witness :
  documents_save (mkConfig "postgres" true true) Firestore.firstCall
                 listSave Firestore.annLease ([], [])
  = (([], fst (listSave Firestore.annLease [])),
     snd (listSave Firestore.annLease [])).
Proof.
  apply (unknown_provider_calls_no_store (mkConfig "postgres" true true)
           Firestore.firstCall FirestoreOps.annFirst "" listSave
           Firestore.annLease [] [] [] emptyDb);
    discriminate.
Defined.

(** X23: when Firestore is among the providers tried and reachable, a user
    upserted through the service is found through the service by e-mail,
    with the name of the upsert. *)
Theorem users_upsert_then_getByEmail (cfg : Config) (env env' : Firestore.Env)
  (userData : FirestoreOps.UserInput)
  (st : Firestore.Collection FirestoreOps.StoredUser * unit) :
  triesFirebase cfg = true ->
  FirestoreOps.uniqueIds (fst st) ->
  Firestore.reachable env ->
  Firestore.isAvailable env' = true -> Firestore.getDocsOk env' = true ->
  exists ref stored,
    snd (users_getByEmail cfg env' (FirestoreOps.uEmail userData)
           (fst (users_upsert cfg env userData st)))
    = Some (ref, stored)
    /\ FirestoreOps.uEmail (FirestoreOps.fields stored)
       = FirestoreOps.uEmail userData
    /\ FirestoreOps.uName (FirestoreOps.fields stored)
       = FirestoreOps.uName userData.
Proof.
  intros Ht Hids Hr Ha Hg.
  destruct (users_routes cfg env userData "" st) as [Hu _].
  rewrite Hu, Ht. cbn [fst].
  destruct (users_routes cfg env' userData
              (FirestoreOps.uEmail userData)
              (fst (FirestoreOps.upsertUser env userData (fst st)), snd st))
    as (_ & Hgt & _).
  rewrite Hgt, Ht. cbn [fst snd].
  destruct (StoreFacts.upsertUser_lookup env env' userData (fst st)
              Hids Hr Ha Hg) as (ref & stored & Hl & He & Hn & _).
  now exists ref, stored.
Qed.

Lemma users_upsert_then_getByEmail_witness :
  exists ref stored,
    snd (users_getByEmail (config dualProcess) Firestore.secondCall
           "ann@example.org"
           (fst (users_upsert (config dualProcess) Firestore.firstCall
                   FirestoreOps.annFirst ([], tt))))
    = Some (ref, stored)
    /\ FirestoreOps.uEmail (FirestoreOps.fields stored) = "ann@example.org"
    /\ FirestoreOps.uName (FirestoreOps.fields stored) = "Ann".
Proof.
  apply (users_upsert_then_getByEmail (config dualProcess)
           Firestore.firstCall Firestore.secondCall FirestoreOps.annFirst
           ([], tt)).
  - reflexivity.
  - constructor.
  - repeat split.
  - reflexivity.
  - reflexivity.
Defined.

End RouterFacts.

(** ** More on the summarisation route *)

Module SummarizeRouteFacts.

Import Js Summarize SummarizeRoute.

(** *** Trimming *)

Lemma trimStart_length (s : string) :
  String.length (trimStart s) <= String.length s.
Proof.
  induction s as [|c s IH]; cbn; [lia|].
  destruct (isSpace c); cbn; lia.
Qed.

Lemma trimEnd_length (s : string) :
  String.length (trimEnd s) <= String.length s.
Proof.
  induction s as [|c s IH]; cbn [trimEnd String.length]; [lia|].
  destruct (isSpace c && (String.length (trimEnd s) =? 0));
    cbn [String.length]; lia.
Qed.

Lemma trimEnd_idempotent (s : string) : trimEnd (trimEnd s) = trimEnd s.
Proof.
  induction s as [|c s IH]; [reflexivity|]. cbn [trimEnd].
  destruct (isSpace c && (String.length (trimEnd s) =? 0)) eqn:E;
    [reflexivity|].
  cbn [trimEnd]. now rewrite IH, E.
Qed.

Lemma trimStart_startsClean (s : string) : startsClean (trimStart s).
Proof.
  induction s as [|c s IH]; cbn; [exact I|].
  destruct (isSpace c) eqn:E; [exact IH | exact E].
Qed.

Lemma trimStart_fixed (s : string) : startsClean s -> trimStart s = s.
Proof.
  destruct s as [|c s]; cbn; [reflexivity|]. now intros ->.
Qed.

Lemma trimEnd_startsClean (s : string) :
  startsClean s -> startsClean (trimEnd s).
Proof.
  destruct s as [|c s]; cbn; [trivial|]. intro H. now rewrite H.
Qed.

Lemma trim_startsClean (s : string) : startsClean (trim s).
Proof. apply trimEnd_startsClean, trimStart_startsClean. Qed.

Lemma trim_idempotent (s : string) : trim (trim s) = trim s.
Proof.
  unfold trim at 1.
  rewrite (trimStart_fixed (trim s)) by apply trim_startsClean.
  apply trimEnd_idempotent.
Qed.

Lemma trim_length (s : string) : String.length (trim s) <= String.length s.
Proof.
  unfold trim. pose proof (trimEnd_length (trimStart s)).
  pose proof (trimStart_length s). lia.
Qed.

Lemma removeFrom_length (phrase : string) (skip : nat) (s : string) :
  String.length (removeFrom phrase skip s) <= String.length s.
Proof.
  revert skip. induction s as [|c s IH]; intro skip; cbn [removeFrom];
    [cbn; lia|].
  destruct skip as [|k].
  - destruct (prefix phrase (toLowerCase (String c s))).
    + specialize (IH (String.length phrase - 1)). cbn [String.length]. lia.
    + specialize (IH 0). cbn [String.length]. lia.
  - specialize (IH k). cbn [String.length]. lia.
Qed.

Lemma removeAll_fold_length (phrases : list string) (s : string) :
  String.length
    (fold_left (fun refined phrase => removeAll phrase refined) phrases s)
  <= String.length s.
Proof.
  revert s. induction phrases as [|p phrases IH]; intro s; cbn [fold_left];
    [lia|].
  specialize (IH (removeAll p s)).
  pose proof (removeFrom_length p 0 s). unfold removeAll in *. lia.
Qed.

(** X24: a refined summary is never longer than the summary, and it has no
    whitespace at either end. *)
Theorem refineSummary_spec (summary : string) :
  String.length (refineSummary summary) <= String.length summary
  /\ trim (refineSummary summary) = refineSummary summary.
Proof.
  unfold refineSummary. split.
  - pose proof (trim_length
                  (fold_left (fun refined phrase => removeAll phrase refined)
                             unwantedPhrases summary)).
    pose proof (removeAll_fold_length unwantedPhrases summary). lia.
  - apply trim_idempotent.
Qed.

(** *** Normalised text *)

Lemma splitRuns_nonempty (isSep : ascii -> bool) (b : bool) (s : string) :
  splitRuns isSep b s <> [].
Proof.
  revert b. induction s as [|c s IH]; intro b; cbn [splitRuns];
    [discriminate|].
  destruct (isSep c); [destruct b; [apply IH | discriminate]|].
  specialize (IH false). destruct (splitRuns isSep false s);
    [congruence | discriminate].
Qed.

Lemma consHead_tail (c : ascii) (l : list string) :
  l <> [] ->
  exists p, consHead c l = String c p :: tl l.
Proof.
  destruct l as [|p l]; [congruence|]. intros _. now exists p.
Qed.

(** The text cut at its end: its last character is no whitespace. *)
Lemma trimEnd_fixed_cons (c : ascii) (s : string) :
  trimEnd (String c s) = String c s ->
  trimEnd s = s /\ (isSpace c = true -> s <> "").
Proof.
  cbn [trimEnd].
  destruct (isSpace c && (String.length (trimEnd s) =? 0)) eqn:E;
    [discriminate|].
  intro H. injection H as Hs. split; [exact Hs|].
  intros Hc ->. rewrite Hc in E. discriminate.
Qed.

Lemma pieces_of_trimmed (s : string) :
  trimEnd s = s ->
  Forall (fun w => w <> "") (tl (splitRuns isSpace false s))
  /\ (s <> "" -> Forall (fun w => w <> "") (splitRuns isSpace true s)).
Proof.
  induction s as [|c s IH]; intro H.
  - split; [constructor | congruence].
  - apply trimEnd_fixed_cons in H as [Hs Hc].
    destruct (IH Hs) as [IHa IHb]. cbn [splitRuns].
    destruct (isSpace c) eqn:E.
    + split; [|intros _]; apply IHb; now apply Hc.
    + destruct (consHead_tail c (splitRuns isSpace false s)
                  (splitRuns_nonempty _ _ _)) as [p ->].
      split; [exact IHa|]. intros _. constructor; [discriminate | exact IHa].
Qed.

(** The words of a trimmed text: none is empty, unless the text is. *)
Lemma words_of_trimmed (text : string) :
  trim text = ""
  \/ Forall (fun w => w <> "" /\ Transcript.hasChar isSpace w = false)
            (splitWs (trim text)).
Proof.
  pose proof (trim_startsClean text) as Hstart.
  assert (Hend : trimEnd (trim text) = trim text)
    by apply trimEnd_idempotent.
  destruct (trim text) as [|c u] eqn:E; [now left|]. right.
  cbn in Hstart.
  pose proof (RouteFacts.splitRuns_pieces isSpace false (String c u)) as Hp.
  destruct (pieces_of_trimmed _ Hend) as [Ha _].
  unfold splitWs in *. cbn [splitRuns] in *. rewrite Hstart in *.
  destruct (consHead_tail c (splitRuns isSpace false u)
              (splitRuns_nonempty _ _ _)) as [p Hc].
  rewrite Hc in *. cbn [tl] in Ha. inversion Hp as [|? ? Hp1 Hp2]; subst.
  constructor; [split; [discriminate | exact Hp1]|].
  rewrite Forall_forall in *. intros w Hw. split; [now apply Ha|].
  now apply Hp2.
Qed.

Lemma splitRuns_word (w : string) :
  Transcript.hasChar isSpace w = false -> splitRuns isSpace false w = [w].
Proof.
  induction w as [|c w IH]; [reflexivity|]. cbn.
  intros [Hc Hw]%orb_false_iff. rewrite Hc, (IH Hw). reflexivity.
Qed.

Lemma splitRuns_word_then (w r : string) :
  Transcript.hasChar isSpace w = false ->
  splitRuns isSpace false (w ++ String " " r)
  = w :: splitRuns isSpace true r.
Proof.
  induction w as [|c w IH]; [reflexivity|]. cbn.
  intros [Hc Hw]%orb_false_iff. rewrite Hc, (IH Hw). reflexivity.
Qed.

Lemma splitRuns_after_run (s : string) :
  s <> "" -> startsClean s ->
  splitRuns isSpace true s = splitRuns isSpace false s.
Proof.
  destruct s as [|c s]; [congruence|]. cbn. now intros _ ->.
Qed.

Lemma trimEnd_before (p tail : string) :
  tail <> "" -> trimEnd tail = tail -> trimEnd (p ++ tail) = (p ++ tail)%string.
Proof.
  intros Hne Hfix. induction p as [|c p IH]; [exact Hfix|].
  cbn [append trimEnd]. rewrite IH.
  replace (String.length (p ++ tail) =? 0) with false;
    [now rewrite andb_false_r|].
  symmetry. apply Nat.eqb_neq. rewrite QAFacts.length_append.
  destruct tail; [congruence | cbn; lia].
Qed.

Lemma trimEnd_word (w : string) :
  Transcript.hasChar isSpace w = false -> trimEnd w = w.
Proof.
  induction w as [|c w IH]; [reflexivity|]. cbn.
  intros [Hc Hw]%orb_false_iff. now rewrite Hc, (IH Hw).
Qed.

Lemma word_startsClean (w tail : string) :
  w <> "" -> Transcript.hasChar isSpace w = false ->
  startsClean (w ++ tail) /\ (w ++ tail)%string <> "".
Proof.
  destruct w as [|c w]; [congruence|]. cbn.
  intros _ [Hc _]%orb_false_iff. split; [exact Hc | discriminate].
Qed.

(** A text of words with single spaces between them is its own
    normalisation. *)
Lemma words_joined (ws : list string) :
  ws <> [] ->
  Forall (fun w => w <> "" /\ Transcript.hasChar isSpace w = false) ws ->
  splitWs (join " " ws) = ws
  /\ trimEnd (join " " ws) = join " " ws
  /\ startsClean (join " " ws) /\ join " " ws <> "".
Proof.
  induction ws as [|w ws IH]; [congruence|]. intros _ Hall.
  inversion Hall as [|? ? [Hne Hw] Hrest]; subst.
  destruct ws as [|w2 ws].
  - cbn [join String.concat].
    split; [now apply splitRuns_word|].
    split; [now apply trimEnd_word|].
    destruct w; [congruence|]. cbn in *.
    apply orb_false_iff in Hw as [Hc _]. split; [exact Hc | discriminate].
  - destruct (IH ltac:(discriminate) Hrest) as (Hs & He & Hc & Hn).
    change (join " " (w :: w2 :: ws))
      with (w ++ String " " (join " " (w2 :: ws)))%string.
    split; [|split].
    + unfold splitWs in *. rewrite splitRuns_word_then by exact Hw.
      rewrite splitRuns_after_run by assumption. now rewrite Hs.
    + apply trimEnd_before; [discriminate|].
      change (String " " (join " " (w2 :: ws)))
        with (" " ++ join " " (w2 :: ws))%string.
      now apply trimEnd_before.
    + now apply word_startsClean.
Qed.

(** X25: normalising a normalised text changes nothing. *)
Theorem cleanText_idempotent (text : string) :
  cleanText (cleanText text) = cleanText text.
Proof.
  change (cleanText text) with (join " " (splitWs (trim text))).
  destruct (words_of_trimmed text) as [E|Hw].
  - rewrite E. reflexivity.
  - destruct (words_joined (splitWs (trim text))
                (splitRuns_nonempty _ _ _) Hw) as (Hs & He & Hc & _).
    assert (Ht : trim (join " " (splitWs (trim text)))
                 = join " " (splitWs (trim text))).
    { generalize dependent (join " " (splitWs (trim text))).
      intros j _ He Hc. unfold trim. now rewrite (trimStart_fixed j Hc). }
    unfold cleanText. now rewrite Ht, Hs.
Qed.

(** *** The route *)

Lemma forallb_isSome_map (A : Type) (f : A -> option string) (l : list A) :
  forallb isSome (map f l) = forallb (fun x => isSome (f x)) l.
Proof.
  induction l as [|x l IH]; [reflexivity|].
  cbn [map forallb]. now rewrite IH.
Qed.

(** The summaries are all strings exactly when they are usable. *)
Lemma summarizeReplies_usable (summarizer : string -> Reply)
  (chunks : list string) :
  forallb isSome (summarizeReplies summarizer chunks)
  = summariesUsable summarizer chunks.
Proof.
  unfold summarizeReplies, summariesUsable.
  destruct (forallb (fun chunk => answered (summarizer chunk)) chunks);
    cbn [negb orb]; rewrite forallb_isSome_map; [reflexivity|].
  induction chunks as [|c chunks IH]; [reflexivity|].
  cbn [forallb isSome]. exact IH.
Qed.

Lemma refineAll_strings (summaries : list (option string)) :
  match refineAll summaries with
  | Some refined =>
      forallb isSome summaries = true
      /\ List.length refined = List.length summaries
  | None => forallb isSome summaries = false
  end.
Proof.
  induction summaries as [|[s|] rest IH]; cbn [refineAll forallb isSome];
    [split; reflexivity | | reflexivity].
  destruct (refineAll rest); cbn [andb List.length]; [|exact IH].
  destruct IH as [-> ->]. split; reflexivity.
Qed.

(** With a server that puts a summary into every answer, the summaries
    are those of [summarizeChunks]. *)
Lemma summarizeReplies_summarizeChunks (summarizer : string -> Reply)
  (chunks : list string) :
  (forall chunk, In chunk chunks -> summarizer chunk <> NoSummary) ->
  summarizeReplies summarizer chunks
  = map Some (summarizeChunks (remoteOf summarizer) chunks).
Proof.
  intro Hwell.
  assert (Hall :
    match promiseAll (remoteOf summarizer) chunks with
    | Some summaries =>
        forallb (fun chunk => answered (summarizer chunk)) chunks = true
        /\ map (fun chunk => summaryOf (summarizer chunk)) chunks
           = map Some summaries
    | None =>
        forallb (fun chunk => answered (summarizer chunk)) chunks = false
    end).
  { induction chunks as [|c chunks IH]; [split; reflexivity|].
    cbn [promiseAll forallb map]. unfold remoteOf at 1.
    assert (Hc : summarizer c <> NoSummary) by (apply Hwell; now left).
    specialize (IH (fun chunk Hin => Hwell chunk (or_intror Hin))).
    destruct (summarizer c) as [| |summary]; cbn [summaryOf answered andb];
      [reflexivity | contradiction |].
    destruct (promiseAll (remoteOf summarizer) chunks); [|exact IH].
    destruct IH as [-> ->]. split; reflexivity. }
  unfold summarizeReplies, summarizeChunks.
  destruct (promiseAll (remoteOf summarizer) chunks).
  - destruct Hall as [-> ->]. reflexivity.
  - rewrite Hall. now rewrite map_map.
Qed.

(** What the route does with an upload that has passed the checks. *)
Lemma POST_accepted (env : Env) (req : Request) (f : File) :
  accepted req f ->
  let cleanedText := cleanText (fileText f) in
  let saved :=
    [mkSaveCall
       (QA.valueOf (QA.orElse (sessionEmail req) (userIdHeader req)))
       (if QA.truthy (fingerprintField req)
        then QA.valueOf (fingerprintField req)
        else generateFingerprint env (fileText f))
       (fileName f) (fileSize f) (fileText f)] in
  POST env (Some req)
  = if List.length (splitWs cleanedText) <? 100
    then (mkResponse 400 tooShort, saved)
    else
      match refineAll (summarizeReplies (summarizer env)
                         (chunkText cleanedText 1000)) with
      | Some refined =>
          (mkResponse 200
             (SummaryBody (fileName f) (fileSize f)
                          (structuredSummary refined) (preview cleanedText)),
           saved)
      | None => (failure500, saved)
      end.
Proof.
  intros (Hf & Hn & Ht & Hu). unfold POST. rewrite Hf, Hn, Hu.
  apply Nat.eqb_neq in Ht. rewrite Ht. reflexivity.
Qed.

(** An upload that has not passed them is answered without a call of
    [saveDocument], with 400, 401 or 500. *)
Lemma POST_refused (env : Env) (form : option Request) :
  (forall req f, form = Some req -> ~ accepted req f) ->
  snd (POST env form) = []
  /\ status (fst (POST env form)) <> 200
  /\ body (fst (POST env form)) <> tooShort
  /\ (status (fst (POST env form)) = 500
      <-> form = None
          \/ exists req value,
               form = Some req /\ file req = TextField value
               /\ value <> "").
Proof.
  intro Hno. unfold POST. destruct form as [req|].
  2:{ cbn. repeat split; try discriminate; auto. }
  destruct (file req) as [|value|f] eqn:Ef.
  - cbn. repeat split; try discriminate.
    intros [H|(r & v & Hr & Hv & _)]; [discriminate|].
    injection Hr as <-. congruence.
  - destruct value as [|c value]; cbn.
    + repeat split; try discriminate.
      intros [H|(r & v & Hr & Hv & Hne)]; [discriminate|].
      injection Hr as <-. rewrite Ef in Hv. injection Hv as <-.
      now contradiction Hne.
    + repeat split; try discriminate. intros _. right.
      exists req, (String c value). repeat split; [assumption|discriminate].
  - assert (Hrest : forall r : Response * list SaveCall,
              status (fst r) <> 500 ->
              (status (fst r) = 500
               <-> Some req = None
                   \/ exists req' value,
                        Some req = Some req' /\ file req' = TextField value
                        /\ value <> "")).
    { intros r Hr. split; [contradiction|].
      intros [H|(r' & v & Hr' & Hv & _)]; [discriminate|].
      injection Hr' as <-. congruence. }
    destruct (endsWith (fileName f) ".txt") eqn:En; cbn [negb].
    + destruct (String.length (trim (fileText f)) =? 0) eqn:Et.
      * cbn [fst snd status body]. repeat split; try discriminate;
          apply (Hrest (mkResponse 400 (ErrorBody "The file is empty"), []));
          discriminate.
      * destruct (QA.truthy (QA.orElse (sessionEmail req)
                                       (userIdHeader req))) eqn:Eu;
          cbn [negb].
        -- exfalso. apply (Hno req f eq_refl).
           apply Nat.eqb_neq in Et. now repeat split.
        -- cbn [fst snd status body]. repeat split; try discriminate;
             apply (Hrest (mkResponse 401 (ErrorBody ""), [])); discriminate.
    + cbn [fst snd status body]. repeat split; try discriminate;
        apply (Hrest (mkResponse 400 (ErrorBody ""), [])); discriminate.
Qed.

Lemma accepted_or_not (form : option Request) :
  (exists req f, form = Some req /\ accepted req f)
  \/ (forall req f, form = Some req -> ~ accepted req f).
Proof.
  destruct form as [req|]; [|right; intros r f H; discriminate].
  destruct (file req) as [|value|f] eqn:Ef;
    try (right; intros r f' Hr (Hf & _); injection Hr as <-; congruence).
  destruct (endsWith (fileName f) ".txt") eqn:En.
  2:{ right. intros r f' Hr (Hf & Hn & _). injection Hr as <-.
      rewrite Ef in Hf. injection Hf as <-. congruence. }
  destruct (String.length (trim (fileText f)) =? 0) eqn:Et.
  { right. intros r f' Hr (Hf & _ & Ht & _). injection Hr as <-.
    rewrite Ef in Hf. injection Hf as <-. apply Nat.eqb_eq in Et.
    contradiction. }
  destruct (QA.truthy (QA.orElse (sessionEmail req) (userIdHeader req)))
    eqn:Eu.
  - left. exists req, f. apply Nat.eqb_neq in Et. now repeat split.
  - right. intros r f' Hr (_ & _ & _ & Hu). injection Hr as <-. congruence.
Qed.

Lemma accepted_file (req : Request) (f f' : File) :
  accepted req f -> accepted req f' -> f = f'.
Proof. intros (Hf & _) (Hf' & _). congruence. Qed.

(** X26: for a multipart request whose fingerprint field is a text or
    missing, and with a session lookup that answers: the route answers
    200 exactly when the file field is an upload whose name ends in
    [.txt], the caller has a session e-mail or an [X-User-ID] header, the
    normalised text has at least 100 words, and the summaries are usable,
    that is, the server failed on some chunk, so that the fallback wrote
    them all, or it sent a string for every chunk.  It answers 500
    exactly when the form cannot be read, or the file field is a text
    that is not empty, or the upload passes all those checks and the
    server answered every chunk but one of them without a string
    summary. *)
Theorem POST_success (env : Env) (form : option Request) :
  (status (fst (POST env form)) = 200
   <-> exists req f,
         form = Some req /\ accepted req f
         /\ 100 <= List.length (splitWs (cleanText (fileText f)))
         /\ summariesUsable (summarizer env)
              (chunkText (cleanText (fileText f)) 1000) = true)
  /\ (status (fst (POST env form)) = 500
      <-> form = None
          \/ (exists req value,
                form = Some req /\ file req = TextField value
                /\ value <> "")
          \/ (exists req f,
                form = Some req /\ accepted req f
                /\ 100 <= List.length (splitWs (cleanText (fileText f)))
                /\ summariesUsable (summarizer env)
                     (chunkText (cleanText (fileText f)) 1000) = false)).
Proof.
  destruct (accepted_or_not form) as [(req & f & -> & Hacc)|Hno].
  - rewrite (POST_accepted env req f Hacc). cbv zeta.
    pose proof (refineAll_strings
                  (summarizeReplies (summarizer env)
                     (chunkText (cleanText (fileText f)) 1000))) as Hr.
    rewrite summarizeReplies_usable in Hr.
    destruct (List.length (splitWs (cleanText (fileText f))) <? 100) eqn:Ew.
    + apply Nat.ltb_lt in Ew. cbn [fst status]. split.
      * split; [discriminate|]. intros (r & f' & Hr' & Hacc' & Hw & _).
        injection Hr' as <-.
        rewrite <- (accepted_file _ _ _ Hacc Hacc') in Hw. lia.
      * split; [discriminate|].
        intros [H|[(r & v & Hr' & Hv & _)|(r & f' & Hr' & Hacc' & Hw & _)]];
          [discriminate| |].
        -- injection Hr' as <-. destruct Hacc as (Hf & _). congruence.
        -- injection Hr' as <-.
           rewrite <- (accepted_file _ _ _ Hacc Hacc') in Hw. lia.
    + apply Nat.ltb_ge in Ew.
      destruct (refineAll (summarizeReplies (summarizer env)
                  (chunkText (cleanText (fileText f)) 1000)));
        cbn [fst status failure500].
      * destruct Hr as [Hu _]. split.
        -- split; [|reflexivity]. intros _. exists req, f.
           split; [reflexivity|]. split; [exact Hacc|]. split; assumption.
        -- split; [discriminate|].
           intros [H|[(r & v & Hr' & Hv & _)|(r & f' & Hr' & Hacc' & _ & Hn)]];
             [discriminate| |].
           ++ injection Hr' as <-. destruct Hacc as (Hf & _). congruence.
           ++ injection Hr' as <-.
              rewrite <- (accepted_file _ _ _ Hacc Hacc') in Hn. congruence.
      * split.
        -- split; [discriminate|]. intros (r & f' & Hr' & Hacc' & _ & Hu).
           injection Hr' as <-.
           rewrite <- (accepted_file _ _ _ Hacc Hacc') in Hu. congruence.
        -- split; [|reflexivity]. intros _. right. right.
           exists req, f.
           split; [reflexivity|]. split; [exact Hacc|]. split; assumption.
  - destruct (POST_refused env form Hno) as (_ & H200 & _ & H500). split.
    + split; [contradiction|]. intros (req & f & Hr & Hacc & _).
      now destruct (Hno req f Hr).
    + rewrite H500. split.
      * intros [H|H]; [now left | right; now left].
      * intros [H|[H|(req & f & Hr & Hacc & _)]];
          [now left | now right | now destruct (Hno req f Hr)].
Qed.

Lemma POST_success_witness :
  status (fst (POST plainEnv (Some longUpload))) = 200
  /\ status (fst (POST silentEnv (Some longUpload))) = 500.
Proof.
  assert (Hacc : accepted longUpload
                   (mkFile "lease.txt" 500 (wordsOf "word" 120))).
  { repeat split. discriminate. }
  assert (Hw : 100 <= List.length
                        (splitWs (cleanText (wordsOf "word" 120)))).
  { apply Nat.leb_le. vm_compute. reflexivity. }
  split.
  - apply (POST_success plainEnv (Some longUpload)).
    exists longUpload, (mkFile "lease.txt" 500 (wordsOf "word" 120)).
    split; [reflexivity|]. split; [exact Hacc|]. split; [exact Hw|].
    vm_compute. reflexivity.
  - apply (POST_success silentEnv (Some longUpload)). right. right.
    exists longUpload, (mkFile "lease.txt" 500 (wordsOf "word" 120)).
    split; [reflexivity|]. split; [exact Hacc|]. split; [exact Hw|].
    vm_compute. reflexivity.
Defined.

(** X27: under the same premises, [saveDocument] is called, once, exactly
    when the file field is an upload whose name ends in [.txt], whose
    text is not blank, from a caller with a session e-mail or an
    [X-User-ID] header.  The call comes before the check of the length
    and before the summaries: it has been made whenever the response is
    200, and also when the text is rejected as too short and when the
    route ends in 500 because a summary is no string.  The call carries
    the text as uploaded, and the fingerprint of the form when there is
    one, else the generated fingerprint of that text. *)
Theorem POST_saves (env : Env) (form : option Request) :
  (snd (POST env form) <> []
   <-> exists req f, form = Some req /\ accepted req f)
  /\ List.length (snd (POST env form)) <= 1
  /\ (forall call,
        In call (snd (POST env form)) ->
        exists req f,
          form = Some req
          /\ file req = FileUpload f
          /\ savedContent call = fileText f
          /\ savedName call = fileName f
          /\ savedUserId call
             = QA.valueOf (QA.orElse (sessionEmail req) (userIdHeader req))
          /\ savedFingerprint call
             = (if QA.truthy (fingerprintField req)
                then QA.valueOf (fingerprintField req)
                else generateFingerprint env (fileText f)))
  /\ (status (fst (POST env form)) = 200
      \/ body (fst (POST env form)) = tooShort ->
      snd (POST env form) <> [])
  /\ (forall req f,
        form = Some req -> accepted req f ->
        100 <= List.length (splitWs (cleanText (fileText f))) ->
        summariesUsable (summarizer env)
          (chunkText (cleanText (fileText f)) 1000) = false ->
        fst (POST env form) = failure500
        /\ snd (POST env form) <> []).
Proof.
  destruct (accepted_or_not form) as [(req & f & -> & Hacc)|Hno].
  - rewrite (POST_accepted env req f Hacc). cbv zeta.
    pose proof (refineAll_strings
                  (summarizeReplies (summarizer env)
                     (chunkText (cleanText (fileText f)) 1000))) as Hr.
    rewrite summarizeReplies_usable in Hr.
    assert (Hsnd : forall (b : bool) (x y : Response)
                     (saved : list SaveCall),
              snd (if b then (x, saved) else (y, saved)) = saved)
      by (now intros []).
    assert (Hsaved :
      snd (if List.length (splitWs (cleanText (fileText f))) <? 100
           then (mkResponse 400 tooShort,
                 [mkSaveCall
                    (QA.valueOf (QA.orElse (sessionEmail req)
                                           (userIdHeader req)))
                    (if QA.truthy (fingerprintField req)
                     then QA.valueOf (fingerprintField req)
                     else generateFingerprint env (fileText f))
                    (fileName f) (fileSize f) (fileText f)])
           else
             match refineAll (summarizeReplies (summarizer env)
                                (chunkText (cleanText (fileText f)) 1000))
             with
             | Some refined =>
                 (mkResponse 200
                    (SummaryBody (fileName f) (fileSize f)
                       (structuredSummary refined)
                       (preview (cleanText (fileText f)))),
                  [mkSaveCall
                     (QA.valueOf (QA.orElse (sessionEmail req)
                                            (userIdHeader req)))
                     (if QA.truthy (fingerprintField req)
                      then QA.valueOf (fingerprintField req)
                      else generateFingerprint env (fileText f))
                     (fileName f) (fileSize f) (fileText f)])
             | None =>
                 (failure500,
                  [mkSaveCall
                     (QA.valueOf (QA.orElse (sessionEmail req)
                                            (userIdHeader req)))
                     (if QA.truthy (fingerprintField req)
                      then QA.valueOf (fingerprintField req)
                      else generateFingerprint env (fileText f))
                     (fileName f) (fileSize f) (fileText f)])
             end)
      = [mkSaveCall
           (QA.valueOf (QA.orElse (sessionEmail req) (userIdHeader req)))
           (if QA.truthy (fingerprintField req)
            then QA.valueOf (fingerprintField req)
            else generateFingerprint env (fileText f))
           (fileName f) (fileSize f) (fileText f)]).
    { destruct (List.length (splitWs (cleanText (fileText f))) <? 100);
        [reflexivity|].
      now destruct (refineAll _). }
    rewrite Hsaved. split; [|split; [|split; [|split]]].
    + split; [|discriminate]. intros _. now exists req, f.
    + cbn. lia.
    + intros call [<-|[]]. exists req, f. destruct Hacc as (Hf & _).
      now repeat split.
    + discriminate.
    + intros r f' Hr' Hacc' Hw Hu. injection Hr' as <-.
      rewrite <- (accepted_file _ _ _ Hacc Hacc') in Hw, Hu.
      split; [|discriminate].
      apply Nat.ltb_ge in Hw. rewrite Hw.
      destruct (refineAll _); [|reflexivity].
      destruct Hr as [Hr _]. congruence.
  - destruct (POST_refused env form Hno) as (Hnil & H200 & Hshort & _).
    rewrite Hnil. split; [|split; [|split; [|split]]].
    + split; [contradiction|]. intros (req & f & Hr & Hacc).
      now destruct (Hno req f Hr).
    + cbn. lia.
    + intros call [].
    + intros [H|H]; contradiction.
    + intros req f Hr Hacc. now destruct (Hno req f Hr).
Qed.

Lemma POST_saves_witness :
  snd (POST plainEnv (Some shortUpload)) <> []
  /\ fst (POST silentEnv (Some longUpload)) = failure500
  /\ snd (POST silentEnv (Some longUpload)) <> [].
Proof.
  destruct (POST_saves plainEnv (Some shortUpload)) as (_ & _ & _ & Hs & _).
  destruct (POST_saves silentEnv (Some longUpload))
    as (_ & _ & _ & _ & H500).
  split; [apply Hs; right; reflexivity|].
  apply (H500 longUpload (mkFile "lease.txt" 500 (wordsOf "word" 120)));
    [reflexivity | repeat split; discriminate | | vm_compute; reflexivity].
  apply Nat.leb_le. vm_compute. reflexivity.
Defined.

Lemma substring_length (m : nat) (s : string) :
  String.length (substring 0 m s) <= m.
Proof.
  revert s. induction m as [|m IH]; intro s.
  - destruct s; cbn; lia.
  - destruct s as [|c s]; cbn; [lia|]. specialize (IH s). lia.
Qed.

Lemma substring_whole (m : nat) (s : string) :
  String.length s <= m -> substring 0 m s = s.
Proof.
  revert s. induction m as [|m IH]; intros s H.
  - destruct s; [reflexivity | cbn in H; lia].
  - destruct s as [|c s]; [reflexivity|]. cbn in *.
    rewrite IH by lia. reflexivity.
Qed.

(** X28: the preview of the response is never longer than 303 characters,
    and it is the normalised text itself when that has at most 300. *)
Theorem preview_bounded (cleanedText : string) :
  String.length (preview cleanedText) <= 303
  /\ (String.length cleanedText <= 300 -> preview cleanedText = cleanedText).
Proof.
  unfold preview. split.
  - rewrite QAFacts.length_append.
    pose proof (substring_length 300 cleanedText).
    destruct (300 <? String.length cleanedText); cbn [String.length]; lia.
  - intro H. rewrite substring_whole by exact H.
    replace (300 <? String.length cleanedText) with false
      by (symmetry; apply Nat.ltb_ge; exact H).
    clear H. induction cleanedText as [|c s IH]; [reflexivity|].
    cbn. now rewrite IH.
Qed.

Lemma preview_bounded_witness :
  preview "One two. Three" = "One two. Three".
Proof.
  apply (preview_bounded "One two. Three"). cbn. lia.
Defined.

End SummarizeRouteFacts.
